(** * Sales analytics platform: the cleaning and profiling core

    A shallow embedding of [data_cleaner.py] (class [DataCleaner]) and
    [analyzer.py] (class [DataAnalyzer]), and the properties the
    specification states about them; then the parts of [data_loader.py]
    (file sizes, column information) and [visualizer.py] (histogram grid,
    automatic selection of charts) that compute on the table, with further
    properties of all four.

    Conventions of the embedding.
    - A pandas [DataFrame] is a row count together with an ordered list of
      labelled columns; a column carries its dtype as its constructor.
      Column labels are taken to be distinct, as the loader produces them,
      so that [df[col]] inside [for col in df.columns] is the column at
      [col]'s position.
    - A present float is the rational it denotes, the missing value (NaN)
      is [None].  The arithmetic the code itself does on floats (fences,
      percentages, ratios) rounds every operation to float64: 53
      significant bits, ties to even.  Overflow, subnormal numbers and
      signed zeros are outside the model, and so is the rounding inside
      library routines (the interpolation of a quantile, the block sums
      of numpy); the cast to float32 is an unspecified function on values.
    - Python exceptions are the [Raise] arm of [result].
    - Calls into pandas and scipy whose result cannot be computed from the
      data over the rationals (date parsing, float narrowing, Pearson
      correlation, skewness, kurtosis, normality tests) are fields of the
      classes [Pandas] and [Stats].
    - A figure is what it shows ([DataVisualizer.chart]); rendering is
      plotly's.
    - Memory accounting ([memory_usage]), the localisation tables, the
      file readers and the streamlit pages are left out. *)

From Stdlib Require Import String Ascii ZArith QArith Qround Qabs Qpower Lqa Bool Arith Lia Sorted Permutation List.
Import ListNotations.

Local Open Scope list_scope.
Local Open Scope nat_scope.

(** ** Python results *)

Module Py.

Inductive exn : Type :=
| ZeroDivisionError
| TypeError.

Inductive result (A : Type) : Type :=
| Ok (a : A)
| Raise (e : exn).

Arguments Ok {A} a.
Arguments Raise {A} e.

Definition bind {A B : Type} (m : result A) (k : A -> result B) : result B :=
  match m with
  | Ok a => k a
  | Raise e => Raise e
  end.

Definition raised {A : Type} (m : result A) : bool :=
  match m with
  | Ok _ => false
  | Raise _ => true
  end.

(** [a / b] on Python integers: true division, [ZeroDivisionError] on a
    zero divisor. *)
Definition truediv (a b : nat) : result Q :=
  match b with
  | O => Raise ZeroDivisionError
  | S _ => Ok (Z.of_nat a # Pos.of_nat b)
  end.

End Py.

Import Py.

Declare Scope py_scope.
Delimit Scope py_scope with py.
Notation "x <- m ;; k" := (Py.bind m (fun x => k))
  (at level 61, m at next level, right associativity) : py_scope.
Notation "' pat <- m ;; k" := (Py.bind m (fun x => match x with pat => k end))
  (at level 61, pat pattern, m at next level, right associativity) : py_scope.

(** ** Rationals as idealised floats *)

Definition Qltb (x y : Q) : bool := negb (Qle_bool y x).

(** Round half to even, as Python's [round] and numpy's [round] do. *)
Definition Qround_half_even (q : Q) : Z :=
  let f := Qfloor q in
  let r := (q - inject_Z f)%Q in
  if Qltb r (1 # 2) then f
  else if Qltb (1 # 2) r then (f + 1)%Z
  else if Z.even f then f else (f + 1)%Z.

(** Python's [round(q, n)] of a float and the formatting [f"{q:.2f}"]:
    the nearest decimal with [n] digits of the exact value. *)
Definition Qround_digits (q : Q) (n : nat) : Q :=
  let scale := (10 ^ Z.of_nat n)%Z in
  (inject_Z (Qround_half_even (q * inject_Z scale)) / inject_Z scale)%Q.

(** ** float64 arithmetic *)

Definition Qpow2 (e : Z) : Q :=
  if (0 <=? e)%Z then inject_Z (2 ^ e) else (1 / inject_Z (2 ^ (- e)))%Q.

(** The binary exponent of a rational other than zero:
    [Qpow2 e <= |q| < Qpow2 (e + 1)]. *)
Definition Qlog2 (q : Q) : Z :=
  let a := Z.abs (Qnum q) in
  let b := Zpos (Qden q) in
  let e := (Z.log2 a - Z.log2 b)%Z in
  if Qle_bool (Qpow2 e) (Qabs q) then e else (e - 1)%Z.

(** A positive rational rounded to 53 significant bits, ties to even. *)
Definition round_significand (q : Q) : Q :=
  let ulp := Qpow2 (Qlog2 q - 52) in
  Qred (inject_Z (Qround_half_even (q / ulp)) * ulp).

(** The float64 nearest to a rational. *)
Definition binary64_round (q : Q) : Q :=
  if Qeq_bool q 0 then 0%Q
  else if Qltb q 0 then (- round_significand (- q))%Q
  else round_significand q.

(** The operations [+], [-], [*] and [/] of two floats. *)
Definition f64_add (x y : Q) : Q := binary64_round (x + y).
Definition f64_sub (x y : Q) : Q := binary64_round (x - y).
Definition f64_mul (x y : Q) : Q := binary64_round (x * y).
Definition f64_div (x y : Q) : Q := binary64_round (x / y).

(** [round] of a numpy float and [Series.round]: the float is multiplied
    by the power of ten, the product rounded to the nearest integer, ties
    to even, and divided again; the result stands for the float nearest to
    this decimal. *)
Definition np_round (q : Q) (decimals : nat) : Q :=
  let scale := inject_Z (10 ^ Z.of_nat decimals) in
  (inject_Z (Qround_half_even (f64_mul q scale)) / scale)%Q.

Fixpoint Qinsert (x : Q) (l : list Q) : list Q :=
  match l with
  | [] => [x]
  | y :: l' => if Qle_bool x y then x :: l else y :: Qinsert x l'
  end.

Definition Qsort (l : list Q) : list Q := fold_right Qinsert [] l.

(** ** Tables *)

Inductive int_width : Type := W8 | W16 | W32 | W64.
Inductive float_width : Type := F32 | F64.

(** A column with its dtype.  Integer and boolean columns cannot hold a
    missing value in pandas; float columns hold NaN, object and category
    columns hold None/NaN, datetime64 columns hold NaT. *)
Inductive column : Type :=
| IntCol (w : int_width) (vals : list Z)
| FloatCol (w : float_width) (vals : list (option Q))
| BoolCol (vals : list bool)
| ObjectCol (vals : list (option string))
| CategoryCol (vals : list (option string))
| DatetimeCol (vals : list (option Z)).

Record DataFrame : Type := mkDataFrame {
  df_len : nat;                          (* len(df) *)
  df_cols : list (string * column)       (* label and data, in column order *)
}.

(** [df.columns] *)
Definition columns (df : DataFrame) : list string := map fst (df_cols df).

Definition col_len (c : column) : nat :=
  match c with
  | IntCol _ v => length v
  | FloatCol _ v => length v
  | BoolCol v => length v
  | ObjectCol v => length v
  | CategoryCol v => length v
  | DatetimeCol v => length v
  end.

(** Every column has as many entries as the frame has rows. *)
Definition wf (df : DataFrame) : Prop :=
  Forall (fun nc => col_len (snd nc) = df_len df) (df_cols df).

Definition wfb (df : DataFrame) : bool :=
  forallb (fun nc => col_len (snd nc) =? df_len df) (df_cols df).

(** [df[col]] for a label. *)
Fixpoint lookup_col (cols : list (string * column)) (name : string) : option column :=
  match cols with
  | [] => None
  | (n, c) :: rest => if String.eqb n name then Some c else lookup_col rest name
  end.

Definition get_col (df : DataFrame) (name : string) : option column :=
  lookup_col (df_cols df) name.

(** *** Missing values *)

Definition is_none {A : Type} (o : option A) : bool :=
  match o with
  | None => true
  | Some _ => false
  end.

Definition count_none {A : Type} (l : list (option A)) : nat :=
  length (filter is_none l).

Fixpoint dropna {A : Type} (l : list (option A)) : list A :=
  match l with
  | [] => []
  | Some a :: l' => a :: dropna l'
  | None :: l' => dropna l'
  end.

(** [Series.fillna(value)] *)
Definition fillna {A : Type} (value : A) (l : list (option A)) : list (option A) :=
  map (fun o => match o with Some a => Some a | None => Some value end) l.

(** [df[col].isnull().sum()] *)
Definition isnull_sum (c : column) : nat :=
  match c with
  | IntCol _ _ => 0
  | BoolCol _ => 0
  | FloatCol _ v => count_none v
  | ObjectCol v => count_none v
  | CategoryCol v => count_none v
  | DatetimeCol v => count_none v
  end.

(** [pd.api.types.is_numeric_dtype]: integers, floats and booleans. *)
Definition is_numeric_dtype (c : column) : bool :=
  match c with
  | IntCol _ _ | FloatCol _ _ | BoolCol _ => true
  | _ => false
  end.

(** [df[col].dtype == 'object'] *)
Definition is_object_dtype (c : column) : bool :=
  match c with
  | ObjectCol _ => true
  | _ => false
  end.

(** *** Distinct values and the mode *)

Fixpoint count_occ_str (s : string) (l : list string) : nat :=
  match l with
  | [] => 0
  | x :: l' => (if String.eqb x s then 1 else 0) + count_occ_str s l'
  end.

Fixpoint mem_str (s : string) (l : list string) : bool :=
  match l with
  | [] => false
  | x :: l' => String.eqb x s || mem_str s l'
  end.

(** Distinct values in order of first appearance. *)
Fixpoint unique_str_acc (seen : list string) (l : list string) : list string :=
  match l with
  | [] => rev seen
  | x :: l' => if mem_str x seen then unique_str_acc seen l'
               else unique_str_acc (x :: seen) l'
  end.

Definition unique_str (l : list string) : list string := unique_str_acc [] l.

(** [Series.nunique()]: distinct non-missing values. *)
Definition nunique (l : list (option string)) : nat :=
  length (unique_str (dropna l)).

Fixpoint str_insert (x : string) (l : list string) : list string :=
  match l with
  | [] => [x]
  | y :: l' => if String.leb x y then x :: l else y :: str_insert x l'
  end.

Definition str_sort (l : list string) : list string := fold_right str_insert [] l.

(** [Series.mode()]: the most frequent non-missing values, sorted; empty
    exactly when nothing is present. *)
Definition mode (l : list (option string)) : list string :=
  let present := dropna l in
  let uniq := unique_str present in
  let best := fold_right (fun s m => Nat.max (count_occ_str s present) m) 0 uniq in
  str_sort (filter (fun s => count_occ_str s present =? best) uniq).

(** [Series.median()] over the present values; NaN ([None]) when there are
    none. *)
Definition median (l : list (option Q)) : option Q :=
  let s := Qsort (dropna l) in
  let n := length s in
  match n with
  | O => None
  | _ =>
    if Nat.odd n then nth_error s (n / 2)
    else match nth_error s (n / 2 - 1), nth_error s (n / 2) with
         | Some a, Some b => Some ((a + b) / 2)%Q
         | _, _ => None
         end
  end.

(** *** Rows and duplicates *)

Inductive cell : Type :=
| VInt (z : Z)
| VFloat (q : option Q)
| VBool (b : bool)
| VStr (s : option string)
| VTime (t : option Z).

Definition option_eqb {A : Type} (eqb : A -> A -> bool) (x y : option A) : bool :=
  match x, y with
  | None, None => true
  | Some a, Some b => eqb a b
  | _, _ => false
  end.

(** Equality of entries as [duplicated] sees it: two missing entries of a
    column are equal. *)
Definition cell_eqb (x y : cell) : bool :=
  match x, y with
  | VInt a, VInt b => Z.eqb a b
  | VFloat a, VFloat b => option_eqb Qeq_bool a b
  | VBool a, VBool b => Bool.eqb a b
  | VStr a, VStr b => option_eqb String.eqb a b
  | VTime a, VTime b => option_eqb Z.eqb a b
  | _, _ => false
  end.

Definition cells (c : column) : list cell :=
  match c with
  | IntCol _ v => map VInt v
  | FloatCol _ v => map VFloat v
  | BoolCol v => map VBool v
  | ObjectCol v => map VStr v
  | CategoryCol v => map VStr v
  | DatetimeCol v => map VTime v
  end.

Definition row : Type := list (option cell).

Definition row_at (df : DataFrame) (i : nat) : row :=
  map (fun nc => nth_error (cells (snd nc)) i) (df_cols df).

Definition rows (df : DataFrame) : list row :=
  map (row_at df) (seq 0 (df_len df)).

Fixpoint row_eqb (r1 r2 : row) : bool :=
  match r1, r2 with
  | [], [] => true
  | x :: r1', y :: r2' => option_eqb cell_eqb x y && row_eqb r1' r2'
  | _, _ => false
  end.

(** Marks each row that repeats an earlier one. *)
Fixpoint mark_repeats (seen : list row) (rs : list row) : list bool :=
  match rs with
  | [] => []
  | r :: rs' => existsb (row_eqb r) seen :: mark_repeats (r :: seen) rs'
  end.

(** [df.empty]: no rows or no columns. *)
Definition df_empty (df : DataFrame) : bool :=
  (df_len df =? 0) || (length (df_cols df) =? 0).

(** [df.duplicated()], keep='first'.  On an empty frame pandas answers
    without comparing rows and marks nothing. *)
Definition duplicated (df : DataFrame) : list bool :=
  if df_empty df then repeat false (df_len df)
  else mark_repeats [] (rows df).

Definition count_true (m : list bool) : nat := length (filter (fun b => b) m).

(** Entries of [l] at the positions where [mask] is false. *)
Fixpoint drop_marked {A : Type} (mask : list bool) (l : list A) : list A :=
  match mask, l with
  | b :: mask', x :: l' => if b then drop_marked mask' l' else x :: drop_marked mask' l'
  | _, _ => []
  end.

Definition col_drop_marked (mask : list bool) (c : column) : column :=
  match c with
  | IntCol w v => IntCol w (drop_marked mask v)
  | FloatCol w v => FloatCol w (drop_marked mask v)
  | BoolCol v => BoolCol (drop_marked mask v)
  | ObjectCol v => ObjectCol (drop_marked mask v)
  | CategoryCol v => CategoryCol (drop_marked mask v)
  | DatetimeCol v => DatetimeCol (drop_marked mask v)
  end.

(** [df.drop_duplicates()] *)
Definition drop_duplicates (df : DataFrame) : DataFrame :=
  let mask := duplicated df in
  {| df_len := length (filter negb mask);
     df_cols := map (fun nc => (fst nc, col_drop_marked mask (snd nc))) (df_cols df) |}.

(** ** The library behind the code *)

(** What the cleaner asks of pandas beyond the data itself.
    [to_datetime_ok vals] tells whether [pd.to_datetime(series,
    errors='raise')] returns on an object column with these values; it
    returns on a column without entries. *)
Class Pandas : Type := {
  to_datetime_ok : list (option string) -> bool;
  to_datetime_nil : to_datetime_ok [] = true;
  astype_float32 : Q -> Q
}.

(** ** data_cleaner.py *)

Module DataCleaner.

Record QualityReport : Type := {
  total_rows : nat;
  total_columns : nat;
  missing_values : list (string * (nat * Q));   (* column, count, percentage *)
  duplicates : nat
}.

Record ColumnTypes : Type := {
  numeric : list string;
  categorical : list string;
  datetime : list string;
  text : list string
}.

Record CleaningReport : Type := {
  quality : QualityReport;
  duplicates_removed : Z;
  column_types : ColumnTypes;
  final_shape : nat * nat
}.

(** The loop of [analyze_data_quality] over the columns.  A positive
    [null_count] means the frame has rows, so the division is by a
    positive length. *)
Fixpoint missing_report (n : nat) (cols : list (string * column))
  : list (string * (nat * Q)) :=
  match cols with
  | [] => []
  | (col, c) :: rest =>
    let null_count := isnull_sum c in
    if 0 <? null_count then
      (col, (null_count,
             np_round (f64_mul (f64_div (inject_Z (Z.of_nat null_count))
                                        (inject_Z (Z.of_nat n))) 100) 2))
        :: missing_report n rest
    else missing_report n rest
  end.

Definition analyze_data_quality (df : DataFrame) : QualityReport :=
  {| total_rows := df_len df;
     total_columns := length (columns df);
     missing_values := missing_report (df_len df) (df_cols df);
     duplicates := count_true (duplicated df) |}.

Definition empty_types : ColumnTypes :=
  {| numeric := []; categorical := []; datetime := []; text := [] |}.

Definition add_numeric (t : ColumnTypes) (col : string) : ColumnTypes :=
  {| numeric := numeric t ++ [col]; categorical := categorical t;
     datetime := datetime t; text := text t |}.

Definition add_categorical (t : ColumnTypes) (col : string) : ColumnTypes :=
  {| numeric := numeric t; categorical := categorical t ++ [col];
     datetime := datetime t; text := text t |}.

Definition add_datetime (t : ColumnTypes) (col : string) : ColumnTypes :=
  {| numeric := numeric t; categorical := categorical t;
     datetime := datetime t ++ [col]; text := text t |}.

Definition add_text (t : ColumnTypes) (col : string) : ColumnTypes :=
  {| numeric := numeric t; categorical := categorical t;
     datetime := datetime t; text := text t ++ [col] |}.

Section WithPandas.

Context {pandas : Pandas}.

Local Open Scope py_scope.

(** One iteration of the loop of [detect_column_types]: the object column
    that parses as dates is a datetime column ([continue]); otherwise the
    [if]/[elif] chain on numeric and object dtype, which has no [else]. *)
Definition detect_step (len_df : nat) (column_types : ColumnTypes)
  (col : string) (c : column) : result ColumnTypes :=
  match c with
  | ObjectCol vals =>
    if to_datetime_ok vals then Ok (add_datetime column_types col)
    else
      unique_ratio <- truediv (nunique vals) len_df ;;
      if Qltb unique_ratio (5 # 100) || (nunique vals <? 20)
      then Ok (add_categorical column_types col)
      else Ok (add_text column_types col)
  | IntCol _ _ | FloatCol _ _ | BoolCol _ => Ok (add_numeric column_types col)
  | CategoryCol _ | DatetimeCol _ => Ok column_types
  end.

Fixpoint detect_loop (len_df : nat) (cols : list (string * column))
  (column_types : ColumnTypes) : result ColumnTypes :=
  match cols with
  | [] => Ok column_types
  | (col, c) :: rest =>
    column_types' <- detect_step len_df column_types col c ;;
    detect_loop len_df rest column_types'
  end.

Definition detect_column_types (df : DataFrame) : result ColumnTypes :=
  detect_loop (df_len df) (df_cols df) empty_types.

(** The body of the loop of [handle_missing_values] for one column. *)
Definition impute_column (c : column) : column :=
  if 0 <? isnull_sum c then
    match c with
    | FloatCol w vals =>
      (* fillna(median): filling with a NaN median fills nothing *)
      match median vals with
      | Some m => FloatCol w (fillna m vals)
      | None => c
      end
    | IntCol _ _ | BoolCol _ => c
    | ObjectCol vals =>
      match mode vals with
      | m :: _ => ObjectCol (fillna m vals)
      | [] => ObjectCol (fillna "Unknown"%string vals)
      end
    | CategoryCol _ | DatetimeCol _ => c
    end
  else c.

Definition handle_missing_values (df : DataFrame) : DataFrame :=
  {| df_len := df_len df;
     df_cols := map (fun nc => (fst nc, impute_column (snd nc))) (df_cols df) |}.

Definition remove_duplicates (df : DataFrame) : DataFrame := drop_duplicates df.

(** [np.iinfo(t).min] and [np.iinfo(t).max] *)
Definition iinfo_min (w : int_width) : Z :=
  match w with
  | W8 => -128
  | W16 => -32768
  | W32 => -2147483648
  | W64 => -9223372036854775808
  end.

Definition iinfo_max (w : int_width) : Z :=
  match w with
  | W8 => 127
  | W16 => 32767
  | W32 => 2147483647
  | W64 => 9223372036854775807
  end.

Definition list_min (l : list Z) : option Z :=
  match l with
  | [] => None
  | x :: l' => Some (fold_left Z.min l' x)
  end.

Definition list_max (l : list Z) : option Z :=
  match l with
  | [] => None
  | x :: l' => Some (fold_left Z.max l' x)
  end.

(** The width chosen for an int64 column with the given extremes. *)
Definition narrow_width (c_min c_max : Z) : int_width :=
  if (iinfo_min W8 <? c_min)%Z && (c_max <? iinfo_max W8)%Z then W8
  else if (iinfo_min W16 <? c_min)%Z && (c_max <? iinfo_max W16)%Z then W16
  else if (iinfo_min W32 <? c_min)%Z && (c_max <? iinfo_max W32)%Z then W32
  else W64.

(** The body of the loop of [optimize_dtypes] for one column.  The extremes
    of a column without entries are NaN, every comparison with them fails
    and the column stays as it is. *)
Definition optimize_column (c : column) : result column :=
  match c with
  | IntCol W64 vals =>
    match list_min vals, list_max vals with
    | Some c_min, Some c_max => Ok (IntCol (narrow_width c_min c_max) vals)
    | _, _ => Ok c
    end
  | FloatCol F64 vals => Ok (FloatCol F32 (map (option_map astype_float32) vals))
  | ObjectCol vals =>
    let num_unique := nunique vals in
    let num_total := length vals in
    ratio <- truediv num_unique num_total ;;
    if Qltb ratio (1 # 2) then Ok (CategoryCol vals) else Ok c
  | _ => Ok c
  end.

Fixpoint optimize_loop (cols : list (string * column))
  : result (list (string * column)) :=
  match cols with
  | [] => Ok []
  | (col, c) :: rest =>
    c' <- optimize_column c ;;
    rest' <- optimize_loop rest ;;
    Ok ((col, c') :: rest')
  end.

(** [optimize_dtypes], without its memory report. *)
Definition optimize_dtypes (df : DataFrame) : result DataFrame :=
  cols <- optimize_loop (df_cols df) ;;
  Ok {| df_len := df_len df; df_cols := cols |}.

Definition auto_clean (df : DataFrame) : result (DataFrame * CleaningReport) :=
  let quality_report := analyze_data_quality df in
  let df_cleaned := handle_missing_values df in
  let duplicates_removed :=
    (Z.of_nat (df_len df_cleaned) - Z.of_nat (df_len (drop_duplicates df_cleaned)))%Z in
  let df_cleaned := remove_duplicates df_cleaned in
  df_cleaned <- optimize_dtypes df_cleaned ;;
  column_types <- detect_column_types df_cleaned ;;
  Ok (df_cleaned,
      {| quality := quality_report;
         duplicates_removed := duplicates_removed;
         column_types := column_types;
         final_shape := (df_len df_cleaned, length (columns df_cleaned)) |}).

End WithPandas.

End DataCleaner.

(** ** Computed statistics

    A statistic is a float that may be NaN or infinite.  Division and
    multiplication round to float64 and follow IEEE 754 at zero (signed
    zeros are not distinguished: a zero divisor is taken as [+0]). *)

Inductive fval : Type :=
| FNaN
| FInf (negative : bool)
| Fin (q : Q).

Definition Qsign_neg (q : Q) : bool := Qltb q 0.

Definition fdiv (x y : fval) : fval :=
  match x, y with
  | FNaN, _ | _, FNaN => FNaN
  | FInf _, FInf _ => FNaN
  | FInf s, Fin b => FInf (xorb s (Qsign_neg b))
  | Fin _, FInf _ => Fin 0
  | Fin a, Fin b =>
    if Qeq_bool b 0 then
      if Qeq_bool a 0 then FNaN else FInf (Qsign_neg a)
    else Fin (f64_div a b)
  end.

Definition fmul (x y : fval) : fval :=
  match x, y with
  | FNaN, _ | _, FNaN => FNaN
  | FInf s, FInf t => FInf (xorb s t)
  | FInf s, Fin b => if Qeq_bool b 0 then FNaN else FInf (xorb s (Qsign_neg b))
  | Fin a, FInf t => if Qeq_bool a 0 then FNaN else FInf (xorb (Qsign_neg a) t)
  | Fin a, Fin b => Fin (f64_mul a b)
  end.

Definition fabs (x : fval) : fval :=
  match x with
  | FNaN => FNaN
  | FInf _ => FInf false
  | Fin q => Fin (Qabs q)
  end.

(** [round(x, n)] of a numpy float and [Series.round(n)]: NaN and the
    infinities round to themselves. *)
Definition fround (x : fval) (n : nat) : fval :=
  match x with
  | Fin q => Fin (np_round q n)
  | _ => x
  end.

(** [x > c] and [x < c]; false whenever [x] is NaN. *)
Definition fgt (x : fval) (c : Q) : bool :=
  match x with
  | FNaN => false
  | FInf s => negb s
  | Fin q => Qltb c q
  end.

Definition flt (x y : fval) : bool :=
  match x, y with
  | FNaN, _ | _, FNaN => false
  | FInf s, FInf t => s && negb t
  | FInf s, Fin _ => s
  | Fin _, FInf t => negb t
  | Fin a, Fin b => Qltb a b
  end.

Definition is_nan (x : fval) : bool :=
  match x with
  | FNaN => true
  | _ => false
  end.

(** What the analyzer asks of pandas and scipy.  A [Raise] is an exception
    of the call, which the caller's [try]/[except] may absorb.
    [quantile_accepts_bool] says whether [Series.quantile] interpolates a
    boolean column as zeros and ones or raises [TypeError]; both occur,
    depending on the numpy underneath. *)
Class Stats : Type := {
  series_std : list Q -> fval;                               (* Series.std() *)
  pearson : list (option Q) -> list (option Q) -> fval;      (* an entry of DataFrame.corr() *)
  scipy_skew : list Q -> result fval;                        (* stats.skew *)
  scipy_kurtosis : list Q -> result fval;                    (* stats.kurtosis *)
  scipy_shapiro : list Q -> result fval;                     (* p-value of stats.shapiro *)
  scipy_anderson : list Q -> result (fval * fval);           (* statistic, critical_values[2] *)
  quantile_accepts_bool : bool
}.

(** ** analyzer.py *)

Module DataAnalyzer.

Import DataCleaner.

Record DistributionSummary : Type := {
  skewness : fval;
  kurtosis : fval;
  is_normal : bool;
  outliers_count : nat;
  outliers_percentage : Q;
  Q1 : Q;
  Q3 : Q;
  IQR : Q
}.

Record DescriptiveRow : Type := {
  d_count : nat;
  d_mean : fval;
  d_std : fval;
  d_min : fval;
  d_q25 : fval;
  d_q50 : fval;
  d_q75 : fval;
  d_max : fval;
  d_median : fval;
  d_cv : fval
}.

Record StrongCorrelation : Type := {
  var1 : string;
  var2 : string;
  correlation : fval
}.

Record CategoricalSummary : Type := {
  unique_count : nat;
  most_common : option cell;
  most_common_count : nat;
  most_common_pct : Q;
  value_counts : list (cell * nat)
}.

(** The direction named in a skew insight: "o'ng" is right, "chap" left. *)
Inductive direction : Type := DirRight | DirLeft.

(** The findings of [generate_insights].  The source renders each as a
    sentence built from exactly these parts. *)
Inductive Insight : Type :=
| OutlierInsight (col : string) (pct : Q)
| SkewInsight (col : string) (dir : direction) (skew : fval)
| NormalInsight (col : string)
| CorrelationInsight (v1 v2 : string) (corr : fval)
| DominantInsight (col : string) (value : option cell) (pct : Q).

(** The present values of a numeric column as numbers; booleans count as
    zero and one. *)
Definition numeric_values (c : column) : option (list (option Q)) :=
  match c with
  | IntCol _ v => Some (map (fun z => Some (inject_Z z)) v)
  | FloatCol _ v => Some v
  | BoolCol v => Some (map (fun b : bool => Some (if b then 1%Q else 0%Q)) v)
  | _ => None
  end.

(** [select_dtypes(include=[np.number])]: integers and floats, not
    booleans. *)
Definition is_number_dtype (c : column) : bool :=
  match c with
  | IntCol _ _ | FloatCol _ _ => true
  | _ => false
  end.

Definition Qsum (l : list Q) : Q := fold_left Qplus l 0%Q.

(** [Series.mean()]: the float sum of the values, added in their order,
    divided by their number.  (numpy adds a series of eight values or
    more in blocks, which may differ from this sum in the last bit.) *)
Definition series_mean (l : list Q) : fval :=
  match l with
  | [] => FNaN
  | _ => Fin (f64_div (fold_left f64_add l 0%Q) (inject_Z (Z.of_nat (length l))))
  end.

(** [Series.quantile(q)] with linear interpolation over the sorted present
    values; the interpolation itself is exact. *)
Definition quantile (data : list Q) (q : Q) : Q :=
  let s := Qsort data in
  let pos := (inject_Z (Z.of_nat (length s - 1)) * q)%Q in
  let lo := Z.to_nat (Qfloor pos) in
  let frac := (pos - inject_Z (Qfloor pos))%Q in
  let a := nth lo s 0%Q in
  let b := nth (S lo) s a in
  (a + (b - a) * frac)%Q.

Definition fquantile (data : list Q) (q : Q) : fval :=
  match data with
  | [] => FNaN
  | _ => Fin (quantile data q)
  end.

(** The mask [(data < lower_bound) | (data > upper_bound)]. *)
Definition is_outlier (lower_bound upper_bound x : Q) : bool :=
  Qltb x lower_bound || Qltb upper_bound x.

Section WithStats.

Context {stats : Stats}.

Local Open Scope py_scope.

(** The [cv] entry: [(std / mean * 100).round(2)]. *)
Definition coefficient_of_variation (std mean : fval) : fval :=
  fround (fmul (fdiv std mean) (Fin 100)) 2.

Definition describe_column (vals : list (option Q)) : DescriptiveRow :=
  let data := dropna vals in
  {| d_count := length data;
     d_mean := series_mean data;
     d_std := series_std data;
     d_min := fquantile data 0;
     d_q25 := fquantile data (1 # 4);
     d_q50 := fquantile data (1 # 2);
     d_q75 := fquantile data (3 # 4);
     d_max := fquantile data 1;
     d_median := fquantile data (1 # 2);
     d_cv := coefficient_of_variation (series_std data) (series_mean data) |}.

(** The columns [select_dtypes(include=[np.number])] keeps, with their
    values. *)
Fixpoint number_columns (cols : list (string * column))
  : list (string * list (option Q)) :=
  match cols with
  | [] => []
  | (col, c) :: rest =>
    if is_number_dtype c then
      match numeric_values c with
      | Some v => (col, v) :: number_columns rest
      | None => number_columns rest
      end
    else number_columns rest
  end.

(** [descriptive_statistics]: one row per numeric column; the pandas
    skewness and kurtosis entries of a row are not modelled. *)
Definition descriptive_statistics (df : DataFrame) : list (string * DescriptiveRow) :=
  map (fun nv => (fst nv, describe_column (snd nv))) (number_columns (df_cols df)).

(** The inner loop of [correlation_analysis]: [j] over the columns after
    column [i]. *)
Fixpoint strong_inner (ci : string * list (option Q))
  (later : list (string * list (option Q)))
  (strong_correlations : list StrongCorrelation) : list StrongCorrelation :=
  match later with
  | [] => strong_correlations
  | cj :: later' =>
    let corr_value := pearson (snd ci) (snd cj) in
    if fgt (fabs corr_value) (7 # 10) then
      strong_inner ci later'
        (strong_correlations ++
           [{| var1 := fst ci; var2 := fst cj; correlation := fround corr_value 3 |}])
    else strong_inner ci later' strong_correlations
  end.

Fixpoint strong_outer (cols : list (string * list (option Q)))
  (strong_correlations : list StrongCorrelation) : list StrongCorrelation :=
  match cols with
  | [] => strong_correlations
  | ci :: later => strong_outer later (strong_inner ci later strong_correlations)
  end.

(** [correlation_analysis]: the matrix and the strong pairs; both empty
    with fewer than two numeric columns. *)
Definition correlation_analysis (df : DataFrame)
  : list (list fval) * list StrongCorrelation :=
  let numeric_cols := number_columns (df_cols df) in
  if length numeric_cols <? 2 then ([], [])
  else
    (map (fun ci => map (fun cj => pearson (snd ci) (snd cj)) numeric_cols) numeric_cols,
     strong_outer numeric_cols []).

(** The normality verdict of [distribution_analysis]. *)
Definition normality (data : list Q) : bool :=
  if (length data <? 5000) && (3 <=? length data) then
    match scipy_shapiro data with
    | Ok p_value => fgt p_value (5 # 100)
    | Raise _ => false
    end
  else if 5000 <=? length data then
    match scipy_anderson data with
    | Ok (statistic, critical) => flt statistic critical
    | Raise _ => false
    end
  else false.

(** [distribution_analysis]; [None] is the empty dictionary. *)
Definition distribution_analysis (df : DataFrame) (column : string)
  : result (option DistributionSummary) :=
  match get_col df column with
  | None => Ok None
  | Some c =>
    match numeric_values c with
    | None => Ok None
    | Some vals =>
      let data := dropna vals in
      if length data <? 3 then Ok None
      else
        let '(skewness, kurtosis) :=
          match scipy_skew data, scipy_kurtosis data with
          | Ok s, Ok k => (s, k)
          | _, _ => (Fin 0, Fin 0)
          end in
        let is_normal := normality data in
        if (match c with BoolCol _ => negb quantile_accepts_bool | _ => false end)
        then Raise TypeError
        else
          let Q1 := quantile data (1 # 4) in
          let Q3 := quantile data (3 # 4) in
          let IQR := f64_sub Q3 Q1 in
          let lower_bound := f64_sub Q1 (f64_mul (3 # 2) IQR) in
          let upper_bound := f64_add Q3 (f64_mul (3 # 2) IQR) in
          let outliers := filter (is_outlier lower_bound upper_bound) data in
          let outliers_percentage :=
            if 0 <? length data then
              Qround_digits
                (f64_mul (f64_div (inject_Z (Z.of_nat (length outliers)))
                                  (inject_Z (Z.of_nat (length data)))) 100) 2
            else 0%Q in
          Ok (Some {| skewness := fround skewness 3;
                      kurtosis := fround kurtosis 3;
                      is_normal := is_normal;
                      outliers_count := length outliers;
                      outliers_percentage := outliers_percentage;
                      Q1 := Q1; Q3 := Q3; IQR := IQR |})
    end
  end.

(** [Series.value_counts()]: the present values with their counts, most
    frequent first, equal counts in order of first appearance. *)
Definition cell_missing (x : cell) : bool :=
  match x with
  | VFloat None | VStr None | VTime None => true
  | _ => false
  end.

Fixpoint count_cell (x : cell) (l : list cell) : nat :=
  match l with
  | [] => 0
  | y :: l' => (if cell_eqb y x then 1 else 0) + count_cell x l'
  end.

Fixpoint unique_cells_acc (seen : list cell) (l : list cell) : list cell :=
  match l with
  | [] => rev seen
  | x :: l' => if existsb (cell_eqb x) seen then unique_cells_acc seen l'
               else unique_cells_acc (x :: seen) l'
  end.

Fixpoint count_insert (x : cell * nat) (l : list (cell * nat)) : list (cell * nat) :=
  match l with
  | [] => [x]
  | y :: l' => if snd y <=? snd x then x :: l else y :: count_insert x l'
  end.

Definition series_value_counts (c : column) : list (cell * nat) :=
  let present := filter (fun x => negb (cell_missing x)) (cells c) in
  fold_right count_insert []
    (map (fun x => (x, count_cell x present)) (unique_cells_acc [] present)).

(** [categorical_analysis]; [None] is the empty dictionary. *)
Definition categorical_analysis (df : DataFrame) (column : string)
  : option CategoricalSummary :=
  match get_col df column with
  | None => None
  | Some c =>
    let value_counts := series_value_counts c in
    Some
      match value_counts with
      | [] =>
        {| unique_count := 0; most_common := None; most_common_count := 0;
           most_common_pct := 0; value_counts := [] |}
      | (v, n) :: _ =>
        {| unique_count := length value_counts;
           most_common := Some v;
           most_common_count := n;
           most_common_pct :=
             np_round (f64_mul (f64_div (inject_Z (Z.of_nat n))
                                        (inject_Z (Z.of_nat (df_len df)))) 100) 2;
           value_counts := value_counts |}
      end
  end.

(** The first loop of [generate_insights], over [numeric_cols[:5]]. *)
Fixpoint numeric_insights_loop (df : DataFrame) (cols : list string)
  (insights : list Insight) : result (list Insight) :=
  match cols with
  | [] => Ok insights
  | col :: rest =>
    dist_info <- distribution_analysis df col ;;
    match dist_info with
    | None => numeric_insights_loop df rest insights
    | Some d =>
      let insights :=
        if Qltb 5 (outliers_percentage d)
        then insights ++ [OutlierInsight col (outliers_percentage d)]
        else insights in
      let insights :=
        if fgt (fabs (skewness d)) 1 then
          let direction := if fgt (skewness d) 0 then DirRight else DirLeft in
          insights ++ [SkewInsight col direction (skewness d)]
        else insights in
      let insights :=
        if is_normal d then insights ++ [NormalInsight col] else insights in
      numeric_insights_loop df rest insights
    end
  end.

(** The second loop, over [strong_corr[:3]]. *)
Fixpoint correlation_insights_loop (strong : list StrongCorrelation)
  (insights : list Insight) : list Insight :=
  match strong with
  | [] => insights
  | corr :: rest =>
    correlation_insights_loop rest
      (insights ++ [CorrelationInsight (var1 corr) (var2 corr) (correlation corr)])
  end.

(** The third loop, over [categorical_cols[:3]]. *)
Fixpoint categorical_insights_loop (df : DataFrame) (cols : list string)
  (insights : list Insight) : list Insight :=
  match cols with
  | [] => insights
  | col :: rest =>
    match categorical_analysis df col with
    | Some cat_info =>
      if Qltb 50 (most_common_pct cat_info) then
        categorical_insights_loop df rest
          (insights ++ [DominantInsight col (most_common cat_info) (most_common_pct cat_info)])
      else categorical_insights_loop df rest insights
    | None => categorical_insights_loop df rest insights
    end
  end.

Definition generate_insights (df : DataFrame) (column_types : ColumnTypes)
  : result (list Insight) :=
  let insights := [] in
  let numeric_cols := numeric column_types in
  insights <- numeric_insights_loop df (firstn 5 numeric_cols) insights ;;
  let '(_, strong_corr) := correlation_analysis df in
  let insights := correlation_insights_loop (firstn 3 strong_corr) insights in
  let categorical_cols := categorical column_types in
  Ok (categorical_insights_loop df (firstn 3 categorical_cols) insights).

End WithStats.

End DataAnalyzer.

(** ** A concrete library

    Instances of [Pandas] and [Stats] on which the code runs on explicit
    tables.  The date parser accepts the columns whose present values all
    have the shape [YYYY-MM-DD]; the float32 cast rounds to a 24 bit
    significand, ties to even.  Standard deviation, Pearson correlation,
    skewness and excess kurtosis are computed from the moments, square
    roots to fifteen decimals; the two normality tests are not available
    and raise, which [distribution_analysis] turns into a negative
    verdict. *)

Definition is_digit (a : ascii) : bool :=
  let n := nat_of_ascii a in (48 <=? n) && (n <=? 57).

Definition digit_value (a : ascii) : nat := nat_of_ascii a - 48.

Definition leap_year (y : nat) : bool :=
  ((y mod 4 =? 0) && negb (y mod 100 =? 0)) || (y mod 400 =? 0).

Definition days_in_month (y m : nat) : nat :=
  match m with
  | 2 => if leap_year y then 29 else 28
  | 4 | 6 | 9 | 11 => 30
  | _ => 31
  end.

(** A date of the calendar written [YYYY-MM-DD]. *)
Definition iso_date (s : string) : bool :=
  match list_ascii_of_string s with
  | [y1; y2; y3; y4; d1; m1; m2; d2; a1; a2] =>
    let y := 1000 * digit_value y1 + 100 * digit_value y2
             + 10 * digit_value y3 + digit_value y4 in
    let m := 10 * digit_value m1 + digit_value m2 in
    let d := 10 * digit_value a1 + digit_value a2 in
    forallb is_digit [y1; y2; y3; y4; m1; m2; a1; a2]
    && Ascii.eqb d1 "-"%char && Ascii.eqb d2 "-"%char
    && (1 <=? m) && (m <=? 12) && (1 <=? d) && (d <=? days_in_month y m)
  | _ => false
  end.

Definition binary32_round (q : Q) : Q :=
  if Qeq_bool q 0 then 0%Q
  else
    let ulp := Qpow2 (Z.max (Qlog2 q) (-126) - 23) in
    Qred (inject_Z (Qround_half_even (q / ulp)) * ulp)%Q.

(** A stand-in for pandas in the examples: of the many formats
    [pd.to_datetime] reads it knows the ISO dates only. *)
#[export] Instance iso_pandas : Pandas := {|
  to_datetime_ok := fun vals => forallb iso_date (dropna vals);
  to_datetime_nil := eq_refl;
  astype_float32 := binary32_round
|}.

Definition Qsqrt (q : Q) : Q :=
  if Qle_bool q 0 then 0%Q
  else Qred (Z.sqrt (Qnum q * 10 ^ 30 / Zpos (Qden q)) # 10 ^ 15).

Definition Qmean (l : list Q) : Q :=
  (DataAnalyzer.Qsum l / inject_Z (Z.of_nat (length l)))%Q.

(** The central moment of order [k], biased (divided by [n]). *)
Definition central_moment (k : positive) (l : list Q) : Q :=
  let m := Qmean l in
  (DataAnalyzer.Qsum (map (fun x => Qpower_positive (x - m) k) l)
   / inject_Z (Z.of_nat (length l)))%Q.

Definition sample_std (l : list Q) : fval :=
  if length l <? 2 then FNaN
  else
    let n := inject_Z (Z.of_nat (length l)) in
    Fin (Qsqrt (central_moment 2 l * n / (n - 1))%Q).

Definition moment_skew (l : list Q) : fval :=
  let m2 := central_moment 2 l in
  fdiv (Fin (central_moment 3 l)) (Fin (m2 * Qsqrt m2)%Q).

Definition moment_kurtosis (l : list Q) : fval :=
  let m2 := central_moment 2 l in
  match fdiv (Fin (central_moment 4 l)) (Fin (m2 * m2)%Q) with
  | Fin k => Fin (k - 3)%Q
  | other => other
  end.

(** Pearson correlation over the rows where both entries are present. *)
Fixpoint paired (xs ys : list (option Q)) : list (Q * Q) :=
  match xs, ys with
  | Some x :: xs', Some y :: ys' => (x, y) :: paired xs' ys'
  | _ :: xs', _ :: ys' => paired xs' ys'
  | _, _ => []
  end.

Definition moment_pearson (xs ys : list (option Q)) : fval :=
  let ps := paired xs ys in
  let a := map fst ps in
  let b := map snd ps in
  let ma := Qmean a in
  let mb := Qmean b in
  let cov := DataAnalyzer.Qsum (map (fun p => (fst p - ma) * (snd p - mb))%Q ps) in
  let va := DataAnalyzer.Qsum (map (fun x => (x - ma) * (x - ma))%Q a) in
  let vb := DataAnalyzer.Qsum (map (fun y => (y - mb) * (y - mb))%Q b) in
  match ps with
  | [] => FNaN
  | _ => fdiv (Fin cov) (Fin (Qsqrt va * Qsqrt vb)%Q)
  end.

(** A sample that mirrors itself: the [i]-th smallest and the [i]-th
    largest value add up to the same sum for every [i]. *)
Definition symmetric (l : list Q) : bool :=
  let s := Qsort l in
  match s, rev s with
  | a :: _, b :: _ =>
    forallb (fun p => Qeq_bool (fst p + snd p) (a + b)) (combine s (rev s))
  | _, _ => true
  end.

(** A stand-in for the tests of normality in the examples: a symmetric
    sample passes with p-value one, any other fails with p-value zero; as
    scipy does, the test refuses fewer than three values. *)
Definition symmetry_test (l : list Q) : result fval :=
  if length l <? 3 then Raise TypeError
  else Ok (Fin (if symmetric l then 1 else 0)).

(** A stand-in for scipy and pandas in the examples: moments computed
    over the rationals with square roots to fifteen digits. *)
#[export] Instance moment_stats : Stats := {|
  series_std := sample_std;
  pearson := moment_pearson;
  scipy_skew := fun l => Ok (moment_skew l);
  scipy_kurtosis := fun l => Ok (moment_kurtosis l);
  scipy_shapiro := symmetry_test;
  scipy_anderson := fun l => Ok (Fin (if symmetric l then 0 else 1), Fin (787 # 1000));
  quantile_accepts_bool := false
|}.

(** ** data_cleaner.py, outlier mask *)

Module OutlierMask.

Import DataAnalyzer.

(** A lookup [df[column]] of an absent label raises [KeyError]; the other
    exceptions are those of [Py]. *)
Inductive error : Type :=
| KeyError (key : string)
| PyError (e : Py.exn).

Inductive outcome (A : Type) : Type :=
| Returned (a : A)
| Failed (e : error).

Arguments Returned {A} a.
Arguments Failed {A} e.

Section WithStats.

Context {stats : Stats}.

(** [DataCleaner.detect_outliers]: the mask of the entries outside the
    fences.  A column that is not numeric gives a mask of [False] as long
    as the frame.  The quantiles skip missing entries and are NaN when
    nothing is present; a comparison with NaN, or of a missing entry, is
    false. *)
Definition detect_outliers (df : DataFrame) (column : string) : outcome (list bool) :=
  match get_col df column with
  | None => Failed (KeyError column)
  | Some c =>
    match numeric_values c with
    | None => Returned (repeat false (df_len df))
    | Some vals =>
      match dropna vals with
      | [] => Returned (map (fun _ => false) vals)
      | data =>
        if (match c with BoolCol _ => negb quantile_accepts_bool | _ => false end)
        then Failed (PyError TypeError)
        else
          let Q1 := quantile data (1 # 4) in
          let Q3 := quantile data (3 # 4) in
          let IQR := f64_sub Q3 Q1 in
          let lower_bound := f64_sub Q1 (f64_mul (3 # 2) IQR) in
          let upper_bound := f64_add Q3 (f64_mul (3 # 2) IQR) in
          Returned
            (map (fun v => match v with
                           | Some x => is_outlier lower_bound upper_bound x
                           | None => false
                           end) vals)
      end
    end
  end.

End WithStats.

End OutlierMask.

(** ** data_loader.py, file sizes *)

Module DataLoader.

Inductive size_unit : Type := B | KB | MB | GB | TB.

(** The loop of [format_size] over the units; the result stands for the
    text [f"{size_bytes:.2f} {unit}"]: the size rounded to two decimals
    and the unit. *)
Fixpoint format_size_loop (units : list size_unit) (size_bytes : Q) : Q * size_unit :=
  match units with
  | [] => (Qround_digits size_bytes 2, TB)
  | unit :: rest =>
    if Qltb size_bytes 1024 then (Qround_digits size_bytes 2, unit)
    else format_size_loop rest (size_bytes / 1024)
  end.

Definition format_size (size_bytes : Z) : Q * size_unit :=
  format_size_loop [B; KB; MB; GB] (inject_Z size_bytes).

Definition max_size : Z := 50 * 1024 * 1024.

(** A row of [get_column_info]. *)
Record ColumnInfo : Type := {
  info_column : string;
  info_non_null : nat;      (* df.count() *)
  info_null : nat;          (* df.isnull().sum() *)
  info_null_pct : fval;     (* (null / len(df) * 100).round(2) *)
  info_unique : nat         (* df[col].nunique() *)
}.

(** [get_column_info], without the dtype names.  The percentage is a
    division of pandas series: on a frame without rows it is NaN. *)
Definition get_column_info (df : DataFrame) : list ColumnInfo :=
  map (fun nc =>
         let present :=
           filter (fun x => negb (DataAnalyzer.cell_missing x)) (cells (snd nc)) in
         {| info_column := fst nc;
            info_non_null := length present;
            info_null := isnull_sum (snd nc);
            info_null_pct :=
              fround (fmul (fdiv (Fin (inject_Z (Z.of_nat (isnull_sum (snd nc)))))
                                 (Fin (inject_Z (Z.of_nat (df_len df)))))
                           (Fin 100)) 2;
            info_unique := length (DataAnalyzer.unique_cells_acc [] present) |})
      (df_cols df).

(** [validate_file_size]: false, with an error message shown, for a file
    above 50 MB. *)
Definition validate_file_size (size : Z) : bool :=
  if (size >? max_size)%Z then false else true.

End DataLoader.

(** ** visualizer.py, the grid of histograms *)

Module DataVisualizer.

(** The layout of [plot_multiple_histograms] for a list of columns: the
    number of rows and columns of the grid, and for each column label its
    trace position [(row, col_num)], both counted from one. *)
Record HistogramGrid : Type := {
  grid_rows : nat;
  grid_cols : nat;
  traces : list (string * (nat * nat))
}.

(** What a figure shows; rendering is plotly's. *)
Inductive chart : Type :=
| Histogram (col : string) (nbins : nat)
| Heatmap (labels : list string)
| BarChart (col : string) (bars : list (cell * nat))
| LineChart (x_col y_col : string).

(** [df[col]] of an absent label raises [KeyError]; plotly raises
    [ValueError] for an argument it refuses: the name of a column that is
    not in the frame, or the [rows] of a grid without rows. *)
Inductive viz_error : Type :=
| KeyError (col : string)
| ValueError (col : string).

Inductive outcome (A : Type) : Type :=
| Returned (a : A)
| Failed (e : viz_error).

Arguments Returned {A} a.
Arguments Failed {A} e.

(** The loop of [plot_multiple_histograms] over [enumerate(columns)]:
    [df[col]] is looked up and the trace added at its row and column. *)
Fixpoint add_traces (df : DataFrame) (idx : nat) (columns : list string)
  (fig : list (string * (nat * nat))) : outcome (list (string * (nat * nat))) :=
  match columns with
  | [] => Returned fig
  | col :: rest =>
    match get_col df col with
    | None => Failed (KeyError col)
    | Some _ =>
      let row := idx / 3 + 1 in
      let col_num := idx mod 3 + 1 in
      add_traces df (S idx) rest (fig ++ [(col, (row, col_num))])
    end
  end.

(** [plot_multiple_histograms]: [make_subplots] refuses a grid with no
    row or no column, which is the grid of an empty list. *)
Definition plot_multiple_histograms (df : DataFrame) (columns : list string)
  : outcome HistogramGrid :=
  let n_cols := length columns in
  let rows := (n_cols + 2) / 3 in
  let cols := Nat.min 3 n_cols in
  if (rows <? 1) || (cols <? 1) then Failed (ValueError "rows")
  else
    match add_traces df 0 columns [] with
    | Returned fig => Returned {| grid_rows := rows; grid_cols := cols; traces := fig |}
    | Failed e => Failed e
    end.

(** [d[key] = value] on a dictionary in insertion order. *)
Fixpoint dict_set (key : string) (value : chart) (d : list (string * chart))
  : list (string * chart) :=
  match d with
  | [] => [(key, value)]
  | (k, v) :: rest =>
    if String.eqb k key then (k, value) :: rest
    else (k, v) :: dict_set key value rest
  end.

(** [df[col].nunique()] for a column of any dtype. *)
Definition column_nunique (c : column) : nat :=
  length (DataAnalyzer.unique_cells_acc []
            (filter (fun x => negb (DataAnalyzer.cell_missing x)) (cells c))).

Definition plot_histogram (df : DataFrame) (col : string) (bins : nat) : outcome chart :=
  match get_col df col with
  | Some _ => Returned (Histogram col bins)
  | None => Failed (ValueError col)
  end.

(** [plot_bar_chart]: the [top_n] most frequent values. *)
Definition plot_bar_chart (df : DataFrame) (col : string) (top_n : nat) : outcome chart :=
  match get_col df col with
  | Some c => Returned (BarChart col (firstn top_n (DataAnalyzer.series_value_counts c)))
  | None => Failed (KeyError col)
  end.

(** [plot_correlation_heatmap]: no figure with fewer than two numeric
    columns. *)
Definition plot_correlation_heatmap (df : DataFrame) : option chart :=
  let numeric_cols :=
    map fst (filter (fun nc => DataAnalyzer.is_number_dtype (snd nc)) (df_cols df)) in
  if length numeric_cols <? 2 then None else Some (Heatmap numeric_cols).

Definition plot_line_chart (df : DataFrame) (x_col y_col : string) : outcome chart :=
  match get_col df x_col, get_col df y_col with
  | Some _, Some _ => Returned (LineChart x_col y_col)
  | None, _ => Failed (ValueError x_col)
  | _, None => Failed (ValueError y_col)
  end.

(** The loop over [numeric_cols[:6]]. *)
Fixpoint histogram_loop (df : DataFrame) (cols : list string)
  (visualizations : list (string * chart)) : outcome (list (string * chart)) :=
  match cols with
  | [] => Returned visualizations
  | col :: rest =>
    match plot_histogram df col 30 with
    | Returned fig =>
      histogram_loop df rest (dict_set ("hist_" ++ col)%string fig visualizations)
    | Failed e => Failed e
    end
  end.

(** The loop over [categorical_cols[:4]]. *)
Fixpoint bar_loop (df : DataFrame) (cols : list string)
  (visualizations : list (string * chart)) : outcome (list (string * chart)) :=
  match cols with
  | [] => Returned visualizations
  | col :: rest =>
    match get_col df col with
    | None => Failed (KeyError col)
    | Some c =>
      if column_nunique c <=? 20 then
        match plot_bar_chart df col 10 with
        | Returned fig =>
          bar_loop df rest (dict_set ("bar_" ++ col)%string fig visualizations)
        | Failed e => Failed e
        end
      else bar_loop df rest visualizations
    end
  end.

Definition create_auto_visualizations (df : DataFrame)
  (column_types : DataCleaner.ColumnTypes) : outcome (list (string * chart)) :=
  let visualizations := [] in
  let numeric_cols := DataCleaner.numeric column_types in
  match
    match numeric_cols with
    | [] => Returned visualizations
    | _ =>
      match histogram_loop df (firstn 6 numeric_cols) visualizations with
      | Returned visualizations =>
        if 2 <=? length numeric_cols then
          match plot_correlation_heatmap df with
          | Some heatmap =>
            Returned (dict_set "correlation_heatmap"%string heatmap visualizations)
          | None => Returned visualizations
          end
        else Returned visualizations
      | Failed e => Failed e
      end
    end
  with
  | Failed e => Failed e
  | Returned visualizations =>
    let categorical_cols := DataCleaner.categorical column_types in
    match bar_loop df (firstn 4 categorical_cols) visualizations with
    | Failed e => Failed e
    | Returned visualizations =>
      let datetime_cols := DataCleaner.datetime column_types in
      match datetime_cols, numeric_cols with
      | d :: _, n :: _ =>
        match plot_line_chart df d n with
        | Returned fig => Returned (dict_set "time_series"%string fig visualizations)
        | Failed e => Failed e
        end
      | _, _ => Returned visualizations
      end
    end
  end.

End DataVisualizer.

(** * Vocabulary of the statements *)

(** No column holds a missing entry. *)
Definition no_missing (df : DataFrame) : bool :=
  forallb (fun nc => isnull_sum (snd nc) =? 0) (df_cols df).

(** A column with rows, all of them missing. *)
Definition entirely_missing (c : column) : bool :=
  (0 <? col_len c) && (isnull_sum c =? col_len c).

(** The columns the imputation step has a strategy and a fill value for:
    object columns, and numeric columns that are not entirely missing. *)
Definition imputed (c : column) : bool :=
  is_object_dtype c || (is_numeric_dtype c && negb (entirely_missing c)).

(** The imputation of a column in the words of the specification: the
    median for a float column that has one, the mode for an object column,
    "Unknown" for an object column without a mode. *)
Definition imputation_of (c : column) : column :=
  match c with
  | FloatCol w vals =>
    match median vals with
    | Some m => FloatCol w (fillna m vals)
    | None => c
    end
  | ObjectCol vals => ObjectCol (fillna (hd "Unknown"%string (mode vals)) vals)
  | _ => c
  end.

(** The signed range of a width contains both extremes, limits included. *)
Definition bounds (w : int_width) (c_min c_max : Z) : bool :=
  (DataCleaner.iinfo_min w <=? c_min)%Z && (c_max <=? DataCleaner.iinfo_max w)%Z.

(** The signed range of a width contains both extremes strictly inside. *)
Definition bounds_strictly (w : int_width) (c_min c_max : Z) : bool :=
  (DataCleaner.iinfo_min w <? c_min)%Z && (c_max <? DataCleaner.iinfo_max w)%Z.

(** The smallest width among 8, 16 and 32 bits whose range bounds the
    extremes, 64 bits when none does: the narrowing rule in the words of
    the specification. *)
Definition smallest_bounding_width (c_min c_max : Z) : int_width :=
  if bounds W8 c_min c_max then W8
  else if bounds W16 c_min c_max then W16
  else if bounds W32 c_min c_max then W32
  else W64.

(** The category lists of a classification, side by side. *)
Definition classified (t : DataCleaner.ColumnTypes) : list string :=
  DataCleaner.numeric t ++ DataCleaner.categorical t
  ++ DataCleaner.datetime t ++ DataCleaner.text t.

(** The present values [distribution_analysis] works on: those of a
    numeric column of the table. *)
Definition column_data (df : DataFrame) (column : string) : option (list Q) :=
  match get_col df column with
  | Some c => option_map dropna (DataAnalyzer.numeric_values c)
  | None => None
  end.

(** The mean of a row of descriptive statistics is zero. *)
Definition zero_mean (r : DataAnalyzer.DescriptiveRow) : bool :=
  match DataAnalyzer.d_mean r with
  | Fin m => Qeq_bool m 0
  | _ => false
  end.

(** The four categories, and the one the classifier's rules give a column
    of a table with [len_df] rows: numeric storage is numeric; an object
    column is datetime when it parses as dates, else categorical when its
    distinct values are fewer than a twentieth of the rows or fewer than
    twenty, else text.  Category and datetime64 storage fall under no
    rule. *)
Inductive category : Type := Numeric | Categorical | Datetime | Text.

Definition classify {pandas : Pandas} (len_df : nat) (c : column) : option category :=
  match c with
  | IntCol _ _ | FloatCol _ _ | BoolCol _ => Some Numeric
  | ObjectCol vals =>
    if to_datetime_ok vals then Some Datetime
    else if Qltb (Z.of_nat (nunique vals) # Pos.of_nat len_df) (5 # 100)
            || (nunique vals <? 20)
    then Some Categorical
    else Some Text
  | CategoryCol _ | DatetimeCol _ => None
  end.

Definition category_eqb (a b : category) : bool :=
  match a, b with
  | Numeric, Numeric | Categorical, Categorical
  | Datetime, Datetime | Text, Text => true
  | _, _ => false
  end.

(** The labels of the columns of a category, in column order. *)
Definition labels_among {pandas : Pandas} (k : category) (len_df : nat)
  (cols : list (string * column)) : list string :=
  map fst
    (filter (fun nc => match classify len_df (snd nc) with
                       | Some k' => category_eqb k k'
                       | None => false
                       end)
            cols).

Definition labels_of {pandas : Pandas} (k : category) (df : DataFrame) : list string :=
  labels_among k (df_len df) (df_cols df).

(** ** The insight list in the words of the specification *)

Module InsightRules.

Import DataAnalyzer.

Section WithStats.

Context {stats : Stats}.



(** A boolean column with at least three values, on a pandas that
    refuses the quantiles of booleans. *)
Definition quantile_refused (df : DataFrame) (col : string) : bool :=
  match get_col df col with
  | Some (BoolCol v) => negb quantile_accepts_bool && (3 <=? length v)
  | _ => false
  end.




(** The pairs of a list, each once, the first component before the
    second: [(i, j)] with [i < j], by [i] and then by [j]. *)
Fixpoint pairs_in_order {A : Type} (l : list A) : list (A * A) :=
  match l with
  | [] => []
  | x :: l' => map (pair x) l' ++ pairs_in_order l'
  end.

Definition strong_pair (p : (string * list (option Q)) * (string * list (option Q)))
  : bool :=
  fgt (fabs (pearson (snd (fst p)) (snd (snd p)))) (7 # 10).

Definition strong_pairs (cols : list (string * list (option Q)))
  : list StrongCorrelation :=
  map (fun p => {| var1 := fst (fst p); var2 := fst (snd p);
                   correlation := fround (pearson (snd (fst p)) (snd (snd p))) 3 |})
      (filter strong_pair (pairs_in_order cols)).

End WithStats.

End InsightRules.

(** The rows of a list of columns of [n] entries each. *)
Definition rows_of (css : list (list cell)) (n : nat) : list row :=
  map (fun i => map (fun cs => nth_error cs i) css) (seq 0 n).

(** What imputation makes of an entry of a column. *)
Definition fill_cell (c : column) (x : cell) : cell :=
  match c, x with
  | FloatCol _ vals, VFloat None =>
    match median vals with
    | Some m => VFloat (Some m)
    | None => x
    end
  | ObjectCol vals, VStr None => VStr (Some (hd "Unknown"%string (mode vals)))
  | _, _ => x
  end.

(** The labels of a strong pair. *)
Definition pair_labels (c : DataAnalyzer.StrongCorrelation) : string * string :=
  (DataAnalyzer.var1 c, DataAnalyzer.var2 c).

(** The order of value counts: the larger count first. *)
Definition by_count_desc (a b : cell * nat) : Prop := snd b <= snd a.

(** The traces of a histogram grid: the labels in order, label number
    [idx] (from zero) in row [idx / 3 + 1] and column [idx mod 3 + 1]. *)
Fixpoint place_traces (idx : nat) (columns : list string) : list (string * (nat * nat)) :=
  match columns with
  | [] => []
  | col :: rest => (col, (idx / 3 + 1, idx mod 3 + 1)) :: place_traces (S idx) rest
  end.

(** What an automatic visualization can be, given the type lists. *)
Definition expected_chart (df : DataFrame) (t : DataCleaner.ColumnTypes)
  (k : string) (v : DataVisualizer.chart) : Prop :=
  (exists col, In col (firstn 6 (DataCleaner.numeric t)) /\ In col (columns df) /\
               k = ("hist_" ++ col)%string /\ v = DataVisualizer.Histogram col 30) \/
  (k = "correlation_heatmap"%string /\ 2 <= length (DataCleaner.numeric t) /\
   exists labels, v = DataVisualizer.Heatmap labels /\ 2 <= length labels /\
                  labels = map fst (filter (fun nc => DataAnalyzer.is_number_dtype (snd nc))
                                           (df_cols df))) \/
  (exists col c, In col (firstn 4 (DataCleaner.categorical t)) /\
                 get_col df col = Some c /\ DataVisualizer.column_nunique c <= 20 /\
                 k = ("bar_" ++ col)%string /\
                 v = DataVisualizer.BarChart col (firstn 10 (DataAnalyzer.series_value_counts c))) \/
  (k = "time_series"%string /\
   exists d n, hd_error (DataCleaner.datetime t) = Some d /\
               hd_error (DataCleaner.numeric t) = Some n /\ v = DataVisualizer.LineChart d n).

(** ** Tables used in examples *)

Module Tables.

Local Open Scope string_scope.
Local Open Scope Z_scope.

(** A float column with one gap among the values 1 to 8. *)
Definition readings : DataFrame :=
  mkDataFrame 9
    [("x", FloatCol F64 [Some 1%Q; Some 2%Q; Some 3%Q; Some 4%Q; None;
                         Some 5%Q; Some 6%Q; Some 7%Q; Some 8%Q])].

(** A datetime64 column with a NaT. *)
Definition events : DataFrame :=
  mkDataFrame 2 [("when", DatetimeCol [Some 1700000000; None])].

(** A float column that is entirely missing, next to a key. *)
Definition blank_measure : DataFrame :=
  mkDataFrame 2 [("id", IntCol W64 [1; 2]); ("m", FloatCol F64 [None; None])].

(** A present value and a gap: distinct rows that imputation makes equal. *)
Definition one_gap : DataFrame :=
  mkDataFrame 2 [("x", FloatCol F64 [Some 1%Q; None])].

(** A key and a city that repeats. *)
Definition shops : DataFrame :=
  mkDataFrame 3
    [("id", IntCol W64 [1; 2; 3]);
     ("city", ObjectCol [Some "a"; Some "a"; Some "a"])].

(** A key and a city with a dominant value. *)
Definition branches : DataFrame :=
  mkDataFrame 5
    [("id", IntCol W64 [1; 2; 3; 4; 5]);
     ("city", ObjectCol [Some "a"; Some "a"; Some "a"; Some "b"; Some "b"])].

(** An object column of a table without rows. *)
Definition no_rows : DataFrame :=
  mkDataFrame 0 [("note", ObjectCol [])].

(** An integer column whose maximum is the largest int8. *)
Definition at_limit : DataFrame :=
  mkDataFrame 2 [("level", IntCol W64 [5; 127])].

Definition ages : DataFrame :=
  mkDataFrame 6 [("age", IntCol W64 [10; 12; 11; 13; 10; 1000])].

Definition line : DataFrame :=
  mkDataFrame 5
    [("x", IntCol W64 [1; 2; 3; 4; 5]); ("y", IntCol W64 [2; 4; 6; 8; 10])].

(** A column with mean zero and standard deviation three. *)
Definition balanced : DataFrame :=
  mkDataFrame 3 [("z", IntCol W64 [-3; 0; 3])].

Definition towns : DataFrame :=
  mkDataFrame 5
    [("city", ObjectCol [Some "a"; Some "b"; Some "a"; Some "a"; Some "c"])].

(** The floats 0.0, 0.1, 0.5, 1.3 and 3.1: the largest lies on the upper
    fence of exact arithmetic and above the fence the floats give. *)
Definition margins : DataFrame :=
  mkDataFrame 5
    [("margin", FloatCol F64
                  (map (fun q => Some (binary64_round q))
                       [0; 1 # 10; 1 # 2; 13 # 10; 31 # 10]%Q))].



Definition ledger : DataFrame :=
  mkDataFrame 12
    [("units", IntCol W64 [1; 2; 3; 4; 5; 6; 7; 8; 9; 10; 11; 12]);
     ("region", ObjectCol [Some "north"; Some "north"; Some "north"; Some "north";
                           Some "north"; Some "north"; Some "north"; Some "south";
                           Some "south"; Some "east"; Some "east"; Some "west"]);
     ("revenue", IntCol W64 [1; 1; 1; 1; 1; 1; 1; 1; 1; 1; 1; 100]);
     ("refund", IntCol W64 [1; 1; 1; 1; 1; 1; 1; 1; 1; 1; 1; -100]);
     ("channel", ObjectCol [Some "web"; Some "web"; Some "web"; Some "web";
                            Some "web"; Some "web"; Some "shop"; Some "shop";
                            Some "shop"; Some "phone"; Some "phone"; Some "phone"]);
     ("rating", FloatCol F64 [Some 4%Q; None; None; None; None; None;
                              None; None; None; None; None; None]);
     ("stock", IntCol W64 [2; 4; 6; 8; 10; 12; 14; 16; 18; 20; 22; 24]);
     ("tier", ObjectCol [Some "gold"; Some "gold"; Some "gold"; Some "gold";
                         Some "gold"; Some "gold"; Some "gold"; Some "gold";
                         Some "gold"; Some "gold"; Some "gold"; Some "gold"]);
     ("weight", IntCol W64 [1; 1; 1; 1; 1; 1; 1; 1; 1; 1; 1; 50]);
     ("agent", ObjectCol [Some "ann"; Some "ann"; Some "ann"; Some "ann";
                          Some "ann"; Some "ann"; Some "ann"; Some "ann";
                          Some "ann"; Some "bob"; Some "bob"; Some "bob"])].

End Tables.

(** * Basic facts *)

Lemma Qltb_iff (x y : Q) : Qltb x y = true <-> (x < y)%Q.
Proof.
  unfold Qltb. rewrite negb_true_iff. split.
  - intros H. apply Qnot_le_lt. intros Hle.
    apply Qle_bool_iff in Hle. congruence.
  - intros H. destruct (Qle_bool y x) eqn:E; [|reflexivity].
    apply Qle_bool_iff in E. exfalso. exact (Qlt_not_le _ _ H E).
Qed.

Lemma wfb_wf (df : DataFrame) : wfb df = true -> wf df.
Proof.
  unfold wfb, wf. rewrite forallb_forall, Forall_forall.
  intros H x Hx. apply Nat.eqb_eq. auto.
Qed.

(** * float64 rounding *)

Lemma Qltb_false_iff (x y : Q) : Qltb x y = false <-> (y <= x)%Q.
Proof.
  rewrite <- not_true_iff_false, Qltb_iff. split.
  - apply Qnot_lt_le.
  - intros H Hlt. apply (Qlt_not_le _ _ Hlt H).
Qed.

Lemma Qround_half_even_between (a b : Z) (q : Q) :
  (inject_Z a <= q)%Q -> (q <= inject_Z b)%Q ->
  (a <= Qround_half_even q <= b)%Z.
Proof.
  intros Ha Hb.
  assert (Hfa : (a <= Qfloor q)%Z).
  { rewrite <- (Qfloor_Z a). apply Qfloor_resp_le. exact Ha. }
  assert (Hfb : (Qfloor q <= b)%Z).
  { rewrite <- (Qfloor_Z b). apply Qfloor_resp_le. exact Hb. }
  assert (Hup : (inject_Z (Qfloor q) < q)%Q -> (Qfloor q + 1 <= b)%Z).
  { intros Hlt. assert (H : (inject_Z (Qfloor q) < inject_Z b)%Q) by lra.
    rewrite <- Zlt_Qlt in H. lia. }
  unfold Qround_half_even.
  destruct (Qltb (q - inject_Z (Qfloor q)) (1 # 2)) eqn:E1; [lia|].
  assert (Hr : (inject_Z (Qfloor q) < q)%Q).
  { apply not_true_iff_false in E1. rewrite Qltb_iff in E1.
    apply Qnot_lt_le in E1. lra. }
  specialize (Hup Hr).
  destruct (Qltb (1 # 2) (q - inject_Z (Qfloor q))); [lia|].
  destruct (Z.even (Qfloor q)); lia.
Qed.

(** Rounding to the nearest integer is monotone. *)
Lemma Qround_half_even_mono (x y : Q) :
  (x <= y)%Q -> (Qround_half_even x <= Qround_half_even y)%Z.
Proof.
  intros Hxy.
  pose proof (Qfloor_resp_le x y Hxy) as Hf.
  destruct (Z.eq_dec (Qfloor x) (Qfloor y)) as [He|Hne].
  - unfold Qround_half_even. rewrite He.
    destruct (Qltb (x - inject_Z (Qfloor y)) (1 # 2)) eqn:Ex.
    + destruct (Qltb (y - inject_Z (Qfloor y)) (1 # 2)); [lia|].
      destruct (Qltb (1 # 2) (y - inject_Z (Qfloor y))); [lia|].
      destruct (Z.even (Qfloor y)); lia.
    + apply Qltb_false_iff in Ex.
      destruct (Qltb (y - inject_Z (Qfloor y)) (1 # 2)) eqn:Ey.
      { apply Qltb_iff in Ey. lra. }
      destruct (Qltb (1 # 2) (x - inject_Z (Qfloor y))) eqn:Ex'.
      { apply Qltb_iff in Ex'.
        assert (Hy : Qltb (1 # 2) (y - inject_Z (Qfloor y)) = true)
          by (apply Qltb_iff; lra).
        rewrite Hy. lia. }
      destruct (Qltb (1 # 2) (y - inject_Z (Qfloor y))).
      { destruct (Z.even (Qfloor y)); lia. }
      lia.
  - assert (Hlt : (Qfloor x + 1 <= Qfloor y)%Z) by lia.
    assert (Hx : (Qround_half_even x <= Qfloor x + 1)%Z).
    { apply Qround_half_even_between with (a := Qfloor x).
      - apply Qfloor_le.
      - apply Qlt_le_weak, Qlt_floor. }
    assert (Hy : (Qfloor y <= Qround_half_even y)%Z).
    { apply Qround_half_even_between with (b := (Qfloor y + 1)%Z).
      - apply Qfloor_le.
      - apply Qlt_le_weak, Qlt_floor. }
    lia.
Qed.

Lemma Qpow2_power (e : Z) : (Qpow2 e == 2 ^ e)%Q.
Proof.
  unfold Qpow2. destruct (Z.leb_spec 0 e) as [H|H].
  - apply Zpower_Qpower. exact H.
  - rewrite Zpower_Qpower by lia.
    rewrite <- (Z.opp_involutive e) at 2.
    rewrite (Qpower_opp 2 (- e)).
    change (inject_Z 2) with 2%Q. unfold Qdiv. apply Qmult_1_l.
Qed.

Lemma Qpow2_pos (e : Z) : (0 < Qpow2 e)%Q.
Proof. rewrite Qpow2_power. apply Qpower_0_lt. reflexivity. Qed.

Lemma Qpow2_le (a b : Z) : (a <= b)%Z -> (Qpow2 a <= Qpow2 b)%Q.
Proof.
  intros H. rewrite !Qpow2_power. apply Qpower_le_compat_l; [exact H|].
  discriminate.
Qed.

Lemma Qpow2_add (a b : Z) : (Qpow2 (a + b) == Qpow2 a * Qpow2 b)%Q.
Proof. rewrite !Qpow2_power. apply Qpower_plus. discriminate. Qed.

Lemma Qpow2_lt_inv (a b : Z) : (Qpow2 a < Qpow2 b)%Q -> (a < b)%Z.
Proof.
  rewrite !Qpow2_power. intros H.
  apply (Qpower_lt_compat_l_inv 2); [exact H|reflexivity].
Qed.

(** The exponent brackets a positive rational. *)
Lemma Qlog2_spec (q : Q) :
  (0 < q)%Q -> (Qpow2 (Qlog2 q) <= q)%Q /\ (q < Qpow2 (Qlog2 q + 1))%Q.
Proof.
  intros Hq. destruct q as [n d].
  assert (Hn : (0 < n)%Z).
  { unfold Qlt in Hq. simpl in Hq. lia. }
  unfold Qlog2. cbn [Qnum Qden].
  rewrite (Z.abs_eq n) by lia.
  rewrite (Qabs_pos (n # d)) by (apply Qlt_le_weak; exact Hq).
  pose proof (Z.log2_spec n Hn) as [Hn1 Hn2].
  pose proof (Z.log2_spec (Zpos d) (Pos2Z.is_pos d)) as [Hd1 Hd2].
  pose proof (Z.log2_nonneg n) as Hln.
  pose proof (Z.log2_nonneg (Zpos d)) as Hld.
  set (ln := Z.log2 n) in *. set (ld := Z.log2 (Zpos d)) in *.
  assert (Hq' : (n # d == inject_Z n / inject_Z (Zpos d))%Q).
  { rewrite (Qmake_Qdiv n d). reflexivity. }
  assert (Hdpos : (0 < inject_Z (Zpos d))%Q) by reflexivity.
  assert (Pn1 : (Qpow2 ln <= inject_Z n)%Q).
  { unfold Qpow2. destruct (Z.leb_spec 0 ln); [|lia].
    rewrite <- Zle_Qle. exact Hn1. }
  assert (Pn2 : (inject_Z n < Qpow2 (ln + 1))%Q).
  { unfold Qpow2. destruct (Z.leb_spec 0 (ln + 1)); [|lia].
    rewrite <- Zlt_Qlt. replace (ln + 1)%Z with (Z.succ ln) by lia. exact Hn2. }
  assert (Pd1 : (Qpow2 ld <= inject_Z (Zpos d))%Q).
  { unfold Qpow2. destruct (Z.leb_spec 0 ld); [|lia].
    rewrite <- Zle_Qle. exact Hd1. }
  assert (Pd2 : (inject_Z (Zpos d) < Qpow2 (ld + 1))%Q).
  { unfold Qpow2. destruct (Z.leb_spec 0 (ld + 1)); [|lia].
    rewrite <- Zlt_Qlt. replace (ld + 1)%Z with (Z.succ ld) by lia. exact Hd2. }
  assert (Hlow : (Qpow2 (ln - ld - 1) <= n # d)%Q).
  { rewrite Hq'. apply Qle_shift_div_l; [exact Hdpos|].
    apply Qle_trans with (Qpow2 (ln - ld - 1) * Qpow2 (ld + 1))%Q.
    - apply Qmult_le_l; [apply Qpow2_pos|]. apply Qlt_le_weak. exact Pd2.
    - rewrite <- Qpow2_add. replace (ln - ld - 1 + (ld + 1))%Z with ln by lia.
      exact Pn1. }
  assert (Hhigh : (n # d < Qpow2 (ln - ld + 1))%Q).
  { rewrite Hq'. apply Qlt_shift_div_r; [exact Hdpos|].
    apply Qlt_le_trans with (Qpow2 (ln + 1)); [exact Pn2|].
    replace (ln + 1)%Z with (ln - ld + 1 + ld)%Z by lia.
    rewrite Qpow2_add. apply Qmult_le_l; [apply Qpow2_pos|]. exact Pd1. }
  destruct (Qle_bool (Qpow2 (ln - ld)) (n # d)) eqn:E.
  - apply Qle_bool_iff in E. split; assumption.
  - split; [exact Hlow|].
    replace (ln - ld - 1 + 1)%Z with (ln - ld)%Z by lia.
    apply Qnot_le_lt. intros H. apply Qle_bool_iff in H. congruence.
Qed.

Lemma Qlog2_mono (a b : Q) :
  (0 < a)%Q -> (a <= b)%Q -> (Qlog2 a <= Qlog2 b)%Z.
Proof.
  intros Ha Hab.
  destruct (Qlog2_spec a Ha) as [Ha1 _].
  destruct (Qlog2_spec b) as [_ Hb2]; [lra|].
  assert (H : (Qpow2 (Qlog2 a) < Qpow2 (Qlog2 b + 1))%Q) by lra.
  apply Qpow2_lt_inv in H. lia.
Qed.

(** The scaled significand lies between [2 ^ 52] and [2 ^ 53]. *)
Lemma significand_range (q : Q) :
  (0 < q)%Q ->
  (inject_Z (2 ^ 52) <= q / Qpow2 (Qlog2 q - 52))%Q /\
  (q / Qpow2 (Qlog2 q - 52) <= inject_Z (2 ^ 53))%Q.
Proof.
  intros Hq. destruct (Qlog2_spec q Hq) as [H1 H2].
  pose proof (Qpow2_pos (Qlog2 q - 52)) as Hp.
  assert (E1 : (Qpow2 (Qlog2 q) == inject_Z (2 ^ 52) * Qpow2 (Qlog2 q - 52))%Q).
  { replace (Qlog2 q) with (52 + (Qlog2 q - 52))%Z at 1 by lia.
    rewrite Qpow2_add. reflexivity. }
  assert (E2 : (Qpow2 (Qlog2 q + 1) == inject_Z (2 ^ 53) * Qpow2 (Qlog2 q - 52))%Q).
  { replace (Qlog2 q + 1)%Z with (53 + (Qlog2 q - 52))%Z by lia.
    rewrite Qpow2_add. reflexivity. }
  split.
  - apply Qle_shift_div_l; [exact Hp|]. rewrite <- E1. exact H1.
  - apply Qle_shift_div_r; [exact Hp|]. rewrite <- E2. apply Qlt_le_weak. exact H2.
Qed.

Lemma round_significand_eq (q : Q) :
  (round_significand q
   == inject_Z (Qround_half_even (q / Qpow2 (Qlog2 q - 52))) * Qpow2 (Qlog2 q - 52))%Q.
Proof. unfold round_significand. apply Qred_correct. Qed.

Lemma round_significand_bounds (q : Q) :
  (0 < q)%Q ->
  (Qpow2 (Qlog2 q) <= round_significand q)%Q /\
  (round_significand q <= Qpow2 (Qlog2 q + 1))%Q.
Proof.
  intros Hq. rewrite round_significand_eq.
  destruct (significand_range q Hq) as [H1 H2].
  destruct (Qround_half_even_between _ _ _ H1 H2) as [R1 R2].
  pose proof (Qpow2_pos (Qlog2 q - 52)) as Hp.
  rewrite Zle_Qle in R1, R2.
  split.
  - replace (Qlog2 q) with (52 + (Qlog2 q - 52))%Z at 1 by lia.
    rewrite Qpow2_add. apply Qmult_le_compat_r; [exact R1|].
    apply Qlt_le_weak. exact Hp.
  - replace (Qlog2 q + 1)%Z with (53 + (Qlog2 q - 52))%Z by lia.
    rewrite Qpow2_add. apply Qmult_le_compat_r; [exact R2|].
    apply Qlt_le_weak. exact Hp.
Qed.

Lemma round_significand_pos (q : Q) : (0 < q)%Q -> (0 < round_significand q)%Q.
Proof.
  intros Hq. destruct (round_significand_bounds q Hq) as [H _].
  pose proof (Qpow2_pos (Qlog2 q)). lra.
Qed.

Lemma round_significand_mono (a b : Q) :
  (0 < a)%Q -> (a <= b)%Q -> (round_significand a <= round_significand b)%Q.
Proof.
  intros Ha Hab.
  assert (Hb : (0 < b)%Q) by lra.
  pose proof (Qlog2_mono a b Ha Hab) as He.
  destruct (Z.eq_dec (Qlog2 a) (Qlog2 b)) as [E|NE].
  - rewrite !round_significand_eq, E.
    pose proof (Qpow2_pos (Qlog2 b - 52)) as Hp.
    apply Qmult_le_compat_r; [|apply Qlt_le_weak; exact Hp].
    rewrite <- Zle_Qle. apply Qround_half_even_mono.
    apply Qmult_le_compat_r; [exact Hab|].
    apply Qlt_le_weak, Qinv_lt_0_compat. exact Hp.
  - destruct (round_significand_bounds a Ha) as [_ H1].
    destruct (round_significand_bounds b Hb) as [H2 _].
    assert (H3 : (Qpow2 (Qlog2 a + 1) <= Qpow2 (Qlog2 b))%Q)
      by (apply Qpow2_le; lia).
    lra.
Qed.

Lemma binary64_round_zero (q : Q) : (q == 0)%Q -> binary64_round q = 0%Q.
Proof.
  intros H. unfold binary64_round.
  apply Qeq_bool_iff in H. rewrite H. reflexivity.
Qed.

Lemma binary64_round_nonneg (q : Q) : (0 <= q)%Q -> (0 <= binary64_round q)%Q.
Proof.
  intros H. unfold binary64_round.
  destruct (Qeq_bool q 0) eqn:E; [apply Qle_refl|].
  apply Qeq_bool_neq in E.
  assert (Hq : (0 < q)%Q).
  { apply Qle_lteq in H. destruct H as [H|H]; [exact H|]. symmetry in H. contradiction. }
  assert (Hn : Qltb q 0 = false) by (apply Qltb_false_iff; exact H).
  rewrite Hn. apply Qlt_le_weak, round_significand_pos. exact Hq.
Qed.

Lemma binary64_round_nonpos (q : Q) : (q <= 0)%Q -> (binary64_round q <= 0)%Q.
Proof.
  intros H. unfold binary64_round.
  destruct (Qeq_bool q 0) eqn:E; [apply Qle_refl|].
  apply Qeq_bool_neq in E.
  assert (Hq : (q < 0)%Q).
  { apply Qle_lteq in H. destruct H as [H|H]; [exact H|]. contradiction. }
  assert (Hn : Qltb q 0 = true) by (apply Qltb_iff; exact Hq).
  rewrite Hn.
  assert (H0 : (0 < round_significand (- q))%Q) by (apply round_significand_pos; lra).
  lra.
Qed.

(** Rounding to float64 is monotone. *)
Lemma binary64_round_mono (a b : Q) :
  (a <= b)%Q -> (binary64_round a <= binary64_round b)%Q.
Proof.
  intros Hab.
  destruct (Qlt_le_dec 0 a) as [Ha|Ha].
  - assert (Hb : (0 < b)%Q) by lra.
    unfold binary64_round.
    assert (Ea : Qeq_bool a 0 = false).
    { apply not_true_iff_false. intros E. apply Qeq_bool_iff in E. lra. }
    assert (Eb : Qeq_bool b 0 = false).
    { apply not_true_iff_false. intros E. apply Qeq_bool_iff in E. lra. }
    assert (Na : Qltb a 0 = false) by (apply Qltb_false_iff; lra).
    assert (Nb : Qltb b 0 = false) by (apply Qltb_false_iff; lra).
    rewrite Ea, Eb, Na, Nb. apply round_significand_mono; assumption.
  - destruct (Qlt_le_dec b 0) as [Hb|Hb].
    + assert (Ha' : (a < 0)%Q) by lra.
      unfold binary64_round.
      assert (Ea : Qeq_bool a 0 = false).
      { apply not_true_iff_false. intros E. apply Qeq_bool_iff in E. lra. }
      assert (Eb : Qeq_bool b 0 = false).
      { apply not_true_iff_false. intros E. apply Qeq_bool_iff in E. lra. }
      assert (Na : Qltb a 0 = true) by (apply Qltb_iff; lra).
      assert (Nb : Qltb b 0 = true) by (apply Qltb_iff; lra).
      rewrite Ea, Eb, Na, Nb.
      assert (H : (round_significand (- b) <= round_significand (- a))%Q)
        by (apply round_significand_mono; lra).
      lra.
    + pose proof (binary64_round_nonpos a Ha).
      pose proof (binary64_round_nonneg b Hb). lra.
Qed.

Lemma binary64_round_1 : binary64_round 1 = 1%Q.
Proof. reflexivity. Qed.

Lemma binary64_round_100 : binary64_round 100 = 100%Q.
Proof. reflexivity. Qed.

Lemma binary64_round_10000 : binary64_round 10000 = 10000%Q.
Proof. reflexivity. Qed.

(** The float [k / n * 100] of a part [k] of [n] lies between 0 and
    100. *)
Lemma float_percentage (k n : nat) :
  0 < n -> k <= n ->
  let x := f64_mul (f64_div (inject_Z (Z.of_nat k)) (inject_Z (Z.of_nat n))) 100 in
  (0 <= x)%Q /\ (x <= 100)%Q.
Proof.
  intros Hn Hk.
  assert (Hn' : (0 < inject_Z (Z.of_nat n))%Q).
  { change 0%Q with (inject_Z 0). rewrite <- Zlt_Qlt. lia. }
  assert (Hk0 : (0 <= inject_Z (Z.of_nat k))%Q).
  { change 0%Q with (inject_Z 0). rewrite <- Zle_Qle. lia. }
  assert (Hkn : (inject_Z (Z.of_nat k) <= inject_Z (Z.of_nat n))%Q).
  { rewrite <- Zle_Qle. lia. }
  assert (Hr0 : (0 <= inject_Z (Z.of_nat k) / inject_Z (Z.of_nat n))%Q).
  { apply Qle_shift_div_l; [exact Hn'|]. lra. }
  assert (Hr1 : (inject_Z (Z.of_nat k) / inject_Z (Z.of_nat n) <= 1)%Q).
  { apply Qle_shift_div_r; [exact Hn'|]. lra. }
  unfold f64_mul, f64_div.
  pose proof (binary64_round_nonneg _ Hr0) as Hd0.
  pose proof (binary64_round_mono _ _ Hr1) as Hd1.
  rewrite binary64_round_1 in Hd1.
  remember (binary64_round (inject_Z (Z.of_nat k) / inject_Z (Z.of_nat n))) as r eqn:Er.
  clear - Hd0 Hd1. cbv zeta. split.
  - apply binary64_round_nonneg. lra.
  - apply Qle_trans with (binary64_round 100).
    + apply binary64_round_mono. lra.
    + rewrite binary64_round_100. apply Qle_refl.
Qed.

Lemma np_round_percent (q : Q) :
  (0 <= q)%Q -> (q <= 100)%Q ->
  (0 <= np_round q 2)%Q /\ (np_round q 2 <= 100)%Q.
Proof.
  intros H0 H1. unfold np_round, f64_mul.
  change (inject_Z (10 ^ Z.of_nat 2)) with 100%Q.
  assert (Hs0 : (0 <= binary64_round (q * 100))%Q).
  { apply binary64_round_nonneg. lra. }
  assert (Hs1 : (binary64_round (q * 100) <= 10000)%Q).
  { apply Qle_trans with (binary64_round 10000).
    - apply binary64_round_mono. lra.
    - rewrite binary64_round_10000. apply Qle_refl. }
  destruct (Qround_half_even_between 0 10000 (binary64_round (q * 100))) as [Ha Hb].
  - exact Hs0.
  - exact Hs1.
  - rewrite Zle_Qle in Ha, Hb.
    change (inject_Z 0) with 0%Q in Ha. change (inject_Z 10000) with 10000%Q in Hb.
    remember (inject_Z (Qround_half_even (binary64_round (q * 100)))) as r eqn:Er.
    clear Er. split.
    + apply Qle_shift_div_l; [reflexivity|]. lra.
    + apply Qle_shift_div_r; [reflexivity|]. lra.
Qed.

(** The percentage [round(k / n * 100, 2)] of numpy floats. *)
Lemma np_percentage (k n : nat) :
  0 < n -> k <= n ->
  let pct := np_round (f64_mul (f64_div (inject_Z (Z.of_nat k))
                                        (inject_Z (Z.of_nat n))) 100) 2 in
  (0 <= pct)%Q /\ (pct <= 100)%Q.
Proof.
  intros Hn Hk. cbv zeta.
  destruct (float_percentage k n Hn Hk) as [H0 H1].
  apply np_round_percent; assumption.
Qed.

(** * Properties of the cleaning engine *)

Module CleanerFacts.

Import DataCleaner.

(** ** Lists, masks and missing entries *)

Lemma count_none_fillna {A : Type} (a : A) (l : list (option A)) :
  count_none (fillna a l) = 0.
Proof.
  unfold count_none, fillna. induction l as [|[x|] l IH]; simpl; auto.
Qed.

Lemma fillna_length {A : Type} (a : A) (l : list (option A)) :
  length (fillna a l) = length l.
Proof. unfold fillna. apply length_map. Qed.

Lemma fillna_present {A : Type} (a : A) (l : list (option A)) :
  count_none l = 0 -> fillna a l = l.
Proof.
  unfold count_none, fillna. induction l as [|[x|] l IH]; simpl; intros H.
  - reflexivity.
  - f_equal. auto.
  - discriminate.
Qed.

Lemma dropna_nil_iff {A : Type} (l : list (option A)) :
  dropna l = [] <-> count_none l = length l.
Proof.
  unfold count_none. induction l as [|[x|] l IH]; simpl.
  - tauto.
  - split; [discriminate|]. intros H.
    pose proof (filter_length_le is_none l). lia.
  - rewrite IH. lia.
Qed.

Lemma count_none_drop_marked {A : Type} (mask : list bool) (l : list (option A)) :
  count_none (drop_marked mask l) <= count_none l.
Proof.
  unfold count_none. revert l.
  induction mask as [|b mask IH]; intros [|x l]; simpl; try lia.
  specialize (IH l). destruct b, x; simpl; lia.
Qed.

Lemma count_none_option_map {A B : Type} (f : A -> B) (l : list (option A)) :
  count_none (map (option_map f) l) = count_none l.
Proof.
  unfold count_none. induction l as [|[x|] l IH]; simpl; auto.
Qed.

Lemma drop_marked_length {A : Type} (mask : list bool) (l : list A) :
  length mask = length l ->
  length (drop_marked mask l) = length (filter negb mask).
Proof.
  revert l. induction mask as [|b mask IH]; intros [|x l]; simpl; intros H;
    try discriminate; auto.
  destruct b; simpl; auto.
Qed.

Lemma mask_split (mask : list bool) :
  length (filter negb mask) + count_true mask = length mask.
Proof.
  unfold count_true. induction mask as [|[] mask IH]; simpl; lia.
Qed.

Lemma mark_repeats_length (seen : list row) (rs : list row) :
  length (mark_repeats seen rs) = length rs.
Proof.
  revert seen. induction rs as [|r rs IH]; intros seen; simpl; auto.
Qed.

Lemma duplicated_length (df : DataFrame) :
  length (duplicated df) = df_len df.
Proof.
  unfold duplicated. destruct (df_empty df).
  - apply repeat_length.
  - rewrite mark_repeats_length. unfold rows.
    rewrite length_map, length_seq. reflexivity.
Qed.

Lemma col_len_drop_marked (mask : list bool) (c : column) :
  length mask = col_len c ->
  col_len (col_drop_marked mask c) = length (filter negb mask).
Proof.
  destruct c; simpl; apply drop_marked_length.
Qed.

Lemma isnull_drop_marked (mask : list bool) (c : column) :
  isnull_sum (col_drop_marked mask c) <= isnull_sum c.
Proof.
  destruct c; simpl; auto using count_none_drop_marked.
Qed.

(** ** The steps one by one *)

Lemma columns_handle_missing_values (df : DataFrame) :
  columns (handle_missing_values df) = columns df.
Proof.
  unfold columns, handle_missing_values. simpl.
  rewrite map_map. reflexivity.
Qed.

Lemma columns_drop_duplicates (df : DataFrame) :
  columns (drop_duplicates df) = columns df.
Proof.
  unfold columns, drop_duplicates. simpl.
  rewrite map_map. reflexivity.
Qed.

Lemma impute_column_length (c : column) :
  col_len (impute_column c) = col_len c.
Proof.
  unfold impute_column. destruct (0 <? isnull_sum c); [|reflexivity].
  destruct c as [w v|w v|v|v|v|v]; simpl; auto.
  - destruct (median v); simpl; auto using fillna_length.
  - destruct (mode v); simpl; apply fillna_length.
Qed.

Lemma drop_duplicates_len (df : DataFrame) :
  df_len (drop_duplicates df) + count_true (duplicated df) = df_len df.
Proof.
  unfold drop_duplicates. simpl.
  rewrite mask_split. apply duplicated_length.
Qed.

Lemma wf_handle_missing_values (df : DataFrame) :
  wf df -> wf (handle_missing_values df).
Proof.
  unfold wf, handle_missing_values. simpl. intros H.
  apply Forall_map. eapply Forall_impl; [|exact H].
  intros [n c]. simpl. rewrite impute_column_length. auto.
Qed.

Lemma wf_drop_duplicates (df : DataFrame) :
  wf df -> wf (drop_duplicates df).
Proof.
  unfold wf, drop_duplicates. simpl. intros H.
  apply Forall_map. eapply Forall_impl; [|exact H].
  intros [n c]. simpl. intros Hc.
  apply col_len_drop_marked. rewrite duplicated_length. auto.
Qed.

(** ** Median and mode *)

Lemma Qinsert_length (x : Q) (l : list Q) :
  length (Qinsert x l) = S (length l).
Proof.
  induction l as [|y l IH]; simpl; auto.
  destruct (Qle_bool x y); simpl; auto.
Qed.

Lemma Qsort_length (l : list Q) : length (Qsort l) = length l.
Proof.
  unfold Qsort. induction l as [|x l IH]; simpl; auto.
  rewrite Qinsert_length. auto.
Qed.

Lemma nth_error_in_range {A : Type} (l : list A) (i : nat) :
  i < length l -> exists a, nth_error l i = Some a.
Proof.
  intros H. destruct (nth_error l i) as [a|] eqn:E; eauto.
  apply nth_error_None in E. lia.
Qed.

(** A column with a present value has a median. *)
Lemma median_defined (vals : list (option Q)) :
  dropna vals <> [] -> exists m, median vals = Some m.
Proof.
  intros H. unfold median.
  pose proof (Qsort_length (dropna vals)) as HL.
  destruct (length (Qsort (dropna vals))) as [|n] eqn:En.
  - destruct (dropna vals); [congruence|discriminate].
  - set (k := S n) in *.
    assert (Hk : 0 < k) by (unfold k; lia).
    destruct (Nat.odd k) eqn:Eodd.
    + apply nth_error_in_range. rewrite En.
      apply Nat.div_lt; lia.
    + assert (H2 : 2 <= k).
      { destruct n; [discriminate Eodd|unfold k; lia]. }
      assert (Hhalf : k / 2 < k) by (apply Nat.div_lt; lia).
      assert (Hpos : 1 <= k / 2).
      { change 1 with (2 / 2). apply Nat.Div0.div_le_mono. lia. }
      destruct (nth_error_in_range (Qsort (dropna vals)) (k / 2 - 1)) as [a ->];
        [rewrite En; fold k; lia|].
      destruct (nth_error_in_range (Qsort (dropna vals)) (k / 2)) as [b ->];
        [rewrite En; fold k; lia|].
      eauto.
Qed.

Lemma median_undefined (vals : list (option Q)) :
  dropna vals = [] -> median vals = None.
Proof. intros H. unfold median. rewrite H. reflexivity. Qed.

Lemma str_insert_length (x : string) (l : list string) :
  length (str_insert x l) = S (length l).
Proof.
  induction l as [|y l IH]; simpl; auto.
  destruct (String.leb x y); simpl; auto.
Qed.

Lemma str_sort_length (l : list string) : length (str_sort l) = length l.
Proof.
  unfold str_sort. induction l as [|x l IH]; simpl; auto.
  rewrite str_insert_length. auto.
Qed.

Lemma unique_str_acc_length (seen l : list string) :
  length seen <= length (unique_str_acc seen l).
Proof.
  revert seen. induction l as [|x l IH]; intros seen; simpl.
  - rewrite length_rev. lia.
  - destruct (mem_str x seen); [apply IH|].
    specialize (IH (x :: seen)). simpl in IH. lia.
Qed.

Lemma max_attained {A : Type} (f : A -> nat) (l : list A) :
  l <> [] ->
  exists a, In a l /\ f a = fold_right (fun s m => Nat.max (f s) m) 0 l.
Proof.
  induction l as [|x l IH]; [congruence|]. intros _. simpl.
  destruct l as [|y l].
  - exists x. simpl. split; auto. lia.
  - destruct IH as [a [Ha Hf]]; [discriminate|].
    set (m := fold_right (fun s m => Nat.max (f s) m) 0 (y :: l)) in *.
    destruct (Nat.max_spec (f x) m) as [[_ ->]|[_ ->]].
    + exists a. auto.
    + exists x. auto.
Qed.

Lemma most_frequent_nonempty (p : list string) :
  p <> [] ->
  filter (fun s => count_occ_str s p =?
                   fold_right (fun s m => Nat.max (count_occ_str s p) m) 0 (unique_str p))
         (unique_str p) <> [].
Proof.
  intros Hp.
  assert (Hu : unique_str p <> []).
  { destruct p as [|x present]; [congruence|].
    unfold unique_str. cbn [unique_str_acc mem_str].
    pose proof (unique_str_acc_length [x] present) as Hl.
    intros Hn. rewrite Hn in Hl. simpl in Hl. lia. }
  destruct (max_attained (fun s => count_occ_str s p) (unique_str p) Hu)
    as [a [Ha Hf]].
  intros Hnil.
  assert (Hin : In a (filter
    (fun s => count_occ_str s p =?
              fold_right (fun s m => Nat.max (count_occ_str s p) m) 0 (unique_str p))
    (unique_str p))).
  { apply filter_In. split; auto. apply Nat.eqb_eq. exact Hf. }
  rewrite Hnil in Hin. exact Hin.
Qed.

(** A column has no mode exactly when it has no present value. *)
Lemma mode_nil_iff (vals : list (option string)) :
  mode vals = [] <-> dropna vals = [].
Proof.
  unfold mode. split.
  - intros H. destruct (dropna vals) as [|x present] eqn:E; [reflexivity|].
    exfalso.
    apply (f_equal (@length string)) in H.
    rewrite str_sort_length in H. cbn [length] in H.
    apply length_zero_iff_nil in H.
    revert H. apply most_frequent_nonempty. discriminate.
  - intros ->. reflexivity.
Qed.

(** ** Imputation of one column *)

Lemma imputation_of_length (c : column) :
  col_len (imputation_of c) = col_len c.
Proof.
  destruct c as [w v|w v|v|v|v|v]; simpl; auto.
  - destruct (median v); simpl; auto using fillna_length.
  - apply fillna_length.
Qed.

(** The loop body of [handle_missing_values] does what the specification
    says of imputation. *)
Lemma impute_column_spec (c : column) :
  impute_column c = imputation_of c.
Proof.
  unfold impute_column.
  destruct (0 <? isnull_sum c) eqn:E.
  - destruct c as [w v|w v|v|v|v|v]; simpl; auto.
    destruct (mode v); reflexivity.
  - apply Nat.ltb_ge in E.
    destruct c as [w v|w v|v|v|v|v]; simpl in *; auto.
    + destruct (median v); auto.
      rewrite fillna_present; auto. lia.
    + rewrite fillna_present; auto. lia.
Qed.

Lemma impute_column_fills (c : column) :
  imputed c = true -> isnull_sum (impute_column c) = 0.
Proof.
  rewrite impute_column_spec. unfold imputed, entirely_missing.
  destruct c as [w v|w v|v|v|v|v]; simpl; try discriminate; auto.
  - intros H. apply negb_true_iff in H.
    assert (Hle : count_none v <= length v) by apply filter_length_le.
    destruct (dropna v) as [|x present] eqn:Ed.
    + apply dropna_nil_iff in Ed. rewrite Ed, Nat.eqb_refl in H.
      rewrite andb_true_r in H. apply Nat.ltb_ge in H.
      rewrite median_undefined; [simpl; lia|].
      apply dropna_nil_iff. lia.
    + destruct (median_defined v) as [m ->]; [rewrite Ed; discriminate|].
      simpl. apply count_none_fillna.
  - intros _. apply count_none_fillna.
Qed.

Lemma Forall2_map_left {A B C : Type} (R : B -> C -> Prop) (h : A -> B)
  (l : list A) (l' : list C) :
  Forall2 R (map h l) l' -> Forall2 (fun x y => R (h x) y) l l'.
Proof.
  revert l'. induction l as [|x l IH]; intros l' H; inversion H; subst;
    constructor; auto.
Qed.

(** ** What [duplicated] marks *)

Lemma mark_repeats_nth (seen : list row) (rs : list row) (i : nat) :
  nth_error (mark_repeats seen rs) i =
  match nth_error rs i with
  | None => None
  | Some r => Some (existsb (row_eqb r) (rev (firstn i rs) ++ seen))
  end.
Proof.
  revert seen i. induction rs as [|r rs IH]; intros seen [|i]; simpl; auto.
  rewrite IH. destruct (nth_error rs i); auto.
  rewrite <- app_assoc. reflexivity.
Qed.

Lemma in_firstn_iff {A : Type} (x : A) (l : list A) (i : nat) :
  In x (firstn i l) <-> exists j, j < i /\ nth_error l j = Some x.
Proof.
  revert i. induction l as [|y l IH]; intros i.
  - rewrite firstn_nil. split; [intros []|].
    intros [j [_ H]]. destruct j; discriminate.
  - destruct i as [|i]; simpl.
    + split; [intros []|]. intros [j [H _]]. lia.
    + rewrite IH. split.
      * intros [->|[j [Hj H]]].
        -- exists 0. split; [lia|reflexivity].
        -- exists (S j). split; [lia|exact H].
      * intros [[|j] [Hj H]]; simpl in H.
        -- left. congruence.
        -- right. exists j. split; [lia|exact H].
Qed.

Lemma rows_nth (df : DataFrame) (i : nat) :
  i < df_len df -> nth_error (rows df) i = Some (row_at df i).
Proof.
  intros H. unfold rows.
  rewrite nth_error_map, nth_error_seq.
  apply Nat.ltb_lt in H. rewrite H. reflexivity.
Qed.

(** A row of a frame with rows and columns is marked exactly when an
    earlier row equals it in every column. *)
Lemma duplicated_spec (df : DataFrame) (i : nat) :
  df_empty df = false -> i < df_len df ->
  (nth_error (duplicated df) i = Some true <->
   exists j, j < i /\ row_eqb (row_at df i) (row_at df j) = true).
Proof.
  intros He Hi. unfold duplicated. rewrite He.
  rewrite mark_repeats_nth, rows_nth by exact Hi.
  rewrite app_nil_r. split.
  - intros [= H]. apply existsb_exists in H. destruct H as [r [Hin Heq]].
    apply in_rev, in_firstn_iff in Hin. destruct Hin as [j [Hj Hn]].
    rewrite rows_nth in Hn by lia. injection Hn as <-. eauto.
  - intros [j [Hj Heq]]. f_equal. apply existsb_exists.
    exists (row_at df j). split; auto.
    apply in_rev. rewrite rev_involutive. apply in_firstn_iff.
    exists j. split; auto. apply rows_nth. lia.
Qed.

Lemma Forall2_map_self {A B : Type} (R : A -> B -> Prop) (f : A -> B) (l : list A) :
  (forall x, R x (f x)) -> Forall2 R l (map f l).
Proof. intros H. induction l; simpl; constructor; auto. Qed.

(** ** When the pipeline returns *)

Lemma drop_duplicates_keeps_a_row (df : DataFrame) :
  0 < df_len df -> 0 < df_len (drop_duplicates df).
Proof.
  intros H. unfold drop_duplicates, duplicated. simpl.
  destruct (df_empty df).
  - destruct (df_len df) as [|n]; [lia|]. simpl. lia.
  - unfold rows. destruct (df_len df) as [|n]; [lia|]. simpl. lia.
Qed.

Section WithPandas.

Context {pandas : Pandas}.

Lemma optimize_column_length (c c' : column) :
  optimize_column c = Ok c' -> col_len c' = col_len c.
Proof.
  destruct c as [[]|[]|?|?|?|?]; simpl; try (intros [= <-]; reflexivity).
  - destruct (list_min vals), (list_max vals); intros [= <-]; reflexivity.
  - intros [= <-]. simpl. apply length_map.
  - destruct (truediv _ _); simpl; [|discriminate].
    destruct (Qltb _ _); intros [= <-]; reflexivity.
Qed.

Lemma optimize_column_isnull (c c' : column) :
  optimize_column c = Ok c' -> isnull_sum c' = isnull_sum c.
Proof.
  destruct c as [[]|[]|?|?|?|?]; simpl; try (intros [= <-]; reflexivity).
  - destruct (list_min vals), (list_max vals); intros [= <-]; reflexivity.
  - intros [= <-]. simpl. apply count_none_option_map.
  - destruct (truediv _ _); simpl; [|discriminate].
    destruct (Qltb _ _); intros [= <-]; reflexivity.
Qed.

(** The narrowing loop returns the same labels, column by column. *)
Lemma optimize_loop_inv (cols cols' : list (string * column)) :
  optimize_loop cols = Ok cols' ->
  Forall2 (fun nc nc' => fst nc' = fst nc /\ optimize_column (snd nc) = Ok (snd nc'))
          cols cols'.
Proof.
  revert cols'. induction cols as [|[n c] cols IH]; simpl; intros cols'.
  - intros [= <-]. constructor.
  - destruct (optimize_column c) as [c'|] eqn:Ec; simpl; [|discriminate].
    destruct (optimize_loop cols) as [rest|] eqn:Er; simpl; [|discriminate].
    intros [= <-]. constructor; auto.
Qed.

Lemma optimize_dtypes_inv (df df' : DataFrame) :
  optimize_dtypes df = Ok df' ->
  df_len df' = df_len df /\
  Forall2 (fun nc nc' => fst nc' = fst nc /\ optimize_column (snd nc) = Ok (snd nc'))
          (df_cols df) (df_cols df').
Proof.
  unfold optimize_dtypes.
  destruct (optimize_loop (df_cols df)) as [cols|] eqn:E; simpl; [|discriminate].
  intros [= <-]. simpl. split; auto using optimize_loop_inv.
Qed.

Lemma columns_optimize_dtypes (df df' : DataFrame) :
  optimize_dtypes df = Ok df' -> columns df' = columns df.
Proof.
  intros H. apply optimize_dtypes_inv in H. destruct H as [_ H].
  unfold columns. induction H as [|x y l l' [Hn _] _ IH]; simpl; congruence.
Qed.

(** What a returning [auto_clean] went through. *)
Lemma auto_clean_inv (df df' : DataFrame) (rep : CleaningReport) :
  auto_clean df = Ok (df', rep) ->
  optimize_dtypes (remove_duplicates (handle_missing_values df)) = Ok df' /\
  detect_column_types df' = Ok (column_types rep) /\
  quality rep = analyze_data_quality df /\
  duplicates_removed rep =
    (Z.of_nat (df_len (handle_missing_values df))
     - Z.of_nat (df_len (remove_duplicates (handle_missing_values df))))%Z /\
  final_shape rep = (df_len df', length (columns df')).
Proof.
  unfold auto_clean.
  destruct (optimize_dtypes _) as [d|] eqn:Eo; simpl; [|discriminate].
  destruct (detect_column_types d) as [t|] eqn:Ed; simpl; [|discriminate].
  intros [= <- <-]. simpl. auto.
Qed.

(** Column by column, a returned table carries the label of the input
    column and no more missing entries than imputation left in it. *)
Lemma auto_clean_columnwise (df df' : DataFrame) (rep : CleaningReport) :
  auto_clean df = Ok (df', rep) ->
  Forall2 (fun nc nc' =>
             fst nc' = fst nc /\
             isnull_sum (snd nc') <= isnull_sum (impute_column (snd nc)))
          (df_cols df) (df_cols df').
Proof.
  intros H. apply auto_clean_inv in H. destruct H as [Ho _].
  apply optimize_dtypes_inv in Ho. destruct Ho as [_ Ho].
  unfold remove_duplicates, drop_duplicates, handle_missing_values in Ho.
  simpl in Ho. rewrite map_map in Ho. simpl in Ho.
  apply Forall2_map_left in Ho.
  eapply Forall2_impl; [|exact Ho].
  intros [n c] [n' c']. simpl. intros [Hn Hc]. split; auto.
  apply optimize_column_isnull in Hc. rewrite Hc.
  apply isnull_drop_marked.
Qed.

Lemma auto_clean_len (df df' : DataFrame) (rep : CleaningReport) :
  auto_clean df = Ok (df', rep) ->
  df_len df' = df_len (drop_duplicates (handle_missing_values df)).
Proof.
  intros H. apply auto_clean_inv in H. destruct H as [Ho _].
  apply optimize_dtypes_inv in Ho. tauto.
Qed.

Lemma optimize_column_returns (c : column) :
  0 < col_len c -> exists c', optimize_column c = Ok c'.
Proof.
  intros H. destruct c as [[]|[]|?|?|?|?]; simpl in *; eauto.
  - destruct (list_min vals), (list_max vals); eauto.
  - destruct (length vals) as [|n]; [lia|]. simpl.
    destruct (Qltb _ _); eauto.
Qed.

Lemma optimize_loop_returns (cols : list (string * column)) :
  Forall (fun nc => 0 < col_len (snd nc)) cols ->
  exists cols', optimize_loop cols = Ok cols'.
Proof.
  induction 1 as [|[n c] cols Hc _ [rest IH]]; simpl; eauto.
  simpl in Hc. destruct (optimize_column_returns c Hc) as [c' ->].
  simpl. rewrite IH. simpl. eauto.
Qed.

(** The classifier's division is by the row count, and an object column
    of a table without rows never reaches it. *)
Lemma detect_step_returns (len_df : nat) (t : ColumnTypes) (col : string) (c : column) :
  col_len c = len_df -> exists t', detect_step len_df t col c = Ok t'.
Proof.
  intros H. destruct c as [w v|w v|v|v|v|v]; simpl in *; eauto.
  destruct len_df as [|n].
  - apply length_zero_iff_nil in H. subst v.
    rewrite to_datetime_nil. eauto.
  - destruct (to_datetime_ok v); eauto. simpl.
    destruct (_ || _); eauto.
Qed.

Lemma detect_loop_returns (len_df : nat) (cols : list (string * column)) (t : ColumnTypes) :
  Forall (fun nc => col_len (snd nc) = len_df) cols ->
  exists t', detect_loop len_df cols t = Ok t'.
Proof.
  intros H. revert t. induction H as [|[n c] cols Hc _ IH]; intros t; simpl; eauto.
  simpl in Hc. destruct (detect_step_returns len_df t n c Hc) as [t' ->].
  simpl. apply IH.
Qed.

Lemma detect_column_types_returns (df : DataFrame) :
  wf df -> exists t, detect_column_types df = Ok t.
Proof. intros H. apply detect_loop_returns. exact H. Qed.

Lemma wf_optimize_dtypes (df df' : DataFrame) :
  wf df -> optimize_dtypes df = Ok df' -> wf df'.
Proof.
  unfold wf. intros Hw Ho. apply optimize_dtypes_inv in Ho.
  destruct Ho as [Hl Ho]. rewrite Hl. clear Hl.
  induction Ho as [|[n c] [n' c'] l l' [_ Hc] _ IH]; [constructor|].
  inversion Hw; subst. constructor; auto.
  simpl in *. apply optimize_column_length in Hc. congruence.
Qed.

(** On a table with at least one row the whole pipeline returns. *)
Lemma auto_clean_returns (df : DataFrame) :
  wf df -> 0 < df_len df -> exists df' rep, auto_clean df = Ok (df', rep).
Proof.
  intros Hw Hn.
  pose proof (wf_drop_duplicates _ (wf_handle_missing_values _ Hw)) as Hw2.
  assert (Hpos : 0 < df_len (drop_duplicates (handle_missing_values df))).
  { apply drop_duplicates_keeps_a_row. exact Hn. }
  destruct (optimize_loop_returns (df_cols (drop_duplicates (handle_missing_values df))))
    as [cols Hc].
  { eapply Forall_impl; [|exact Hw2]. intros nc Hnc. simpl in *. lia. }
  assert (Ho : optimize_dtypes (drop_duplicates (handle_missing_values df))
               = Ok {| df_len := df_len (drop_duplicates (handle_missing_values df));
                       df_cols := cols |}).
  { unfold optimize_dtypes. rewrite Hc. reflexivity. }
  destruct (detect_column_types_returns _ (wf_optimize_dtypes _ _ Hw2 Ho)) as [t Ht].
  unfold auto_clean, remove_duplicates. rewrite Ho.
  cbn [Py.bind]. rewrite Ht. cbn [Py.bind]. eauto.
Qed.

(** ** The classifier on a table without rows *)

Lemma detect_loop_no_rows (cols : list (string * column)) (t : ColumnTypes) :
  Forall (fun nc => col_len (snd nc) = 0) cols ->
  detect_loop 0 cols t =
  Ok {| numeric := numeric t
                   ++ map fst (filter (fun nc => is_numeric_dtype (snd nc)) cols);
        categorical := categorical t;
        datetime := datetime t
                    ++ map fst (filter (fun nc => is_object_dtype (snd nc)) cols);
        text := text t |}.
Proof.
  intros H. revert t. induction H as [|[n c] cols Hc _ IH]; intros t.
  - simpl. rewrite !app_nil_r. destruct t; reflexivity.
  - simpl in Hc. destruct c as [w v|w v|v|v|v|v]; simpl in *;
      try (rewrite IH; simpl; rewrite <- ?app_assoc; reflexivity).
    apply length_zero_iff_nil in Hc. subst v. rewrite to_datetime_nil.
    simpl. rewrite IH. simpl. rewrite <- ?app_assoc. reflexivity.
Qed.

(** ** The narrowing rule *)

(** The chosen width always holds the extremes. *)
Lemma narrow_width_bounds (c_min c_max : Z) :
  bounds W64 c_min c_max = true ->
  bounds (narrow_width c_min c_max) c_min c_max = true.
Proof.
  unfold narrow_width, bounds. simpl. intros H.
  repeat match goal with
         | |- context [if ?b then _ else _] => destruct b eqn:?
         end; simpl; auto; lia.
Qed.

(** Away from the limits of the three narrow ranges the code chooses the
    smallest width that bounds the extremes. *)
Lemma narrow_width_off_limits (c_min c_max : Z) :
  (forall w, w <> W64 -> c_min <> iinfo_min w /\ c_max <> iinfo_max w) ->
  narrow_width c_min c_max = smallest_bounding_width c_min c_max.
Proof.
  intros H.
  destruct (H W8) as [? ?]; [discriminate|].
  destruct (H W16) as [? ?]; [discriminate|].
  destruct (H W32) as [? ?]; [discriminate|].
  unfold narrow_width, smallest_bounding_width, bounds. simpl in *.
  repeat match goal with
         | |- context [(?a <? ?b)%Z] => destruct (Z.ltb_spec a b)
         | |- context [(?a <=? ?b)%Z] => destruct (Z.leb_spec a b)
         end; simpl; auto; lia.
Qed.

(** The code chooses the smallest width whose range holds the extremes
    strictly inside. *)
Lemma narrow_width_strict (c_min c_max : Z) :
  narrow_width c_min c_max =
  if bounds_strictly W8 c_min c_max then W8
  else if bounds_strictly W16 c_min c_max then W16
  else if bounds_strictly W32 c_min c_max then W32
  else W64.
Proof. reflexivity. Qed.

(** ** The classifier's lists *)

Lemma detect_loop_labels (len_df : nat) (cols : list (string * column))
  (t t' : ColumnTypes) :
  detect_loop len_df cols t = Ok t' ->
  numeric t' = numeric t ++ labels_among Numeric len_df cols /\
  categorical t' = categorical t ++ labels_among Categorical len_df cols /\
  datetime t' = datetime t ++ labels_among Datetime len_df cols /\
  text t' = text t ++ labels_among Text len_df cols.
Proof.
  unfold labels_among.
  revert t. induction cols as [|[n c] cols IH]; intros t; simpl.
  - intros [= <-]. rewrite !app_nil_r. auto.
  - destruct c as [w v|w v|v|v|v|v]; simpl;
      try (intros H; apply IH in H; simpl in H;
           rewrite <- ?app_assoc in H; exact H).
    destruct (to_datetime_ok v); simpl.
    + intros H; apply IH in H; simpl in H. rewrite <- ?app_assoc in H; exact H.
    + destruct len_df as [|k]; simpl; [discriminate|].
      destruct (Qltb _ _ || _); simpl;
        intros H; apply IH in H; simpl in H; rewrite <- ?app_assoc in H; exact H.
Qed.

(** Each list of a classification holds the labels of the columns of its
    category, in column order. *)
Lemma detect_column_types_labels (df : DataFrame) (t : ColumnTypes) :
  detect_column_types df = Ok t ->
  numeric t = labels_of Numeric df /\
  categorical t = labels_of Categorical df /\
  datetime t = labels_of Datetime df /\
  text t = labels_of Text df.
Proof. intros H. apply detect_loop_labels in H. exact H. Qed.

End WithPandas.

End CleanerFacts.

Module CleanerTheorems.

Import DataCleaner CleanerFacts.

Section WithPandas.

Context {pandas : Pandas}.

(** C10.  The table [auto_clean] returns has the column labels of its
    input, in the same order; so has the output of each of its steps:
    imputation, deduplication and narrowing. *)
Theorem auto_clean_keeps_columns (df : DataFrame) :
  columns (handle_missing_values df) = columns df /\
  columns (remove_duplicates df) = columns df /\
  (forall df', optimize_dtypes df = Ok df' -> columns df' = columns df) /\
  (forall df' rep, auto_clean df = Ok (df', rep) -> columns df' = columns df).
Proof.
  split; [apply columns_handle_missing_values|].
  split; [apply columns_drop_duplicates|].
  split; [intros df'; apply columns_optimize_dtypes|].
  intros df' rep H. apply auto_clean_inv in H. destruct H as [Ho _].
  apply columns_optimize_dtypes in Ho. rewrite Ho.
  unfold remove_duplicates.
  rewrite columns_drop_duplicates. apply columns_handle_missing_values.
Qed.

(** C1, amended.  Imputation writes the median into the gaps of a float
    column that has one, the mode into the gaps of an object column and
    "Unknown" into an object column without a mode, which is one without a
    present value; it keeps labels, column lengths and the row count.  In
    the table [auto_clean] returns, every column that was an object
    column, or a numeric column not entirely missing, is free of missing
    entries. *)
Theorem clean_fills_imputed_columns (df : DataFrame) :
  df_len (handle_missing_values df) = df_len df /\
  Forall2 (fun nc nc' =>
             fst nc' = fst nc /\
             snd nc' = imputation_of (snd nc) /\
             col_len (snd nc') = col_len (snd nc))
          (df_cols df) (df_cols (handle_missing_values df)) /\
  (forall vals, mode vals = [] <-> count_none vals = length vals) /\
  (forall df' rep, auto_clean df = Ok (df', rep) ->
     Forall2 (fun nc nc' =>
                fst nc' = fst nc /\
                (imputed (snd nc) = true -> isnull_sum (snd nc') = 0))
             (df_cols df) (df_cols df')).
Proof.
  split; [reflexivity|].
  split.
  { unfold handle_missing_values. simpl. apply Forall2_map_self.
    intros [n c]. simpl. rewrite impute_column_spec.
    auto using imputation_of_length. }
  split.
  { intros vals. rewrite mode_nil_iff. apply dropna_nil_iff. }
  intros df' rep H. apply auto_clean_columnwise in H.
  eapply Forall2_impl; [|exact H].
  intros [n c] [n' c']. simpl. intros [Hn Hle]. split; auto.
  intros Hi. apply impute_column_fills in Hi. lia.
Qed.

(** C2, amended.  The table [auto_clean] returns has at most as many rows
    as its input: as many as the input minus the rows that, after
    imputation, repeat an earlier row in every column.  Imputation and
    narrowing keep the row count, and [duplicates_removed] is the row
    count before deduplication minus the one after it. *)
Theorem clean_row_count (df df' : DataFrame) (rep : CleaningReport) :
  auto_clean df = Ok (df', rep) ->
  df_len df' <= df_len df /\
  df_len df' + count_true (duplicated (handle_missing_values df)) = df_len df /\
  df_len (handle_missing_values df) = df_len df /\
  (forall d d', optimize_dtypes d = Ok d' -> df_len d' = df_len d) /\
  duplicates_removed rep =
    (Z.of_nat (df_len (handle_missing_values df))
     - Z.of_nat (df_len (remove_duplicates (handle_missing_values df))))%Z /\
  duplicates_removed rep =
    Z.of_nat (count_true (duplicated (handle_missing_values df))) /\
  (forall d i, df_empty d = false -> i < df_len d ->
     (nth_error (duplicated d) i = Some true <->
      exists j, j < i /\ row_eqb (row_at d i) (row_at d j) = true)).
Proof.
  intros H.
  pose proof (auto_clean_len _ _ _ H) as Hlen.
  pose proof (drop_duplicates_len (handle_missing_values df)) as Hd.
  change (df_len (handle_missing_values df)) with (df_len df) in Hd.
  apply auto_clean_inv in H. destruct H as (_ & _ & _ & Hrem & _).
  repeat split.
  - lia.
  - lia.
  - intros d d' Ho. apply optimize_dtypes_inv in Ho. tauto.
  - exact Hrem.
  - rewrite Hrem. unfold remove_duplicates.
    change (df_len (handle_missing_values df)) with (df_len df). lia.
  - apply duplicated_spec; assumption.
  - apply duplicated_spec; assumption.
Qed.

(** C5, amended.  On a table without rows the classifier returns, and the
    division of its third rule is never reached: every object column
    passes the date parse and is classified datetime, every numeric
    column is classified numeric, and no column is classified categorical
    or text. *)
Theorem classifier_without_rows (df : DataFrame) :
  wf df -> df_len df = 0 ->
  detect_column_types df =
  Ok {| numeric := map fst (filter (fun nc => is_numeric_dtype (snd nc)) (df_cols df));
        categorical := [];
        datetime := map fst (filter (fun nc => is_object_dtype (snd nc)) (df_cols df));
        text := [] |}.
Proof.
  intros Hw Hn. unfold detect_column_types. rewrite Hn.
  rewrite detect_loop_no_rows; [reflexivity|].
  unfold wf in Hw. rewrite Hn in Hw. exact Hw.
Qed.

(** C3.  The cleaner narrows the repeating object column "city" to the
    category dtype and then classifies its own output: "city" is a column
    of the returned table and is in none of the four category lists.  The
    same holds of the classifier called on that table directly. *)
Theorem category_column_gets_no_type :
  detect_column_types
    (mkDataFrame 3 [("id"%string, IntCol W8 [1; 2; 3]%Z);
                    ("city"%string, CategoryCol [Some "a"; Some "a"; Some "a"]%string)])
  = Ok {| numeric := ["id"%string]; categorical := []; datetime := []; text := [] |} /\
  match auto_clean Tables.shops with
  | Ok (df', rep) =>
    columns df' = ["id"; "city"]%string /\
    classified (column_types rep) = ["id"%string]
  | Raise _ => False
  end.
Proof. split; [reflexivity|]. simpl. split; reflexivity. Qed.

(** C6.  A column whose maximum is 127, the largest int8, is cast to
    int16, although the int8 range bounds its extremes: the comparison
    with the limits of a width is strict. *)
Theorem narrowing_at_int8_limit :
  optimize_dtypes Tables.at_limit
  = Ok (mkDataFrame 2 [("level"%string, IntCol W16 [5; 127]%Z)]) /\
  narrow_width 5 127 = W16 /\
  smallest_bounding_width 5 127 = W8.
Proof. repeat split. Qed.

End WithPandas.

End CleanerTheorems.

(** * Properties of the statistical analyzer *)

Module AnalyzerFacts.

Import DataCleaner DataAnalyzer CleanerFacts InsightRules.

Lemma lookup_col_none (cols : list (string * column)) (name : string) :
  lookup_col cols name = None <-> ~ In name (map fst cols).
Proof.
  induction cols as [|[n c] cols IH]; simpl.
  - tauto.
  - destruct (String.eqb_spec n name) as [->|Hne].
    + split; [discriminate|]. intros H. exfalso. apply H. auto.
    + rewrite IH. tauto.
Qed.

Lemma numeric_values_none (c : column) :
  numeric_values c = None <-> is_numeric_dtype c = false.
Proof. destruct c; simpl; split; congruence. Qed.

(** ** Sorting and quantiles *)

Lemma Qinsert_forall (y x : Q) (l : list Q) :
  (y <= x)%Q -> Forall (Qle y) l -> Forall (Qle y) (Qinsert x l).
Proof.
  intros Hx H. induction l as [|z l IH]; simpl.
  - constructor; auto.
  - inversion H; subst. destruct (Qle_bool x z).
    + constructor; auto.
    + constructor; auto.
Qed.

Lemma Qinsert_sorted (x : Q) (l : list Q) :
  StronglySorted Qle l -> StronglySorted Qle (Qinsert x l).
Proof.
  induction 1 as [|y l Hs IH Hy]; simpl.
  - constructor; constructor.
  - destruct (Qle_bool x y) eqn:E.
    + apply Qle_bool_iff in E. constructor.
      * constructor; auto.
      * constructor; auto.
        eapply Forall_impl; [|exact Hy]. intros z Hz. eapply Qle_trans; eauto.
    + constructor; auto. apply Qinsert_forall; auto.
      destruct (Qlt_le_dec y x) as [Hlt|Hle].
      * apply Qlt_le_weak. exact Hlt.
      * apply Qle_bool_iff in Hle. congruence.
Qed.

Lemma Qsort_sorted (l : list Q) : StronglySorted Qle (Qsort l).
Proof.
  unfold Qsort. induction l as [|x l IH]; simpl.
  - constructor.
  - apply Qinsert_sorted. exact IH.
Qed.

Lemma sorted_nth_le (s : list Q) (d : Q) (i j : nat) :
  StronglySorted Qle s -> i <= j -> j < length s ->
  (nth i s d <= nth j s d)%Q.
Proof.
  intros H. revert i j. induction H as [|x s Hs IH Hx]; intros i j Hij Hj.
  - simpl in Hj. lia.
  - destruct i as [|i], j as [|j]; simpl in *; try lia.
    + apply Qle_refl.
    + rewrite Forall_forall in Hx. apply Hx. apply nth_In. lia.
    + apply IH; lia.
Qed.

(** The interpolation of [quantile] stays between its two neighbours. *)
Lemma interpolation_between (a b frac : Q) :
  (a <= b)%Q -> (0 <= frac)%Q -> (frac <= 1)%Q ->
  (a <= a + (b - a) * frac)%Q /\ (a + (b - a) * frac <= b)%Q.
Proof. intros. split; nra. Qed.

Lemma interpolation_mono (a b f1 f2 : Q) :
  (a <= b)%Q -> (f1 <= f2)%Q ->
  (a + (b - a) * f1 <= a + (b - a) * f2)%Q.
Proof. intros. nra. Qed.

Lemma floor_frac (x : Q) :
  (0 <= x - inject_Z (Qfloor x))%Q /\ (x - inject_Z (Qfloor x) <= 1)%Q.
Proof.
  pose proof (Qfloor_le x). pose proof (Qlt_floor x) as H2.
  rewrite inject_Z_plus in H2. change (inject_Z 1) with 1%Q in H2.
  split; lra.
Qed.

Lemma quantile_position (n : nat) (q : Q) :
  0 < n -> (0 <= q)%Q -> (q <= 1)%Q ->
  let pos := (inject_Z (Z.of_nat (n - 1)) * q)%Q in
  (0 <= Qfloor pos)%Z /\ Z.to_nat (Qfloor pos) < n.
Proof.
  intros Hn H0 H1 pos.
  assert (Hk : (0 <= inject_Z (Z.of_nat (n - 1)))%Q).
  { change 0%Q with (inject_Z 0). rewrite <- Zle_Qle. lia. }
  assert (Hp0 : (0 <= pos)%Q) by (unfold pos; nra).
  assert (Hp1 : (pos <= inject_Z (Z.of_nat (n - 1)))%Q) by (unfold pos; nra).
  assert (Hf0 : (0 <= Qfloor pos)%Z).
  { change 0%Z with (Qfloor 0). apply Qfloor_resp_le. exact Hp0. }
  assert (Hf1 : (Qfloor pos <= Z.of_nat (n - 1))%Z).
  { rewrite <- (Qfloor_Z (Z.of_nat (n - 1))). apply Qfloor_resp_le. exact Hp1. }
  split; [exact Hf0|]. lia.
Qed.

Lemma quantile_mono (data : list Q) (q1 q2 : Q) :
  data <> [] -> (0 <= q1)%Q -> (q1 <= q2)%Q -> (q2 <= 1)%Q ->
  (quantile data q1 <= quantile data q2)%Q.
Proof.
  intros Hd H0 H12 H1. unfold quantile. cbv zeta.
  pose proof (Qsort_sorted data) as Hs.
  pose proof (Qsort_length data) as Hl.
  set (s := Qsort data) in *.
  assert (Hn : 0 < length s).
  { rewrite Hl. destruct data; [congruence|simpl; lia]. }
  set (p1 := (inject_Z (Z.of_nat (length s - 1)) * q1)%Q).
  set (p2 := (inject_Z (Z.of_nat (length s - 1)) * q2)%Q).
  destruct (quantile_position (length s) q1 Hn) as [Hf1 Hlo1]; [lra|lra|].
  destruct (quantile_position (length s) q2 Hn) as [Hf2 Hlo2]; [lra|lra|].
  fold p1 in Hf1, Hlo1. fold p2 in Hf2, Hlo2.
  assert (Hk : (0 <= inject_Z (Z.of_nat (length s - 1)))%Q).
  { change 0%Q with (inject_Z 0). rewrite <- Zle_Qle. lia. }
  assert (Hp : (p1 <= p2)%Q) by (unfold p1, p2; nra).
  assert (Hf : (Qfloor p1 <= Qfloor p2)%Z) by (apply Qfloor_resp_le; exact Hp).
  destruct (floor_frac p1) as [Hfr1 Hfr1'].
  destruct (floor_frac p2) as [Hfr2 Hfr2'].
  set (lo1 := Z.to_nat (Qfloor p1)) in *.
  set (lo2 := Z.to_nat (Qfloor p2)) in *.
  assert (Hab : forall lo, lo < length s ->
            (nth lo s 0 <= nth (S lo) s (nth lo s 0))%Q).
  { intros lo Hlo. destruct (Nat.lt_ge_cases (S lo) (length s)) as [Hin|Hout].
    - rewrite (nth_indep s (nth lo s 0%Q) 0%Q Hin).
      apply sorted_nth_le; auto.
    - rewrite (nth_overflow s (nth lo s 0%Q) Hout). apply Qle_refl. }
  destruct (Z.eq_dec (Qfloor p1) (Qfloor p2)) as [Heq|Hne].
  - unfold lo2. rewrite <- Heq. fold lo1.
    apply interpolation_mono; [apply Hab; exact Hlo1|].
    lra.
  - assert (Hlt : S lo1 <= lo2) by (unfold lo1, lo2; lia).
    destruct (interpolation_between _ _ _ (Hab lo1 Hlo1) Hfr1 Hfr1') as [_ Hup].
    destruct (interpolation_between _ _ _ (Hab lo2 Hlo2) Hfr2 Hfr2') as [Hdown _].
    eapply Qle_trans; [exact Hup|]. eapply Qle_trans; [|exact Hdown].
    rewrite (nth_indep s (nth lo1 s 0%Q) 0%Q) by lia.
    apply sorted_nth_le; auto.
Qed.

(** ** The direction of a skew insight *)


(** The columns the classifier leaves without a category are those of
    category and datetime64 storage. *)
Lemma classify_none_iff {pandas : Pandas} (len_df : nat) (c : column) :
  classify len_df c = None <->
  (is_numeric_dtype c = false /\ is_object_dtype c = false).
Proof.
  destruct c as [w v|w v|v|v|v|v]; simpl; try (split; [discriminate|intros [? ?]; discriminate]);
    try tauto.
  destruct (to_datetime_ok v); [|destruct (_ || _)];
    (split; [discriminate|intros [? ?]; discriminate]).
Qed.

Section WithStats.

Context {stats : Stats}.

Lemma distribution_analysis_absent (df : DataFrame) (column : string) :
  ~ In column (columns df) -> distribution_analysis df column = Ok None.
Proof.
  intros H. apply lookup_col_none in H.
  unfold distribution_analysis, get_col. rewrite H. reflexivity.
Qed.

Lemma distribution_analysis_not_numeric (df : DataFrame) (name : string) (c : column) :
  get_col df name = Some c -> is_numeric_dtype c = false ->
  distribution_analysis df name = Ok None.
Proof.
  intros Hc Hn. apply numeric_values_none in Hn.
  unfold distribution_analysis. rewrite Hc, Hn. reflexivity.
Qed.

(** ** The fences

    Rounding is monotone, so that the range between the quartiles is not
    negative and the lower fence is not above the upper one. *)
Lemma fences_in_order (q1 q3 : Q) :
  (q1 <= q3)%Q ->
  let iqr := f64_sub q3 q1 in
  (0 <= iqr)%Q /\
  (f64_sub q1 (f64_mul (3 # 2) iqr) <= f64_add q3 (f64_mul (3 # 2) iqr))%Q.
Proof.
  intros H. cbv zeta. unfold f64_sub, f64_add, f64_mul.
  assert (Hi : (0 <= binary64_round (q3 - q1))%Q)
    by (apply binary64_round_nonneg; lra).
  split; [exact Hi|].
  assert (Ht : (0 <= binary64_round ((3 # 2) * binary64_round (q3 - q1)))%Q)
    by (apply binary64_round_nonneg; lra).
  apply binary64_round_mono. lra.
Qed.

(** Around quartiles that are floats the fences do not close in. *)
Lemma fences_around (q1 q3 iqr : Q) :
  (binary64_round q1 == q1)%Q -> (binary64_round q3 == q3)%Q -> (0 <= iqr)%Q ->
  (f64_sub q1 (f64_mul (3 # 2) iqr) <= q1)%Q /\
  (q3 <= f64_add q3 (f64_mul (3 # 2) iqr))%Q.
Proof.
  intros R1 R3 Hi. unfold f64_sub, f64_add, f64_mul.
  assert (Ht : (0 <= binary64_round ((3 # 2) * iqr))%Q)
    by (apply binary64_round_nonneg; lra).
  split.
  - rewrite <- R1 at 2. apply binary64_round_mono. lra.
  - rewrite <- R3 at 1. apply binary64_round_mono. lra.
Qed.

(** ** The loops of [generate_insights] *)


Lemma numeric_insights_loop_raises (df : DataFrame) (cols : list string)
  (insights : list Insight) (e : Py.exn) :
  numeric_insights_loop df cols insights = Raise e ->
  exists col, In col cols /\ distribution_analysis df col = Raise e.
Proof.
  revert insights. induction cols as [|col cols IH]; intros insights; simpl.
  - discriminate.
  - destruct (distribution_analysis df col) as [[d|]|e'] eqn:E; simpl.
    + intros H. destruct (IH _ H) as [c [Hc Hd]]. exists c. auto.
    + intros H. destruct (IH _ H) as [c [Hc Hd]]. exists c. auto.
    + intros [= <-]. exists col. auto.
Qed.

Lemma dropna_all_present {A B : Type} (f : A -> B) (l : list A) :
  dropna (map (fun x => Some (f x)) l) = map f l.
Proof. induction l as [|x l IH]; simpl; [reflexivity|]. rewrite IH. reflexivity. Qed.

(** Distribution analysis raises nothing but the refusal of the
    quantiles of a boolean column. *)
Lemma distribution_analysis_raises (df : DataFrame) (col : string) (e : Py.exn) :
  distribution_analysis df col = Raise e <->
  e = TypeError /\ quantile_refused df col = true.
Proof.
  unfold distribution_analysis, quantile_refused.
  destruct (get_col df col) as [c|];
    [|split; [discriminate|intros [_ H]; discriminate]].
  destruct (numeric_values c) as [vals|] eqn:Ev;
    [|destruct c; try discriminate Ev;
      (split; [discriminate|intros [_ H]; discriminate])].
  destruct (length (dropna vals) <? 3) eqn:El.
  - split; [discriminate|]. intros [_ H].
    destruct c; try discriminate H.
    cbn [numeric_values] in Ev. injection Ev as <-.
    rewrite dropna_all_present, length_map in El.
    apply andb_true_iff in H. destruct H as [_ H].
    apply Nat.leb_le in H. apply Nat.ltb_lt in El. lia.
  - destruct (match scipy_skew (dropna vals), scipy_kurtosis (dropna vals) with
              | Ok s, Ok k => (s, k)
              | _, _ => (Fin 0, Fin 0)
              end) as [sk ku].
    destruct c; try (split; [discriminate|intros [_ H]; discriminate]).
    cbn [numeric_values] in Ev. injection Ev as <-.
    rewrite dropna_all_present, length_map in El.
    apply Nat.ltb_ge in El. apply Nat.leb_le in El. rewrite El, andb_true_r.
    destruct quantile_accepts_bool; cbn [negb].
    + split; [discriminate|intros [_ H]; discriminate].
    + split; [intros [= <-]; auto|intros [-> _]; reflexivity].
Qed.

(** [generate_insights] raises exactly when one of the first five numeric
    labels names a column whose quantiles are refused, and then
    [TypeError]. *)
Lemma generate_insights_raises (df : DataFrame) (column_types : ColumnTypes)
  (e : Py.exn) :
  generate_insights df column_types = Raise e <->
  e = TypeError /\
  exists col, In col (firstn 5 (numeric column_types)) /\
              quantile_refused df col = true.
Proof.
  unfold generate_insights. split.
  - destruct (numeric_insights_loop df (firstn 5 (numeric column_types)) [])
      as [found|e'] eqn:E; simpl.
    + destruct (correlation_analysis df). discriminate.
    + intros [= <-]. apply numeric_insights_loop_raises in E.
      destruct E as [col [Hin Hd]]. apply distribution_analysis_raises in Hd.
      destruct Hd as [-> Hq]. split; [reflexivity|]. exists col. auto.
  - intros [-> [col [Hin Hq]]].
    destruct (numeric_insights_loop df (firstn 5 (numeric column_types)) [])
      as [found|e'] eqn:E; simpl.
    + exfalso. revert E. generalize (@nil Insight).
      induction (firstn 5 (numeric column_types)) as [|c cols IH]; [destruct Hin|].
      intros acc. simpl.
      destruct Hin as [->|Hin].
      * assert (Hd : distribution_analysis df col = Raise TypeError)
          by (apply distribution_analysis_raises; auto).
        rewrite Hd. discriminate.
      * destruct (distribution_analysis df c) as [[d|]|e'']; simpl;
          [apply IH; exact Hin|apply IH; exact Hin|discriminate].
    + apply numeric_insights_loop_raises in E.
      destruct E as [c [_ Hd]]. apply distribution_analysis_raises in Hd.
      destruct Hd as [-> _]. reflexivity.
Qed.



(** ** The strong pairs of [correlation_analysis] *)

Lemma strong_inner_spec (ci : string * list (option Q))
  (later : list (string * list (option Q))) (acc : list StrongCorrelation) :
  strong_inner ci later acc =
  acc ++ map (fun p => {| var1 := fst (fst p); var2 := fst (snd p);
                          correlation := fround (pearson (snd (fst p)) (snd (snd p))) 3 |})
             (filter strong_pair (map (pair ci) later)).
Proof.
  revert acc. induction later as [|cj later IH]; intros acc; simpl.
  - rewrite app_nil_r. reflexivity.
  - unfold strong_pair at 1. simpl.
    destruct (fgt (fabs (pearson (snd ci) (snd cj))) (7 # 10)); auto.
    rewrite IH, <- app_assoc. reflexivity.
Qed.

Lemma strong_outer_spec (cols : list (string * list (option Q)))
  (acc : list StrongCorrelation) :
  strong_outer cols acc = acc ++ strong_pairs cols.
Proof.
  unfold strong_pairs.
  revert acc. induction cols as [|ci cols IH]; intros acc; simpl.
  - rewrite app_nil_r. reflexivity.
  - rewrite IH, strong_inner_spec, filter_app, map_app, <- app_assoc.
    reflexivity.
Qed.

Lemma correlation_analysis_strong (df : DataFrame) :
  snd (correlation_analysis df) = strong_pairs (number_columns (df_cols df)).
Proof.
  unfold correlation_analysis.
  destruct (length (number_columns (df_cols df)) <? 2) eqn:E; simpl.
  - apply Nat.ltb_lt in E.
    destruct (number_columns (df_cols df)) as [|x [|y l]]; simpl in *;
      try reflexivity. lia.
  - apply strong_outer_spec.
Qed.

End WithStats.

End AnalyzerFacts.

Module AnalyzerTheorems.

Import DataCleaner DataAnalyzer CleanerFacts AnalyzerFacts InsightRules.

Section WithStats.

Context {stats : Stats}.

(** C4, amended.  Distribution analysis of a column that is absent from
    the table, or that is not numeric, raises nothing: it returns the
    empty result, the one it also returns for a column with fewer than
    three present values. *)
Theorem distribution_analysis_misuse_is_empty (df : DataFrame) (column : string) :
  (~ In column (columns df) \/
   exists c, get_col df column = Some c /\ is_numeric_dtype c = false) ->
  distribution_analysis df column = Ok None.
Proof.
  intros [H|[c [Hc Hn]]].
  - apply distribution_analysis_absent. exact H.
  - eapply distribution_analysis_not_numeric; eauto.
Qed.

(** C7, amended.  The [cv] entry of every row of descriptive statistics
    is [std / mean * 100] rounded to two decimals.  When the mean is zero
    nothing is raised, and the entry is NaN only if the standard deviation
    is zero or NaN itself; for any other standard deviation it is
    infinite. *)
Theorem cv_entry (df : DataFrame) (col : string) (r : DescriptiveRow) :
  In (col, r) (descriptive_statistics df) ->
  d_cv r = fround (fmul (fdiv (d_std r) (d_mean r)) (Fin 100)) 2 /\
  (zero_mean r = true ->
   d_cv r = match d_std r with
            | FNaN => FNaN
            | FInf s => FInf s
            | Fin s => if Qeq_bool s 0 then FNaN else FInf (Qsign_neg s)
            end).
Proof.
  unfold descriptive_statistics. intros H.
  apply in_map_iff in H. destruct H as [[n v] [[= <- <-] _]].
  simpl. split; [reflexivity|].
  unfold zero_mean, coefficient_of_variation. simpl.
  destruct (series_mean (dropna v)) as [| |m]; try discriminate.
  intros Hm. destruct (series_std (dropna v)) as [|s|s]; simpl.
  - reflexivity.
  - assert (Hs : Qsign_neg m = false).
    { unfold Qsign_neg, Qltb. apply Qeq_bool_iff in Hm.
      apply negb_false_iff, Qle_bool_iff. rewrite Hm. apply Qle_refl. }
    rewrite Hs. simpl. destruct s; reflexivity.
  - rewrite Hm. destruct (Qeq_bool s 0); simpl; [reflexivity|].
    rewrite xorb_false_r. reflexivity.
Qed.



End WithStats.

End AnalyzerTheorems.

(** * The code on explicit tables *)

Module Runs.

Import DataCleaner DataAnalyzer CleanerTheorems AnalyzerTheorems InsightRules.

Local Open Scope string_scope.

(** ** Scenarios of the specification *)

(** Scenario 1: among the ages only 1000 is an outlier. *)
Example scenario_outlier :
  option_map
    (fun data => filter (is_outlier (13 # 2)%Q (33 # 2)%Q) data)
    (column_data Tables.ages "age") = Some [inject_Z 1000] /\
  match distribution_analysis (stats := moment_stats) Tables.ages "age" with
  | Ok (Some d) =>
    outliers_count d = 1 /\ Q1 d = (41 # 4)%Q /\ Q3 d = (51 # 4)%Q /\
    (Q1 d - (3 # 2) * IQR d == 13 # 2)%Q /\ (Q3 d + (3 # 2) * IQR d == 33 # 2)%Q
  | _ => False
  end.
Proof. split; [reflexivity|]. vm_compute. repeat split; discriminate. Qed.

(** Scenario 2: the correlation of [x] and [y = 2 x] rounds to 1 and is
    strong. *)
Example scenario_correlation :
  snd (correlation_analysis (stats := moment_stats) Tables.line)
  = [{| var1 := "x"; var2 := "y"; correlation := Fin (1000 # 1000)%Q |}].
Proof. vm_compute. reflexivity. Qed.

(** Scenario 3, scaled to five rows: a value with a share of 60 percent
    yields a dominant-category insight. *)
Example scenario_dominant :
  generate_insights (stats := moment_stats) Tables.towns
    {| numeric := []; categorical := ["city"]; datetime := []; text := [] |}
  = Ok [DominantInsight "city" (Some (VStr (Some "a"))) (6000 # 100)%Q].
Proof. vm_compute. reflexivity. Qed.

(** Scenario 4: the gap among 1 to 8 is filled with 4.5 and the nine rows
    stay. *)
Example scenario_median :
  handle_missing_values Tables.readings
  = mkDataFrame 9
      [("x", FloatCol F64 [Some 1%Q; Some 2%Q; Some 3%Q; Some 4%Q; Some (9 # 2)%Q;
                           Some 5%Q; Some 6%Q; Some 7%Q; Some 8%Q])].
Proof. reflexivity. Qed.

(** Scenario 5: an object column without a present value is filled with
    "Unknown". *)
Example scenario_unknown :
  impute_column (ObjectCol [None; None; None])
  = ObjectCol [Some "Unknown"; Some "Unknown"; Some "Unknown"].
Proof. reflexivity. Qed.

(** A float column without a present value has no median and keeps its
    gaps through the whole pipeline. *)
Example blank_measure_stays_blank :
  exists df' rep,
    auto_clean (pandas := iso_pandas) Tables.blank_measure = Ok (df', rep) /\
    no_missing df' = false.
Proof. eexists. eexists. split; reflexivity. Qed.

(** On a table without rows that has an object column, the narrowing
    step divides by zero. *)
Example auto_clean_without_rows_raises :
  auto_clean (pandas := iso_pandas) Tables.no_rows = Raise ZeroDivisionError.
Proof. reflexivity. Qed.

(** Classified as loaded, the city of [branches] is categorical and its
    dominant value is reported after the insight of the key; classified
    by [auto_clean], after the cast to the category dtype, it is in no
    list and nothing is reported of it. *)
Example cleaned_city_loses_its_insight :
  match detect_column_types (pandas := iso_pandas) Tables.branches with
  | Ok t =>
    categorical t = ["city"] /\
    generate_insights (stats := moment_stats) Tables.branches t
    = Ok [NormalInsight "id";
          DominantInsight "city" (Some (VStr (Some "a"))) (6000 # 100)%Q]
  | Raise _ => False
  end /\
  match auto_clean (pandas := iso_pandas) Tables.branches with
  | Ok (df', rep) =>
    categorical (column_types rep) = [] /\
    generate_insights (stats := moment_stats) df' (column_types rep)
    = Ok [NormalInsight "id"]
  | Raise _ => False
  end.
Proof. vm_compute. repeat split. Qed.

(** The fences follow the float64 operations: of the floats 0.0, 0.1,
    0.5, 1.3 and 3.1 the last is counted as an outlier, because the upper
    fence the source computes is the float below 3.1, although in exact
    arithmetic 3.1 is not above [Q3 + 1.5 * (Q3 - Q1)]. *)
Example upper_fence_is_rounded :
  match distribution_analysis (stats := moment_stats) Tables.margins "margin" with
  | Ok (Some d) =>
    (Q1 d == binary64_round (1 # 10))%Q /\ (Q3 d == binary64_round (13 # 10))%Q /\
    outliers_count d = 1 /\
    (f64_add (Q3 d) (f64_mul (3 # 2) (IQR d)) < binary64_round (31 # 10))%Q /\
    (binary64_round (31 # 10) <= Q3 d + (3 # 2) * (Q3 d - Q1 d))%Q
  | _ => False
  end.
Proof. vm_compute. repeat split; try reflexivity; discriminate. Qed.

(** The percentages follow the floats: 23 missing entries of 160 are
    14.375 percent, the float product lies below and is rounded to
    14.37. *)
Example missing_percentage_is_a_rounded_float :
  missing_values
    (analyze_data_quality
       (mkDataFrame 160
          [("x", FloatCol F64 (repeat None 23 ++ repeat (Some 1%Q) 137))]))
  = [("x", (23, (1437 # 100)%Q))].
Proof. vm_compute. reflexivity. Qed.

(** The mean is a float sum: that of the floats 0.1, 0.2 and -0.3 is not
    zero. *)
Example float_mean_of_cancelling_values :
  match series_mean (map binary64_round [1 # 10; 2 # 10; - (3 # 10)]%Q) with
  | Fin m => (0 < m)%Q /\ (m < 1 # 1000000000000000)%Q
  | _ => False
  end.
Proof. vm_compute. split; reflexivity. Qed.

(** ** The theorems at explicit tables *)

Lemma clean_fills_imputed_columns_witness :
  exists df' rep,
    auto_clean (pandas := iso_pandas) Tables.readings = Ok (df', rep) /\
    Forall2 (fun nc nc' =>
               fst nc' = fst nc /\
               (imputed (snd nc) = true -> isnull_sum (snd nc') = 0))
            (df_cols Tables.readings) (df_cols df').
Proof.
  eexists. eexists. split.
  - reflexivity.
  - destruct (clean_fills_imputed_columns (pandas := iso_pandas) Tables.readings)
      as (_ & _ & _ & H).
    eapply H. reflexivity.
Defined.

Lemma clean_row_count_witness :
  exists df' rep,
    auto_clean (pandas := iso_pandas) Tables.one_gap = Ok (df', rep) /\
    df_len df' + count_true (duplicated (handle_missing_values Tables.one_gap))
    = df_len Tables.one_gap /\
    duplicates_removed rep = 1%Z.
Proof.
  eexists. eexists. split.
  - reflexivity.
  - destruct (clean_row_count (pandas := iso_pandas) Tables.one_gap _ _ eq_refl)
      as (_ & H & _ & _ & _ & Hr & _).
    split; [exact H|exact Hr].
Defined.

Lemma auto_clean_keeps_columns_witness :
  exists df' rep,
    auto_clean (pandas := iso_pandas) Tables.shops = Ok (df', rep) /\
    columns df' = columns Tables.shops.
Proof.
  eexists. eexists. split.
  - reflexivity.
  - destruct (auto_clean_keeps_columns (pandas := iso_pandas) Tables.shops)
      as (_ & _ & _ & H).
    eapply H. reflexivity.
Defined.

Lemma classifier_without_rows_witness :
  wf Tables.no_rows /\ df_len Tables.no_rows = 0 /\
  detect_column_types (pandas := iso_pandas) Tables.no_rows
  = Ok {| numeric := []; categorical := []; datetime := ["note"]; text := [] |}.
Proof.
  assert (Hw : wf Tables.no_rows) by (apply wfb_wf; reflexivity).
  split; [exact Hw|]. split; [reflexivity|].
  exact (classifier_without_rows (pandas := iso_pandas) Tables.no_rows Hw eq_refl).
Defined.

Lemma distribution_analysis_misuse_is_empty_witness :
  ~ In "income" (columns Tables.ages) /\
  distribution_analysis (stats := moment_stats) Tables.ages "income" = Ok None.
Proof.
  assert (H : ~ In "income" (columns Tables.ages)).
  { simpl. intros [H|[]]. discriminate H. }
  split; [exact H|].
  apply (distribution_analysis_misuse_is_empty (stats := moment_stats)).
  left. exact H.
Defined.

Lemma cv_entry_witness :
  let r := describe_column (stats := moment_stats)
             (map (fun z => Some (inject_Z z)) [-3; 0; 3]%Z) in
  In ("z", r) (descriptive_statistics (stats := moment_stats) Tables.balanced) /\
  d_cv r = fround (fmul (fdiv (d_std r) (d_mean r)) (Fin 100)) 2.
Proof.
  intros r.
  assert (H : In ("z", r) (descriptive_statistics (stats := moment_stats) Tables.balanced)).
  { left. reflexivity. }
  split; [exact H|].
  destruct (cv_entry (stats := moment_stats) Tables.balanced "z" r H) as [Hcv _].
  exact Hcv.
Defined.



(** ** Counterexamples to claims as stated *)

(** C1 as stated fails: the cleaned table keeps the missing timestamp of
    a datetime64 column. *)
Lemma clean_leaves_missing_timestamp :
  exists df' rep,
    auto_clean (pandas := iso_pandas) Tables.events = Ok (df', rep) /\
    no_missing df' = false.
Proof. eexists. eexists. split; reflexivity. Qed.

(** C2 as stated fails: the input has two rows and no duplicate row, the
    cleaned table has one row. *)
Lemma imputation_makes_a_duplicate :
  exists df' rep,
    auto_clean (pandas := iso_pandas) Tables.one_gap = Ok (df', rep) /\
    df_len Tables.one_gap = 2 /\
    count_true (duplicated Tables.one_gap) = 0 /\
    df_len df' = 1.
Proof. eexists. eexists. repeat split; reflexivity. Qed.

(** C4 as stated fails: on an absent column and on an object column
    distribution analysis raises nothing and returns the empty result. *)
Lemma distribution_analysis_signals_nothing :
  distribution_analysis (stats := moment_stats) Tables.ages "income" = Ok None /\
  distribution_analysis (stats := moment_stats) Tables.towns "city" = Ok None /\
  Py.raised (distribution_analysis (stats := moment_stats) Tables.ages "income") = false /\
  Py.raised (distribution_analysis (stats := moment_stats) Tables.towns "city") = false.
Proof. repeat split. Qed.

(** C5 as stated fails: the object column of a table without rows has
    fewer than twenty distinct values and is classified datetime, not
    categorical. *)
Lemma empty_object_column_is_datetime :
  (nunique [] <? 20)%nat = true /\
  detect_column_types (pandas := iso_pandas) Tables.no_rows
  = Ok {| numeric := []; categorical := []; datetime := ["note"]; text := [] |}.
Proof. split; reflexivity. Qed.


(** C7 as stated fails: for a column with mean zero and standard
    deviation three the coefficient of variation is infinite, not NaN. *)
Lemma cv_of_zero_mean_is_infinite :
  exists r,
    descriptive_statistics (stats := moment_stats) Tables.balanced = [("z", r)] /\
    zero_mean r = true /\
    d_cv r = FInf false /\
    is_nan (d_cv r) = false.
Proof. eexists. split; [vm_compute; reflexivity|]. repeat split. Qed.

End Runs.

(** * Further properties of the cleaning engine *)

Module CleanerMore.

Import DataCleaner CleanerFacts.

(** ** Imputation twice *)

Lemma impute_column_complete (c : column) :
  isnull_sum c = 0 -> impute_column c = c.
Proof. intros H. unfold impute_column. rewrite H. reflexivity. Qed.

Lemma impute_column_cases (c : column) :
  impute_column c = c \/ isnull_sum (impute_column c) = 0.
Proof.
  rewrite impute_column_spec.
  destruct c as [w v|w v|v|v|v|v]; simpl; auto.
  - destruct (median v); simpl; auto using count_none_fillna.
  - right. apply count_none_fillna.
Qed.

Lemma impute_column_idempotent (c : column) :
  impute_column (impute_column c) = impute_column c.
Proof.
  destruct (impute_column_cases c) as [H|H].
  - rewrite H. exact H.
  - apply impute_column_complete. exact H.
Qed.

Lemma map_pair_id {A B : Type} (f : B -> B) (l : list (A * B)) :
  (forall x, In x l -> f (snd x) = snd x) ->
  map (fun nc => (fst nc, f (snd nc))) l = l.
Proof.
  induction l as [|[a b] l IH]; simpl; intros H; auto.
  f_equal.
  - f_equal. apply (H (a, b)). auto.
  - apply IH. auto.
Qed.

Lemma handle_missing_values_complete (df : DataFrame) :
  no_missing df = true -> handle_missing_values df = df.
Proof.
  unfold no_missing, handle_missing_values. intros H.
  rewrite forallb_forall in H.
  destruct df as [n cols]. simpl in *. f_equal.
  apply map_pair_id. intros x Hx. apply impute_column_complete.
  apply Nat.eqb_eq. auto.
Qed.

Lemma count_true_repeat_false (n : nat) : count_true (repeat false n) = 0.
Proof. unfold count_true. induction n; simpl; auto. Qed.

(** X3.  Imputing an imputed table changes nothing, and a table without
    missing entries is returned as it is. *)
Theorem handle_missing_values_idempotent (df : DataFrame) :
  handle_missing_values (handle_missing_values df) = handle_missing_values df /\
  (no_missing df = true -> handle_missing_values df = df).
Proof.
  split.
  - unfold handle_missing_values. simpl. f_equal.
    rewrite map_map. simpl. apply map_ext.
    intros [n c]. simpl. rewrite impute_column_idempotent. reflexivity.
  - apply handle_missing_values_complete.
Qed.

(** ** Rows of a deduplicated table *)

Lemma cells_col_drop_marked (mask : list bool) (c : column) :
  cells (col_drop_marked mask c) = drop_marked mask (cells c).
Proof.
  assert (H : forall (A B : Type) (f : A -> B) (m : list bool) (l : list A),
             map f (drop_marked m l) = drop_marked m (map f l)).
  { intros A B f m. induction m as [|b m IH]; intros [|x l]; simpl; auto.
    destruct b; simpl; rewrite IH; reflexivity. }
  destruct c; simpl; apply H.
Qed.

Lemma cells_length (c : column) : length (cells c) = col_len c.
Proof. destruct c; simpl; apply length_map. Qed.

Lemma rows_rows_of (df : DataFrame) :
  rows df = rows_of (map (fun nc => cells (snd nc)) (df_cols df)) (df_len df).
Proof.
  unfold rows, rows_of, row_at. apply map_ext. intros i.
  rewrite map_map. reflexivity.
Qed.

Lemma rows_of_cons (css : list (list cell)) (n : nat) :
  Forall (fun cs => length cs = S n) css ->
  rows_of css (S n) = map (fun cs => nth_error cs 0) css :: rows_of (map (@tl cell) css) n.
Proof.
  intros H. unfold rows_of. simpl. f_equal.
  rewrite <- seq_shift, map_map. apply map_ext. intros i.
  rewrite map_map. apply map_ext_in. intros cs Hin.
  rewrite Forall_forall in H. specialize (H cs Hin).
  destruct cs; [discriminate|reflexivity].
Qed.

Lemma rows_of_drop_marked (mask : list bool) (css : list (list cell)) :
  Forall (fun cs => length cs = length mask) css ->
  rows_of (map (drop_marked mask) css) (length (filter negb mask))
  = drop_marked mask (rows_of css (length mask)).
Proof.
  revert css. induction mask as [|b mask IH]; intros css H.
  - reflexivity.
  - simpl length in H.
    assert (Ht : Forall (fun cs => length cs = length mask) (map (@tl cell) css)).
    { apply Forall_map. eapply Forall_impl; [|exact H].
      intros [|x cs]; simpl; intros Hc; [discriminate|lia]. }
    cbn [length]. rewrite (rows_of_cons css (length mask) H).
    assert (Hd : map (drop_marked (b :: mask)) css
                 = if b then map (drop_marked mask) (map (@tl cell) css)
                   else map (fun cs => match cs with
                                       | x :: cs' => x :: drop_marked mask cs'
                                       | [] => []
                                       end) css).
    { destruct b; [rewrite map_map|]; apply map_ext_in; intros cs Hin;
        rewrite Forall_forall in H; specialize (H cs Hin);
        destruct cs; [discriminate|reflexivity|discriminate|reflexivity]. }
    rewrite Hd. destruct b; simpl.
    + apply IH. exact Ht.
    + rewrite rows_of_cons.
      * apply f_equal2.
        -- rewrite map_map. apply map_ext_in. intros cs Hin.
           rewrite Forall_forall in H. specialize (H cs Hin).
           destruct cs; [discriminate|reflexivity].
        -- rewrite map_map.
           rewrite <- (IH _ Ht). f_equal. rewrite map_map.
           apply map_ext_in. intros cs Hin.
           rewrite Forall_forall in H. specialize (H cs Hin).
           destruct cs; [discriminate|reflexivity].
      * apply Forall_map. eapply Forall_impl; [|exact H].
        intros cs Hc. destruct cs; [discriminate|]. simpl in *.
        rewrite drop_marked_length by lia. reflexivity.
Qed.

(** A row kept by [mark_repeats] repeats no row kept before it. *)
Lemma kept_rows_are_distinct (seen' seen rs : list row) :
  (forall r, existsb (row_eqb r) seen = true -> existsb (row_eqb r) seen' = true) ->
  mark_repeats seen (drop_marked (mark_repeats seen' rs) rs)
  = repeat false (length (filter negb (mark_repeats seen' rs))).
Proof.
  revert seen' seen. induction rs as [|r rs IH]; intros seen' seen H.
  - reflexivity.
  - simpl. destruct (existsb (row_eqb r) seen') eqn:E; simpl.
    + apply IH. intros x Hx. simpl. rewrite (H x Hx). apply orb_true_r.
    + f_equal.
      * apply not_true_iff_false. intros Hs. apply H in Hs. congruence.
      * apply IH. intros x Hx. simpl in *.
        apply orb_true_iff in Hx. apply orb_true_iff.
        destruct Hx as [Hx|Hx]; auto.
Qed.

Lemma drop_marked_all_false {A : Type} (l : list A) :
  drop_marked (repeat false (length l)) l = l.
Proof. induction l; simpl; congruence. Qed.

Lemma filter_negb_all_false (n : nat) :
  filter negb (repeat false n) = repeat false n.
Proof. induction n; simpl; congruence. Qed.

Lemma col_drop_marked_all_false (c : column) :
  col_drop_marked (repeat false (col_len c)) c = c.
Proof. destruct c; simpl; rewrite drop_marked_all_false; reflexivity. Qed.

Lemma drop_nothing (df : DataFrame) :
  wf df -> duplicated df = repeat false (df_len df) -> drop_duplicates df = df.
Proof.
  intros Hw Hd. unfold drop_duplicates. rewrite Hd.
  rewrite filter_negb_all_false, repeat_length.
  destruct df as [n cols]. simpl in *. f_equal.
  unfold wf in Hw. simpl in Hw. rewrite Forall_forall in Hw.
  rewrite <- (map_id cols) at 2. apply map_ext_in. intros [l c] Hin.
  simpl. f_equal. rewrite <- (Hw _ Hin). apply col_drop_marked_all_false.
Qed.

Lemma duplicated_drop_duplicates (df : DataFrame) :
  wf df ->
  duplicated (drop_duplicates df) = repeat false (df_len (drop_duplicates df)).
Proof.
  intros Hw. unfold duplicated at 1.
  destruct (df_empty (drop_duplicates df)) eqn:Ee; [reflexivity|].
  assert (Hne : df_empty df = false).
  { unfold df_empty in *. simpl in Ee. rewrite length_map in Ee.
    apply orb_false_iff in Ee. destruct Ee as [E1 E2]. rewrite E2.
    rewrite orb_false_r. apply Nat.eqb_neq. intros Hz.
    apply Nat.eqb_neq in E1. apply E1.
    pose proof (duplicated_length df) as Hl. rewrite Hz in Hl.
    apply length_zero_iff_nil in Hl. rewrite Hl. reflexivity. }
  rewrite rows_rows_of. unfold drop_duplicates at 1 2. simpl.
  rewrite map_map. simpl.
  assert (Hm : duplicated df = mark_repeats [] (rows df)).
  { unfold duplicated. rewrite Hne. reflexivity. }
  assert (Hc : map (fun nc => cells (col_drop_marked (duplicated df) (snd nc))) (df_cols df)
               = map (drop_marked (duplicated df))
                     (map (fun nc => cells (snd nc)) (df_cols df))).
  { rewrite map_map. apply map_ext. intros nc. apply cells_col_drop_marked. }
  rewrite Hc, rows_of_drop_marked.
  - rewrite duplicated_length, <- rows_rows_of, Hm.
    apply kept_rows_are_distinct. auto.
  - apply Forall_map. eapply Forall_impl; [|exact Hw].
    intros nc Hn. rewrite cells_length, duplicated_length. exact Hn.
Qed.


(** ** Imputation keeps equal rows equal *)

Lemma cells_impute_column (c : column) :
  cells (impute_column c) = map (fill_cell c) (cells c).
Proof.
  rewrite impute_column_spec.
  destruct c as [w v|w v|v|v|v|v]; simpl;
    try (rewrite map_map; apply map_ext; intros ?; reflexivity).
  - destruct (median v) as [m|] eqn:Em; simpl.
    + unfold fillna. rewrite !map_map. apply map_ext.
      intros [q|]; simpl; rewrite ?Em; reflexivity.
    + rewrite map_map. apply map_ext.
      intros [q|]; simpl; rewrite ?Em; reflexivity.
  - unfold fillna. rewrite !map_map. apply map_ext. intros [q|]; reflexivity.
Qed.

Lemma fill_cell_eqb (c : column) (x y : cell) :
  cell_eqb x y = true -> cell_eqb (fill_cell c x) (fill_cell c y) = true.
Proof.
  destruct c as [w v|w v|v|v|v|v]; simpl; auto.
  - destruct x as [a|[a|]|a|a|a], y as [b|[b|]|b|b|b]; simpl; auto; try discriminate.
    destruct (median v); simpl; auto. intros _. apply Qeq_bool_refl.
  - destruct x as [a|a|a|[a|]|a], y as [b|b|b|[b|]|b]; simpl; auto; try discriminate.
    intros _. apply String.eqb_refl.
Qed.

Lemma row_at_impute (df : DataFrame) (i j : nat) :
  row_eqb (row_at df i) (row_at df j) = true ->
  row_eqb (row_at (handle_missing_values df) i)
          (row_at (handle_missing_values df) j) = true.
Proof.
  unfold row_at, handle_missing_values. simpl.
  induction (df_cols df) as [|[n c] cols IH]; simpl; auto.
  intros H. apply andb_true_iff in H. destruct H as [H1 H2].
  apply andb_true_iff. split; auto.
  rewrite cells_impute_column, !nth_error_map.
  destruct (nth_error (cells c) i), (nth_error (cells c) j); simpl in *;
    auto using fill_cell_eqb.
Qed.

Lemma count_true_le (m1 m2 : list bool) :
  length m1 = length m2 ->
  (forall i, nth_error m1 i = Some true -> nth_error m2 i = Some true) ->
  count_true m1 <= count_true m2.
Proof.
  unfold count_true. revert m2.
  induction m1 as [|a m1 IH]; intros [|b m2] Hl H; simpl in *; try lia.
  assert (IH' : length (filter (fun b => b) m1) <= length (filter (fun b => b) m2)).
  { apply IH; [lia|]. intros i Hi. apply (H (S i)). exact Hi. }
  destruct a; simpl.
  - specialize (H 0 eq_refl). simpl in H. injection H as ->. simpl. lia.
  - destruct b; simpl; lia.
Qed.

Lemma nth_error_repeat_false (n i : nat) :
  nth_error (repeat false n) i <> Some true.
Proof.
  revert i. induction n as [|n IH]; intros [|i]; simpl; try discriminate.
  apply IH.
Qed.

Lemma duplicated_after_imputation (df : DataFrame) :
  count_true (duplicated df) <= count_true (duplicated (handle_missing_values df)).
Proof.
  apply count_true_le.
  - rewrite !duplicated_length. reflexivity.
  - intros i Hi.
    assert (Hlt : i < df_len df).
    { rewrite <- duplicated_length. apply nth_error_Some. congruence. }
    destruct (df_empty df) eqn:Ee.
    + exfalso. unfold duplicated in Hi. rewrite Ee in Hi.
      exact (nth_error_repeat_false _ _ Hi).
    + assert (Ee' : df_empty (handle_missing_values df) = false).
      { unfold df_empty, handle_missing_values in *. simpl.
        rewrite length_map. exact Ee. }
      apply (duplicated_spec df i Ee Hlt) in Hi.
      destruct Hi as [j [Hj Heq]].
      apply (duplicated_spec (handle_missing_values df) i Ee' Hlt).
      exists j. split; auto using row_at_impute.
Qed.

(** X4.  A deduplicated table has no duplicate row, so that removing
    duplicates again changes nothing; and a table with rows keeps at
    least one. *)
Theorem remove_duplicates_leaves_none (df : DataFrame) :
  wf df ->
  count_true (duplicated (remove_duplicates df)) = 0 /\
  remove_duplicates (remove_duplicates df) = remove_duplicates df /\
  (0 < df_len df -> 0 < df_len (remove_duplicates df)).
Proof.
  intros Hw. unfold remove_duplicates.
  pose proof (duplicated_drop_duplicates df Hw) as Hd.
  split; [|split].
  - rewrite Hd. apply count_true_repeat_false.
  - apply drop_nothing; auto using wf_drop_duplicates.
  - apply drop_duplicates_keeps_a_row.
Qed.

Section WithPandas.

Context {pandas : Pandas}.

(** ** Rounding stays within whole bounds *)

Lemma Qround_digits_percent (q : Q) :
  (0 <= q)%Q -> (q <= 100)%Q ->
  (0 <= Qround_digits q 2)%Q /\ (Qround_digits q 2 <= 100)%Q.
Proof.
  intros H0 H1. unfold Qround_digits.
  change (10 ^ Z.of_nat 2)%Z with 100%Z.
  destruct (Qround_half_even_between 0 10000 (q * inject_Z 100)) as [Ha Hb].
  - change (inject_Z 0) with 0%Q. change (inject_Z 100) with 100%Q. lra.
  - change (inject_Z 10000) with 10000%Q. change (inject_Z 100) with 100%Q. lra.
  - rewrite Zle_Qle in Ha, Hb.
    change (inject_Z 0) with 0%Q in Ha. change (inject_Z 10000) with 10000%Q in Hb.
    change (inject_Z 100) with 100%Q in *.
    remember (inject_Z (Qround_half_even (q * 100))) as r eqn:Er.
    clear Er. split.
    + apply Qle_shift_div_l; lra.
    + apply Qle_shift_div_r; lra.
Qed.

(** The percentage [round(k / n * 100, 2)] of Python floats. *)
Lemma py_percentage (k n : nat) :
  0 < n -> k <= n ->
  let pct := Qround_digits (f64_mul (f64_div (inject_Z (Z.of_nat k))
                                             (inject_Z (Z.of_nat n))) 100) 2 in
  (0 <= pct)%Q /\ (pct <= 100)%Q.
Proof.
  intros Hn Hk. cbv zeta.
  destruct (float_percentage k n Hn Hk) as [H0 H1].
  apply Qround_digits_percent; assumption.
Qed.

(** ** The missing-value part of the quality report *)

Lemma missing_report_labels (n : nat) (cols : list (string * column)) :
  map fst (missing_report n cols)
  = map fst (filter (fun nc => 0 <? isnull_sum (snd nc)) cols).
Proof.
  induction cols as [|[col c] cols IH]; simpl; auto.
  destruct (0 <? isnull_sum c); simpl; congruence.
Qed.

Lemma missing_report_entries (n : nat) (cols : list (string * column)) :
  Forall (fun nc => col_len (snd nc) = n) cols ->
  Forall (fun e => 0 < fst (snd e) <= n /\
                   (0 <= snd (snd e))%Q /\ (snd (snd e) <= 100)%Q)
         (missing_report n cols).
Proof.
  induction 1 as [|[col c] cols Hc _ IH]; simpl; [constructor|].
  destruct (0 <? isnull_sum c) eqn:E; [|exact IH].
  apply Nat.ltb_lt in E. simpl in Hc.
  assert (Hle : isnull_sum c <= n).
  { rewrite <- Hc. destruct c; simpl; try lia; apply filter_length_le. }
  constructor; [|exact IH]. simpl. split; [lia|].
  apply np_percentage; lia.
Qed.

Lemma missing_report_nil (n : nat) (cols : list (string * column)) :
  missing_report n cols = [] <->
  forallb (fun nc => isnull_sum (snd nc) =? 0) cols = true.
Proof.
  induction cols as [|[col c] cols IH]; simpl; [tauto|].
  destruct (isnull_sum c) as [|k]; simpl.
  - exact IH.
  - split; discriminate.
Qed.

(** ** When the pipeline raises *)

Lemma optimize_column_not_object (c : column) :
  is_object_dtype c = false -> exists c', optimize_column c = Ok c'.
Proof.
  destruct c as [[]|[]|?|?|?|?]; simpl; try discriminate; eauto.
  destruct (list_min vals), (list_max vals); eauto.
Qed.

Lemma optimize_loop_no_object (cols : list (string * column)) :
  existsb (fun nc => is_object_dtype (snd nc)) cols = false ->
  exists cols', optimize_loop cols = Ok cols'.
Proof.
  induction cols as [|[n c] cols IH]; simpl; eauto.
  intros H. apply orb_false_iff in H. destruct H as [Hc Hr].
  destruct (optimize_column_not_object c Hc) as [c' ->].
  destruct (IH Hr) as [rest ->]. simpl. eauto.
Qed.

Lemma optimize_loop_empty_object (cols : list (string * column)) :
  Forall (fun nc => col_len (snd nc) = 0) cols ->
  existsb (fun nc => is_object_dtype (snd nc)) cols = true ->
  optimize_loop cols = Raise ZeroDivisionError.
Proof.
  induction 1 as [|[n c] cols Hc _ IH]; simpl; [discriminate|].
  intros H. destruct (is_object_dtype c) eqn:Eo.
  - destruct c; try discriminate. simpl in Hc.
    apply length_zero_iff_nil in Hc. subst. reflexivity.
  - simpl in H. destruct (optimize_column_not_object c Eo) as [c' ->].
    simpl. rewrite (IH H). reflexivity.
Qed.

Lemma is_object_impute (c : column) :
  is_object_dtype (impute_column c) = is_object_dtype c.
Proof.
  rewrite impute_column_spec. destruct c as [w v|w v|v|v|v|v]; simpl; auto.
  destruct (median v); reflexivity.
Qed.

Lemma is_object_drop_marked (m : list bool) (c : column) :
  is_object_dtype (col_drop_marked m c) = is_object_dtype c.
Proof. destruct c; reflexivity. Qed.

Lemma object_columns_cleaned (df : DataFrame) :
  existsb (fun nc => is_object_dtype (snd nc))
          (df_cols (drop_duplicates (handle_missing_values df)))
  = existsb (fun nc => is_object_dtype (snd nc)) (df_cols df).
Proof.
  unfold drop_duplicates, handle_missing_values. simpl.
  rewrite map_map. simpl.
  generalize (duplicated
                {| df_len := df_len df;
                   df_cols := map (fun nc => (fst nc, impute_column (snd nc)))
                                  (df_cols df) |}).
  intros m. induction (df_cols df) as [|[n c] cols IH]; simpl; auto.
  rewrite is_object_drop_marked, is_object_impute, IH. reflexivity.
Qed.

(** ** Narrowing keeps the entries *)

Lemma fold_min_le (l : list Z) (x : Z) :
  (fold_left Z.min l x <= x)%Z /\ Forall (fun v => (fold_left Z.min l x <= v)%Z) l.
Proof.
  revert x. induction l as [|y l IH]; intros x; simpl.
  - split; [lia|constructor].
  - destruct (IH (Z.min x y)) as [H1 H2]. split; [lia|].
    constructor; [lia|exact H2].
Qed.

Lemma fold_max_ge (l : list Z) (x : Z) :
  (x <= fold_left Z.max l x)%Z /\ Forall (fun v => (v <= fold_left Z.max l x)%Z) l.
Proof.
  revert x. induction l as [|y l IH]; intros x; simpl.
  - split; [lia|constructor].
  - destruct (IH (Z.max x y)) as [H1 H2]. split; [lia|].
    constructor; [lia|exact H2].
Qed.

Lemma fold_min_in (l : list Z) (x : Z) : In (fold_left Z.min l x) (x :: l).
Proof.
  revert x. induction l as [|y l IH]; intros x; [left; reflexivity|].
  cbn [fold_left]. destruct (IH (Z.min x y)) as [H|H].
  - rewrite <- H.
    destruct (Z.min_spec x y) as [[_ E]|[_ E]]; rewrite E;
      [left|right; left]; reflexivity.
  - right. right. exact H.
Qed.

Lemma fold_max_in (l : list Z) (x : Z) : In (fold_left Z.max l x) (x :: l).
Proof.
  revert x. induction l as [|y l IH]; intros x; [left; reflexivity|].
  cbn [fold_left]. destruct (IH (Z.max x y)) as [H|H].
  - rewrite <- H.
    destruct (Z.max_spec x y) as [[_ E]|[_ E]]; rewrite E;
      [right; left|left]; reflexivity.
  - right. right. exact H.
Qed.

Lemma narrowed_int_column (vals : list Z) (c' : column) :
  Forall (fun v => (iinfo_min W64 <= v <= iinfo_max W64)%Z) vals ->
  optimize_column (IntCol W64 vals) = Ok c' ->
  exists w, c' = IntCol w vals /\
            Forall (fun v => (iinfo_min w <= v <= iinfo_max w)%Z) vals.
Proof.
  intros Hr. simpl. destruct vals as [|x l].
  - simpl. intros [= <-]. exists W64. split; auto.
  - cbn [list_min list_max]. intros [= <-].
    exists (narrow_width (fold_left Z.min l x) (fold_left Z.max l x)).
    split; [reflexivity|].
    destruct (fold_min_le l x) as [Hm1 Hm2].
    destruct (fold_max_ge l x) as [HM1 HM2].
    assert (Hb : bounds W64 (fold_left Z.min l x) (fold_left Z.max l x) = true).
    { rewrite Forall_forall in Hr.
      pose proof (Hr _ (fold_min_in l x)) as H1.
      pose proof (Hr _ (fold_max_in l x)) as H2.
      unfold bounds. apply andb_true_iff. split; apply Z.leb_le; lia. }
    apply narrow_width_bounds in Hb. unfold bounds in Hb.
    apply andb_true_iff in Hb. destruct Hb as [B1 B2].
    apply Z.leb_le in B1. apply Z.leb_le in B2.
    constructor; [lia|].
    rewrite Forall_forall in *. intros v Hv.
    specialize (Hm2 v Hv). specialize (HM2 v Hv). lia.
Qed.

Lemma optimize_column_cells (c c' : column) :
  optimize_column c = Ok c' ->
  match c with
  | FloatCol F64 vals => c' = FloatCol F32 (map (option_map astype_float32) vals)
  | _ => cells c' = cells c
  end.
Proof.
  destruct c as [[]|[]|?|?|?|?]; simpl; try (intros [= <-]; reflexivity).
  - destruct (list_min vals), (list_max vals); intros [= <-]; reflexivity.
  - destruct (truediv _ _); simpl; [|discriminate].
    destruct (Qltb _ _); intros [= <-]; reflexivity.
Qed.

(** ** The classifier's decision table *)

Lemma ratio_below_five_percent (n len : nat) :
  0 < len ->
  Qltb (Z.of_nat n # Pos.of_nat len) (5 # 100) = (20 * n <? len).
Proof.
  intros Hl. apply eq_true_iff_eq. rewrite Qltb_iff, Nat.ltb_lt.
  unfold Qlt. cbn [Qnum Qden].
  assert (Hp : Z.pos (Pos.of_nat len) = Z.of_nat len).
  { rewrite <- positive_nat_Z, Nat2Pos.id by lia. reflexivity. }
  rewrite Hp. lia.
Qed.

Lemma NoDup_fst_functional {A B : Type} (l : list (A * B)) (a : A) (b b' : B) :
  NoDup (map fst l) -> In (a, b) l -> In (a, b') l -> b = b'.
Proof.
  induction l as [|[x y] l IH]; simpl; intros Hn H1 H2; [contradiction|].
  inversion Hn as [|? ? Hnot Hn']; subst.
  destruct H1 as [H1|H1], H2 as [H2|H2].
  - congruence.
  - exfalso. apply Hnot. apply (in_map fst) in H2. simpl in H2. congruence.
  - exfalso. apply Hnot. apply (in_map fst) in H1. simpl in H1. congruence.
  - auto.
Qed.

Lemma in_labels_among (k : category) (len_df : nat) (cols : list (string * column))
  (col : string) :
  In col (labels_among k len_df cols) <->
  exists c, In (col, c) cols /\ classify len_df c = Some k.
Proof.
  unfold labels_among. rewrite in_map_iff. split.
  - intros [[n c] [Hn Hin]]. simpl in Hn. subst n.
    apply filter_In in Hin. destruct Hin as [Hin Hk]. simpl in Hk.
    exists c. split; auto.
    destruct (classify len_df c) as [k'|]; [|discriminate].
    destruct k, k'; simpl in Hk; congruence.
  - intros [c [Hin Hk]]. exists (col, c). split; auto.
    apply filter_In. split; auto. simpl. rewrite Hk. destruct k; reflexivity.
Qed.

Lemma detect_loop_needs_rows (len_df : nat) (cols : list (string * column))
  (t t' : ColumnTypes) (col : string) (vals : list (option string)) :
  detect_loop len_df cols t = Ok t' ->
  In (col, ObjectCol vals) cols -> to_datetime_ok vals = false -> 0 < len_df.
Proof.
  revert t. induction cols as [|[n c] cols IH]; intros t; simpl; [contradiction|].
  intros H [[= -> ->]|Hin] Hd.
  - simpl in H. rewrite Hd in H. destruct len_df; [discriminate|lia].
  - destruct (detect_step len_df t n c) as [t1|]; simpl in H; [|discriminate].
    eapply IH; eauto.
Qed.

Lemma labels_permutation (len_df : nat) (cols : list (string * column)) :
  Permutation
    (labels_among Numeric len_df cols ++ labels_among Categorical len_df cols
     ++ labels_among Datetime len_df cols ++ labels_among Text len_df cols)
    (map fst (filter (fun nc => match classify len_df (snd nc) with
                                | Some _ => true
                                | None => false
                                end) cols)).
Proof.
  unfold labels_among.
  induction cols as [|[n c] cols IH]; simpl; [constructor|].
  destruct (classify len_df c) as [[]|]; simpl.
  - constructor. exact IH.
  - etransitivity; [symmetry; apply Permutation_middle|].
    constructor. exact IH.
  - rewrite app_assoc. simpl.
    etransitivity; [symmetry; apply Permutation_middle|].
    rewrite <- app_assoc. constructor. exact IH.
  - rewrite !app_assoc.
    etransitivity; [symmetry; apply Permutation_middle|].
    rewrite <- !app_assoc. constructor. exact IH.
  - exact IH.
Qed.

(** Selecting entries keeps their keys distinct. *)
Lemma kept_keys_distinct {A K : Type} (key : A -> K) (keep : A -> bool) :
  forall cols : list A,
    NoDup (map key cols) -> NoDup (map key (filter keep cols)).
Proof.
  intros cols Hn. induction cols as [|nc cols IH]; [constructor|].
  cbn [map] in Hn. apply NoDup_cons_iff in Hn. destruct Hn as [Hnot Hn].
  cbn [filter]. destruct (keep nc); [|exact (IH Hn)].
  cbn [map]. constructor; [|exact (IH Hn)].
  intros Hin. apply Hnot. apply in_map_iff in Hin.
  destruct Hin as [y [Hy Hf]]. apply filter_In in Hf.
  apply in_map_iff. exists y. tauto.
Qed.

(** X5.  The quality report lists exactly the columns with a missing
    entry, in column order, and is empty exactly for a table without
    missing entries; each count is positive and at most the row count,
    each percentage lies between 0 and 100, and a table with rows has
    fewer duplicates than rows. *)
Theorem quality_report_missing_values (df : DataFrame) :
  wf df ->
  map fst (missing_values (analyze_data_quality df))
  = map fst (filter (fun nc => 0 <? isnull_sum (snd nc)) (df_cols df)) /\
  (missing_values (analyze_data_quality df) = [] <-> no_missing df = true) /\
  Forall (fun e => 0 < fst (snd e) <= total_rows (analyze_data_quality df) /\
                   (0 <= snd (snd e))%Q /\ (snd (snd e) <= 100)%Q)
         (missing_values (analyze_data_quality df)) /\
  (0 < total_rows (analyze_data_quality df) ->
   duplicates (analyze_data_quality df) < total_rows (analyze_data_quality df)).
Proof.
  intros Hw. unfold analyze_data_quality.
  cbn [missing_values total_rows duplicates].
  split; [apply missing_report_labels|].
  split; [apply missing_report_nil|].
  split; [apply missing_report_entries; exact Hw|].
  intros Hn.
  pose proof (drop_duplicates_len df).
  pose proof (drop_duplicates_keeps_a_row df Hn). lia.
Qed.

(** X13.  On a well-formed table [auto_clean] raises exactly when the
    table has no rows and has an object column, and then it is the
    division by zero of the narrowing step; it raises nothing else. *)
Theorem auto_clean_raises_iff (df : DataFrame) :
  wf df ->
  (auto_clean df = Raise ZeroDivisionError <->
   df_len df = 0 /\
   existsb (fun nc => is_object_dtype (snd nc)) (df_cols df) = true) /\
  (forall e, auto_clean df = Raise e -> e = ZeroDivisionError).
Proof.
  intros Hw.
  pose proof (wf_drop_duplicates _ (wf_handle_missing_values _ Hw)) as Hw2.
  assert (Hcases :
    (df_len df = 0 /\
     existsb (fun nc => is_object_dtype (snd nc)) (df_cols df) = true /\
     auto_clean df = Raise ZeroDivisionError) \/
    ((0 < df_len df \/
      existsb (fun nc => is_object_dtype (snd nc)) (df_cols df) = false) /\
     exists r, auto_clean df = Ok r)).
  { destruct (df_len df) as [|k] eqn:En.
    - destruct (existsb (fun nc => is_object_dtype (snd nc)) (df_cols df)) eqn:Eo.
      + left. split; auto. split; auto.
        unfold auto_clean, remove_duplicates, optimize_dtypes.
        rewrite optimize_loop_empty_object; [reflexivity| |].
        * unfold wf in Hw2. eapply Forall_impl; [|exact Hw2].
          intros nc Hnc. rewrite Hnc.
          pose proof (drop_duplicates_len (handle_missing_values df)) as Hd.
          change (df_len (handle_missing_values df)) with (df_len df) in Hd. lia.
        * rewrite object_columns_cleaned. exact Eo.
      + right. split; auto.
        destruct (optimize_loop_no_object
                    (df_cols (drop_duplicates (handle_missing_values df))))
          as [cols Hc].
        { rewrite object_columns_cleaned. exact Eo. }
        assert (Ho : optimize_dtypes (drop_duplicates (handle_missing_values df))
                     = Ok {| df_len := df_len (drop_duplicates (handle_missing_values df));
                             df_cols := cols |}).
        { unfold optimize_dtypes. rewrite Hc. reflexivity. }
        destruct (detect_column_types_returns _ (wf_optimize_dtypes _ _ Hw2 Ho)) as [t Ht].
        unfold auto_clean, remove_duplicates. rewrite Ho.
        cbn [Py.bind]. rewrite Ht. cbn [Py.bind]. eauto.
    - right. split; [left; lia|].
      destruct (auto_clean_returns df Hw) as [df' [rep Hr]]; [lia|]. eauto. }
  split; [split|].
  - intros Hr. destruct Hcases as [(H1 & H2 & _)|[_ [r Hok]]]; auto. congruence.
  - intros [H1 H2]. destruct Hcases as [(_ & _ & H3)|[[Hp|Hn] _]]; auto.
    + lia.
    + congruence.
  - intros e He. destruct Hcases as [(_ & _ & H3)|[_ [r Hok]]]; congruence.
Qed.

(** X14.  Narrowing loses no entry: an int64 column keeps its values and
    every value lies in the signed range of the width chosen for it, and
    every column other than a float64 column keeps its entries. *)
Theorem narrowing_keeps_entries (c c' : column) :
  optimize_column c = Ok c' ->
  match c with
  | FloatCol F64 vals => c' = FloatCol F32 (map (option_map astype_float32) vals)
  | _ => cells c' = cells c
  end /\
  (forall vals,
     c = IntCol W64 vals ->
     Forall (fun v => (iinfo_min W64 <= v <= iinfo_max W64)%Z) vals ->
     exists w, c' = IntCol w vals /\
               Forall (fun v => (iinfo_min w <= v <= iinfo_max w)%Z) vals).
Proof.
  intros H. split.
  - apply optimize_column_cells. exact H.
  - intros vals -> Hr. apply narrowed_int_column; assumption.
Qed.

(** X15.  With distinct column labels no label is classified twice: the
    four lists together are free of repetitions, hold only labels of the
    table, and so are at most as many as the columns. *)
Theorem classification_is_exclusive (df : DataFrame) (t : ColumnTypes) :
  NoDup (columns df) ->
  detect_column_types df = Ok t ->
  NoDup (classified t) /\
  incl (classified t) (columns df) /\
  length (classified t) <= length (columns df).
Proof.
  intros Hn H. apply detect_column_types_labels in H.
  destruct H as (H1 & H2 & H3 & H4).
  unfold classified. rewrite H1, H2, H3, H4. unfold labels_of.
  pose proof (labels_permutation (df_len df) (df_cols df)) as Hp.
  set (kept := filter (fun nc => match classify (df_len df) (snd nc) with
                                 | Some _ => true
                                 | None => false
                                 end) (df_cols df)) in *.
  assert (Hk : NoDup (map fst kept)) by (apply kept_keys_distinct; exact Hn).
  split; [|split].
  - eapply Permutation_NoDup; [symmetry; exact Hp|exact Hk].
  - intros x Hx. apply (Permutation_in _ Hp) in Hx.
    apply in_map_iff in Hx. destruct Hx as [y [Hy Hf]].
    apply filter_In in Hf. apply in_map_iff. exists y. tauto.
  - rewrite (Permutation_length Hp). unfold columns.
    rewrite !length_map. apply filter_length_le.
Qed.

(** X16.  The decision table of the classifier, for a table with distinct
    labels on which it returns: a column is numeric exactly when its
    dtype is numeric; an object column is datetime exactly when it parses
    as dates; otherwise it is categorical exactly when it has fewer than
    twenty distinct values or fewer than a twentieth of the rows, and
    text exactly when neither holds. *)
Theorem classifier_decision_table (df : DataFrame) (t : ColumnTypes)
  (col : string) (c : column) :
  NoDup (columns df) ->
  detect_column_types df = Ok t ->
  In (col, c) (df_cols df) ->
  (In col (numeric t) <-> is_numeric_dtype c = true) /\
  (In col (datetime t) <->
   exists vals, c = ObjectCol vals /\ to_datetime_ok vals = true) /\
  (In col (categorical t) <->
   exists vals, c = ObjectCol vals /\ to_datetime_ok vals = false /\
                (nunique vals < 20 \/ 20 * nunique vals < df_len df)) /\
  (In col (text t) <->
   exists vals, c = ObjectCol vals /\ to_datetime_ok vals = false /\
                20 <= nunique vals /\ df_len df <= 20 * nunique vals).
Proof.
  intros Hn H Hin.
  assert (Hrows : forall vals, c = ObjectCol vals -> to_datetime_ok vals = false ->
                               0 < df_len df).
  { intros vals -> Hd. eapply detect_loop_needs_rows; eauto. }
  apply detect_column_types_labels in H. destruct H as (H1 & H2 & H3 & H4).
  assert (Hk : forall k, In col (labels_of k df) <-> classify (df_len df) c = Some k).
  { intros k. unfold labels_of. rewrite in_labels_among. split.
    - intros [c0 [Hc0 Hk]].
      rewrite (NoDup_fst_functional (df_cols df) col c c0 Hn Hin Hc0). exact Hk.
    - intros Hk. exists c. auto. }
  rewrite H1, H2, H3, H4, !Hk.
  destruct c as [w v|w v|v|v|v|v]; simpl;
    try (repeat split; try discriminate; try reflexivity;
         intros [vals [Hv _]]; discriminate).
  destruct (to_datetime_ok v) eqn:Ed.
  - repeat split; try discriminate; eauto.
    all: intros [vals [[= <-] [Hf _]]]; congruence.
  - specialize (Hrows v eq_refl Ed).
    rewrite (ratio_below_five_percent _ _ Hrows).
    destruct (Nat.ltb_spec (20 * nunique v) (df_len df)) as [Hr|Hr];
      destruct (Nat.ltb_spec (nunique v) 20) as [Hu|Hu]; simpl.
    all: repeat split; try discriminate; try reflexivity.
    all: try (intros [vals [[= <-] Hrest]]; try congruence; lia).
    all: try (intros _; exists v; repeat split; auto; lia).
Qed.

(** X1.  The numbers of a cleaning report add up: the rows of the input
    minus the duplicates removed are the rows of the final shape, which
    is the shape of the returned table, and the column count is the one
    of the input. *)
Theorem cleaning_report_adds_up (df df' : DataFrame) (rep : CleaningReport) :
  auto_clean df = Ok (df', rep) ->
  (Z.of_nat (total_rows (quality rep)) - duplicates_removed rep)%Z
  = Z.of_nat (fst (final_shape rep)) /\
  final_shape rep = (df_len df', length (columns df')) /\
  snd (final_shape rep) = total_columns (quality rep) /\
  (0 <= duplicates_removed rep <= Z.of_nat (total_rows (quality rep)))%Z.
Proof.
  intros H.
  pose proof (auto_clean_len _ _ _ H) as Hlen.
  pose proof (drop_duplicates_len (handle_missing_values df)) as Hd.
  change (df_len (handle_missing_values df)) with (df_len df) in Hd.
  apply auto_clean_inv in H.
  destruct H as (Ho & _ & Hq & Hrem & Hshape).
  apply columns_optimize_dtypes in Ho.
  unfold remove_duplicates in *.
  rewrite columns_drop_duplicates, columns_handle_missing_values in Ho.
  rewrite Hshape, Hq, Hrem, Ho. unfold analyze_data_quality.
  cbn [total_rows total_columns fst snd].
  change (df_len (handle_missing_values df)) with (df_len df).
  repeat split; lia.
Qed.

(** X2.  Imputation keeps equal rows equal: the duplicates removed are
    at least the duplicates the quality report counted on the input, and
    exactly those when the input has no missing entry. *)
Theorem duplicates_removed_at_least_reported (df df' : DataFrame) (rep : CleaningReport) :
  auto_clean df = Ok (df', rep) ->
  (Z.of_nat (duplicates (quality rep)) <= duplicates_removed rep)%Z /\
  (no_missing df = true ->
   duplicates_removed rep = Z.of_nat (duplicates (quality rep))).
Proof.
  intros H.
  pose proof (drop_duplicates_len (handle_missing_values df)) as Hd.
  change (df_len (handle_missing_values df)) with (df_len df) in Hd.
  apply auto_clean_inv in H. destruct H as (_ & _ & Hq & Hrem & _).
  unfold remove_duplicates in Hrem.
  change (df_len (handle_missing_values df)) with (df_len df) in Hrem.
  rewrite Hq, Hrem. unfold analyze_data_quality. cbn [duplicates].
  split.
  - pose proof (duplicated_after_imputation df). lia.
  - intros Hn. pose proof (handle_missing_values_complete df Hn) as Hid.
    rewrite Hid in Hd. rewrite Hid. lia.
Qed.

End WithPandas.

End CleanerMore.

(** * Further properties of the statistical analyzer *)

Module AnalyzerMore.

Import DataCleaner DataAnalyzer CleanerFacts AnalyzerFacts CleanerMore InsightRules OutlierMask.

Section WithStats.

Context {stats : Stats}.

(** ** Value counts *)

Lemma cell_eqb_refl (x : cell) : cell_eqb x x = true.
Proof.
  destruct x as [z|[q|]|b|[s|]|[t|]]; simpl; auto.
  - apply Z.eqb_refl.
  - apply Qeq_bool_refl.
  - destruct b; reflexivity.
  - apply String.eqb_refl.
  - apply Z.eqb_refl.
Qed.

Lemma count_cell_le (x : cell) (l : list cell) : count_cell x l <= length l.
Proof. induction l as [|y l IH]; simpl; [lia|]. destruct (cell_eqb y x); lia. Qed.

Lemma count_cell_pos (x : cell) (l : list cell) : In x l -> 1 <= count_cell x l.
Proof.
  induction l as [|y l IH]; simpl; [contradiction|].
  intros [->|H].
  - rewrite cell_eqb_refl. lia.
  - specialize (IH H). lia.
Qed.

Lemma unique_cells_acc_in (seen l : list cell) (x : cell) :
  In x (unique_cells_acc seen l) -> In x seen \/ In x l.
Proof.
  revert seen. induction l as [|y l IH]; intros seen; simpl.
  - intros H. left. apply in_rev. exact H.
  - destruct (existsb (cell_eqb y) seen).
    + intros H. destruct (IH _ H); auto.
    + intros H. destruct (IH _ H) as [[->|H']|H']; auto.
Qed.

Lemma count_insert_forall (P : cell * nat -> Prop) (x : cell * nat) (l : list (cell * nat)) :
  P x -> Forall P l -> Forall P (count_insert x l).
Proof.
  intros Hx H. induction H as [|y l Hy Hl IH]; simpl.
  - constructor; auto.
  - destruct (snd y <=? snd x); repeat (constructor; auto).
Qed.

Lemma get_col_in (df : DataFrame) (name : string) (c : column) :
  get_col df name = Some c -> In (name, c) (df_cols df).
Proof.
  unfold get_col. induction (df_cols df) as [|[n c0] cols IH]; simpl; [discriminate|].
  destruct (String.eqb_spec n name) as [->|Hne].
  - intros [= ->]. auto.
  - auto.
Qed.

Lemma count_insert_sorted (x : cell * nat) (l : list (cell * nat)) :
  StronglySorted by_count_desc l -> StronglySorted by_count_desc (count_insert x l).
Proof.
  induction 1 as [|y l Hs IH Hy]; simpl.
  - constructor; constructor.
  - destruct (Nat.leb_spec (snd y) (snd x)) as [Hle|Hgt].
    + constructor; [constructor; auto|].
      constructor; [exact Hle|].
      eapply Forall_impl; [|exact Hy]. unfold by_count_desc. intros z Hz. lia.
    + constructor; [exact IH|].
      apply count_insert_forall; [unfold by_count_desc; lia|exact Hy].
Qed.

Lemma series_value_counts_spec (c : column) :
  StronglySorted by_count_desc (series_value_counts c) /\
  Forall (fun e => 1 <= snd e <= col_len c) (series_value_counts c).
Proof.
  unfold series_value_counts.
  set (present := filter (fun x => negb (cell_missing x)) (cells c)).
  assert (Hlen : length present <= col_len c).
  { rewrite <- cells_length. apply filter_length_le. }
  assert (Hu : Forall (fun x => In x present) (unique_cells_acc [] present)).
  { apply Forall_forall. intros x Hx.
    destruct (unique_cells_acc_in _ _ _ Hx) as [[]|H]; exact H. }
  induction Hu as [|x l Hx _ IH]; simpl.
  - split; constructor.
  - destruct IH as [IH1 IH2]. split.
    + apply count_insert_sorted. exact IH1.
    + apply count_insert_forall; [|exact IH2]. simpl.
      pose proof (count_cell_pos x present Hx).
      pose proof (count_cell_le x present). lia.
Qed.

Lemma categorical_analysis_inv (df : DataFrame) (name : string) (info : CategoricalSummary) :
  wf df -> categorical_analysis df name = Some info ->
  unique_count info = length (value_counts info) /\
  StronglySorted by_count_desc (value_counts info) /\
  Forall (fun e => 1 <= snd e <= most_common_count info) (value_counts info) /\
  most_common info = option_map fst (hd_error (value_counts info)) /\
  most_common_count info <= df_len df /\
  (0 <= most_common_pct info)%Q /\ (most_common_pct info <= 100)%Q.
Proof.
  intros Hw. unfold categorical_analysis.
  destruct (get_col df name) as [c|] eqn:Hc; [|discriminate].
  assert (Hlen : col_len c = df_len df).
  { apply get_col_in in Hc. unfold wf in Hw. rewrite Forall_forall in Hw.
    apply (Hw _ Hc). }
  destruct (series_value_counts_spec c) as [Hs Hf].
  destruct (series_value_counts c) as [|[v n] rest] eqn:Ev; intros [= <-]; simpl.
  - split; [reflexivity|]. split; [constructor|]. split; [constructor|].
    split; [reflexivity|]. split; [lia|]. split; lra.
  - inversion Hs as [|? ? Hs' Hh]; subst. inversion Hf as [|? ? Hv Hf']; subst.
    simpl in Hv. rewrite Hlen in *.
    split; [reflexivity|]. split; [exact Hs|].
    split.
    { constructor; [simpl; lia|].
      rewrite Forall_forall in *. intros e He.
      specialize (Hh e He). specialize (Hf' e He). unfold by_count_desc in Hh.
      simpl in Hh. lia. }
    split; [reflexivity|]. split; [lia|].
    apply np_percentage; lia.
Qed.

(** ** The summary of a distribution *)

Lemma outliers_share (data : list Q) (p : Q -> bool) :
  0 < length data ->
  let pct := Qround_digits
               (f64_mul (f64_div (inject_Z (Z.of_nat (length (filter p data))))
                                 (inject_Z (Z.of_nat (length data)))) 100) 2 in
  (0 <= pct)%Q /\ (pct <= 100)%Q.
Proof.
  intros Hn. apply py_percentage; [exact Hn|apply filter_length_le].
Qed.

Lemma distribution_analysis_inv (df : DataFrame) (name : string) (d : DistributionSummary) :
  distribution_analysis df name = Ok (Some d) ->
  exists data,
    column_data df name = Some data /\ 3 <= length data /\
    Q1 d = quantile data (1 # 4) /\ Q3 d = quantile data (3 # 4) /\
    IQR d = f64_sub (Q3 d) (Q1 d) /\
    outliers_count d
    = length (filter (is_outlier (f64_sub (Q1 d) (f64_mul (3 # 2) (IQR d)))
                                 (f64_add (Q3 d) (f64_mul (3 # 2) (IQR d)))) data) /\
    outliers_percentage d
    = Qround_digits (f64_mul (f64_div (inject_Z (Z.of_nat (outliers_count d)))
                                      (inject_Z (Z.of_nat (length data)))) 100) 2.
Proof.
  unfold distribution_analysis, column_data.
  destruct (get_col df name) as [c|]; [|discriminate].
  destruct (numeric_values c) as [vals|]; [|discriminate].
  destruct (length (dropna vals) <? 3) eqn:Elen; [discriminate|].
  apply Nat.ltb_ge in Elen.
  destruct (match scipy_skew (dropna vals), scipy_kurtosis (dropna vals) with
            | Ok s, Ok k => (s, k)
            | _, _ => (Fin 0, Fin 0)
            end) as [sk ku].
  destruct (match c with BoolCol _ => negb quantile_accepts_bool | _ => false end);
    [discriminate|].
  intros [= <-]. exists (dropna vals).
  cbn [Q1 Q3 IQR outliers_count outliers_percentage option_map].
  repeat (split; [first [reflexivity|exact Elen]|]).
  destruct (0 <? length (dropna vals)) eqn:E0; [reflexivity|].
  apply Nat.ltb_ge in E0. lia.
Qed.

(** X9.  A returned distribution summary is consistent: it rests on at
    least three present values, [Q1] is at most [Q3] and the
    interquartile range is not negative, no value from [Q1] to [Q3] is an
    outlier, the outliers are at most as many as the values, and their
    percentage lies between 0 and 100.  A value from [Q1] to [Q3] lies
    within the fences of exact arithmetic, and within the fences the
    float64 operations give when the two quartiles are floats. *)
Theorem distribution_summary_bounds (df : DataFrame) (name : string)
  (d : DistributionSummary) :
  distribution_analysis df name = Ok (Some d) ->
  exists data,
    column_data df name = Some data /\
    3 <= length data /\
    (Q1 d <= Q3 d)%Q /\ (0 <= IQR d)%Q /\
    (forall x, (Q1 d <= x)%Q -> (x <= Q3 d)%Q ->
               is_outlier (Q1 d - (3 # 2) * IQR d) (Q3 d + (3 # 2) * IQR d) x = false) /\
    outliers_count d <= length data /\
    (0 <= outliers_percentage d)%Q /\ (outliers_percentage d <= 100)%Q /\
    ((binary64_round (Q1 d) == Q1 d)%Q -> (binary64_round (Q3 d) == Q3 d)%Q ->
     forall x, (Q1 d <= x)%Q -> (x <= Q3 d)%Q ->
               is_outlier (f64_sub (Q1 d) (f64_mul (3 # 2) (IQR d)))
                          (f64_add (Q3 d) (f64_mul (3 # 2) (IQR d))) x = false).
Proof.
  intros H. apply distribution_analysis_inv in H.
  destruct H as (data & Hd & Hlen & H1 & H3 & Hi & Hc & Hp).
  exists data. split; [exact Hd|]. split; [exact Hlen|].
  assert (Hq : (Q1 d <= Q3 d)%Q).
  { rewrite H1, H3. apply quantile_mono; try lra.
    intros Hn. rewrite Hn in Hlen. simpl in Hlen. lia. }
  assert (Hiqr : (0 <= IQR d)%Q).
  { rewrite Hi. apply (fences_in_order _ _ Hq). }
  split; [exact Hq|]. split; [exact Hiqr|].
  split.
  { intros x Hx1 Hx3. unfold is_outlier. apply orb_false_iff.
    split; apply not_true_iff_false; rewrite Qltb_iff; lra. }
  split.
  { rewrite Hc. apply filter_length_le. }
  split.
  { rewrite Hp, Hc. apply outliers_share. lia. }
  split.
  { rewrite Hp, Hc. apply outliers_share. lia. }
  intros R1 R3 x Hx1 Hx3.
  destruct (fences_around (Q1 d) (Q3 d) (IQR d) R1 R3 Hiqr) as [Hl Hu].
  unfold is_outlier. apply orb_false_iff.
  split; apply not_true_iff_false; rewrite Qltb_iff; lra.
Qed.

(** ** The outlier mask of the cleaner *)

Lemma count_true_outlier_mask (p : Q -> bool) (vals : list (option Q)) :
  count_true (map (fun v => match v with Some x => p x | None => false end) vals)
  = length (filter p (dropna vals)).
Proof.
  unfold count_true. induction vals as [|[x|] vals IH]; simpl; auto.
  destruct (p x); simpl; auto.
Qed.

Lemma numeric_values_length (c : column) (vals : list (option Q)) :
  numeric_values c = Some vals -> length vals = col_len c.
Proof.
  destruct c; simpl; intros [= <-]; rewrite ?length_map; reflexivity.
Qed.

(** X6.  The outlier mask of the cleaner: an absent label raises
    [KeyError]; a column that is not numeric gives a mask without a mark;
    a returned mask of a well-formed table has one entry per row, marks
    no missing entry, and marks no entry at all when the column has no
    present value. *)
Theorem detect_outliers_mask (df : DataFrame) (name : string) :
  wf df ->
  (~ In name (columns df) -> detect_outliers df name = Failed (KeyError name)) /\
  (forall c, get_col df name = Some c -> is_numeric_dtype c = false ->
             detect_outliers df name = Returned (repeat false (df_len df))) /\
  (forall mask, detect_outliers df name = Returned mask ->
     length mask = df_len df /\
     (forall c vals, get_col df name = Some c -> numeric_values c = Some vals ->
        (forall i, nth_error vals i = Some None -> nth_error mask i = Some false) /\
        (dropna vals = [] -> count_true mask = 0))).
Proof.
  intros Hw. split; [|split].
  - intros H. apply lookup_col_none in H.
    unfold detect_outliers, get_col. rewrite H. reflexivity.
  - intros c Hc Hn. apply numeric_values_none in Hn.
    unfold detect_outliers. rewrite Hc, Hn. reflexivity.
  - intros mask. unfold detect_outliers.
    destruct (get_col df name) as [c|] eqn:Hc; [|discriminate].
    assert (Hlen : col_len c = df_len df).
    { apply get_col_in in Hc. unfold wf in Hw. rewrite Forall_forall in Hw.
      apply (Hw _ Hc). }
    destruct (numeric_values c) as [vals|] eqn:Hv.
    + pose proof (numeric_values_length c vals Hv) as Hl.
      destruct (dropna vals) as [|x data] eqn:Ed.
      * intros [= <-]. split; [rewrite length_map; lia|].
        intros c0 vals0 [= <-] Hv0. rewrite Hv in Hv0. injection Hv0 as <-. split.
        -- intros i Hi. rewrite nth_error_map, Hi. reflexivity.
        -- intros _. unfold count_true.
           clear. induction vals; simpl; auto.
      * destruct (match c with BoolCol _ => negb quantile_accepts_bool | _ => false end);
          [discriminate|].
        intros [= <-]. split; [rewrite length_map; lia|].
        intros c0 vals0 [= <-] Hv0. rewrite Hv in Hv0. injection Hv0 as <-. split.
        -- intros i Hi. rewrite nth_error_map, Hi. reflexivity.
        -- intros Hn. congruence.
    + intros [= <-]. split; [apply repeat_length|].
      intros c0 vals0 [= <-] Hv0. congruence.
Qed.

(** X17.  The two outlier detectors agree: whenever distribution analysis
    returns a summary of a column, the mask of the cleaner for that
    column marks as many entries as the summary counts outliers. *)
Theorem outlier_mask_matches_summary (df : DataFrame) (name : string)
  (d : DistributionSummary) :
  distribution_analysis df name = Ok (Some d) ->
  exists mask,
    detect_outliers df name = Returned mask /\
    count_true mask = outliers_count d.
Proof.
  unfold distribution_analysis, detect_outliers.
  destruct (get_col df name) as [c|]; [|discriminate].
  destruct (numeric_values c) as [vals|]; [|discriminate].
  destruct (length (dropna vals) <? 3) eqn:Elen; [discriminate|].
  apply Nat.ltb_ge in Elen.
  destruct (dropna vals) as [|x data] eqn:Ed; [simpl in Elen; lia|].
  destruct (match scipy_skew (x :: data), scipy_kurtosis (x :: data) with
            | Ok s, Ok k => (s, k)
            | _, _ => (Fin 0, Fin 0)
            end) as [sk ku].
  destruct (match c with BoolCol _ => negb quantile_accepts_bool | _ => false end);
    [discriminate|].
  intros [= <-]. eexists. split; [reflexivity|].
  cbn [outliers_count]. rewrite count_true_outlier_mask, Ed. reflexivity.
Qed.

(** ** Pairs of columns *)

Lemma in_pairs_in_order {A : Type} (l : list A) (a b : A) :
  In (a, b) (pairs_in_order l) -> In a l /\ In b l.
Proof.
  induction l as [|x l IH]; simpl; [contradiction|].
  intros H. apply in_app_or in H. destruct H as [H|H].
  - apply in_map_iff in H. destruct H as [y [[= <- <-] Hy]]. auto.
  - destruct (IH H). auto.
Qed.

Lemma NoDup_map_pair {A : Type} (x : A) (l : list A) :
  NoDup l -> NoDup (map (pair x) l).
Proof.
  induction 1 as [|y l Hy Hn IH]; simpl; constructor; auto.
  intros H. apply in_map_iff in H. destruct H as [z [[= <-] Hz]]. contradiction.
Qed.

Lemma pairs_in_order_NoDup {A : Type} (l : list A) :
  NoDup l -> NoDup (pairs_in_order l).
Proof.
  induction 1 as [|x l Hx Hn IH]; simpl; [constructor|].
  apply NoDup_app.
  - apply NoDup_map_pair. exact Hn.
  - exact IH.
  - intros [a b] H1 H2. apply in_map_iff in H1.
    destruct H1 as [y [[= <- <-] _]].
    apply in_pairs_in_order in H2. tauto.
Qed.

Lemma pairs_in_order_antisym {A : Type} (l : list A) (a b : A) :
  NoDup l -> In (a, b) (pairs_in_order l) -> ~ In (b, a) (pairs_in_order l).
Proof.
  induction 1 as [|x l Hx Hn IH]; simpl; [contradiction|].
  intros H1 H2. apply in_app_or in H1. apply in_app_or in H2.
  destruct H1 as [H1|H1], H2 as [H2|H2].
  - apply in_map_iff in H1. destruct H1 as [y [[= <- <-] Hy]].
    apply in_map_iff in H2. destruct H2 as [z [[= <- _] _]]. contradiction.
  - apply in_map_iff in H1. destruct H1 as [y [[= <- <-] Hy]].
    apply in_pairs_in_order in H2. tauto.
  - apply in_map_iff in H2. destruct H2 as [y [[= <- <-] Hy]].
    apply in_pairs_in_order in H1. tauto.
  - exact (IH H1 H2).
Qed.

Lemma pairs_in_order_map {A B : Type} (f : A -> B) (l : list A) :
  pairs_in_order (map f l)
  = map (fun p => (f (fst p), f (snd p))) (pairs_in_order l).
Proof.
  induction l as [|x l IH]; simpl; auto.
  rewrite map_app, !map_map, IH. reflexivity.
Qed.

Lemma number_columns_labels (cols : list (string * column)) :
  map fst (number_columns cols)
  = map fst (filter (fun nc => is_number_dtype (snd nc)) cols).
Proof.
  induction cols as [|[n c] cols IH]; simpl; auto.
  destruct c; simpl; congruence.
Qed.

Lemma strong_pairs_labels (cols : list (string * list (option Q))) :
  map pair_labels (strong_pairs cols)
  = map (fun p => (fst (fst p), fst (snd p))) (filter strong_pair (pairs_in_order cols)).
Proof. unfold strong_pairs. rewrite map_map. reflexivity. Qed.

Lemma strong_pairs_once (cols : list (string * list (option Q))) :
  NoDup (map fst cols) ->
  NoDup (map pair_labels (strong_pairs cols)) /\
  (forall a b, In (a, b) (map pair_labels (strong_pairs cols)) ->
               a <> b /\ In a (map fst cols) /\ In b (map fst cols) /\
               ~ In (b, a) (map pair_labels (strong_pairs cols))).
Proof.
  intros Hn. rewrite strong_pairs_labels.
  pose proof (pairs_in_order_NoDup _ Hn) as Hp.
  rewrite pairs_in_order_map in Hp.
  assert (Hsub : forall a b,
            In (a, b) (map (fun p => (fst (fst p), fst (snd p)))
                           (filter strong_pair (pairs_in_order cols))) ->
            In (a, b) (pairs_in_order (map fst cols))).
  { intros a b H. rewrite pairs_in_order_map.
    apply in_map_iff in H. destruct H as [p [Hp1 Hp2]].
    apply filter_In in Hp2. apply in_map_iff. exists p. tauto. }
  split.
  - apply kept_keys_distinct. exact Hp.
  - intros a b H. pose proof (Hsub a b H) as H'.
    destruct (in_pairs_in_order _ _ _ H') as [Ha Hb].
    repeat split; auto.
    + intros ->. apply (pairs_in_order_antisym _ _ _ Hn H'). exact H'.
    + intros Hr. apply Hsub in Hr.
      exact (pairs_in_order_antisym _ _ _ Hn H' Hr).
Qed.

Lemma strong_pairs_strong (cols : list (string * list (option Q))) :
  Forall (fun c => exists x y,
            In (var1 c, x) cols /\ In (var2 c, y) cols /\
            fgt (fabs (pearson x y)) (7 # 10) = true /\
            correlation c = fround (pearson x y) 3)
         (strong_pairs cols).
Proof.
  unfold strong_pairs. apply Forall_forall. intros c Hc.
  apply in_map_iff in Hc. destruct Hc as [[[n1 x] [n2 y]] [<- Hp]].
  apply filter_In in Hp. destruct Hp as [Hp Hs].
  apply in_pairs_in_order in Hp. simpl. exists x, y. tauto.
Qed.

(** ** The median is the middle quantile *)

Lemma Qfloor_half (z : Z) : Qfloor (inject_Z z * (1 # 2)) = (z / 2)%Z.
Proof. unfold Qfloor, Qmult, inject_Z. simpl. rewrite Z.mul_1_r. reflexivity. Qed.

Lemma median_is_half_quantile (vals : list (option Q)) :
  dropna vals <> [] ->
  exists m, median vals = Some m /\ (m == quantile (dropna vals) (1 # 2))%Q.
Proof.
  intros Hne. unfold median, quantile. cbv zeta.
  pose proof (Qsort_length (dropna vals)) as Hl.
  set (s := Qsort (dropna vals)) in *.
  assert (Hn : 0 < length s).
  { rewrite Hl. destruct (dropna vals); [congruence|simpl; lia]. }
  rewrite Qfloor_half.
  destruct (length s) as [|n'] eqn:En; [lia|].
  set (n := S n') in *.
  destruct (Nat.odd n) eqn:Eodd.
  - apply Nat.odd_spec in Eodd. destruct Eodd as [k Hk].
    assert (Hz : (Z.of_nat (n - 1) / 2 = Z.of_nat k)%Z).
    { replace (n - 1) with (k * 2) by lia.
      rewrite Nat2Z.inj_mul. apply Z.div_mul. discriminate. }
    assert (Hh : n / 2 = k).
    { rewrite Hk. rewrite Nat.add_comm, Nat.mul_comm, Nat.div_add by lia.
      reflexivity. }
    rewrite Hz, Hh, Nat2Z.id.
    destruct (nth_error_in_range s k) as [a Ha]; [lia|].
    exists a. split; [exact Ha|].
    rewrite (nth_error_nth s k 0%Q Ha).
    assert (Hf : (inject_Z (Z.of_nat (n - 1)) * (1 # 2) - inject_Z (Z.of_nat k) == 0)%Q).
    { replace (n - 1) with (2 * k) by lia.
      rewrite Nat2Z.inj_mul, inject_Z_mult.
      change (inject_Z (Z.of_nat 2)) with 2%Q. lra. }
    rewrite Hf. lra.
  - assert (Hev : Nat.even n = true).
    { rewrite <- Nat.negb_odd, Eodd. reflexivity. }
    apply Nat.even_spec in Hev. destruct Hev as [k Hk].
    assert (Hk1 : 1 <= k) by lia.
    assert (Hz : (Z.of_nat (n - 1) / 2 = Z.of_nat (k - 1))%Z).
    { replace (n - 1) with (1 + (k - 1) * 2) by lia.
      rewrite Nat2Z.inj_add, Nat2Z.inj_mul.
      rewrite Z.div_add by discriminate. reflexivity. }
    assert (Hh : n / 2 = k).
    { rewrite Hk, Nat.mul_comm. apply Nat.div_mul. lia. }
    rewrite Hz, Hh, Nat2Z.id.
    destruct (nth_error_in_range s (k - 1)) as [a Ha]; [lia|].
    destruct (nth_error_in_range s k) as [b Hb]; [lia|].
    rewrite Ha, Hb. exists ((a + b) / 2)%Q. split; [reflexivity|].
    rewrite (nth_error_nth s (k - 1) 0%Q Ha).
    replace (S (k - 1)) with k by lia.
    rewrite (nth_error_nth s k a Hb).
    assert (Hf : (inject_Z (Z.of_nat (n - 1)) * (1 # 2) - inject_Z (Z.of_nat (k - 1))
                  == 1 # 2)%Q).
    { replace (n - 1) with (1 + 2 * (k - 1)) by lia.
      rewrite Nat2Z.inj_add, Nat2Z.inj_mul, inject_Z_plus, inject_Z_mult.
      change (inject_Z (Z.of_nat 2)) with 2%Q.
      change (inject_Z (Z.of_nat 1)) with 1%Q. lra. }
    rewrite Hf. field.
Qed.

Lemma number_columns_float (cols : list (string * column)) (col : string)
  (w : float_width) (vals : list (option Q)) :
  In (col, FloatCol w vals) cols -> In (col, vals) (number_columns cols).
Proof.
  induction cols as [|[n c] cols IH]; simpl; [contradiction|].
  intros [[= -> ->]|H].
  - simpl. auto.
  - destruct (is_number_dtype c); [destruct (numeric_values c)|]; simpl; auto.
Qed.

(** X8.  The value imputed into a float column is the median that
    descriptive statistics report for that column of the same table:
    the middle quantile of its present values. *)
Theorem imputed_value_is_reported_median (df : DataFrame) (col : string)
  (w : float_width) (vals : list (option Q)) :
  In (col, FloatCol w vals) (df_cols df) ->
  dropna vals <> [] ->
  exists m r q,
    impute_column (FloatCol w vals) = FloatCol w (fillna m vals) /\
    In (col, r) (descriptive_statistics df) /\
    d_count r = length (dropna vals) /\
    d_median r = Fin q /\ (q == m)%Q.
Proof.
  intros Hin Hne.
  destruct (median_is_half_quantile vals Hne) as [m [Hm Hq]].
  exists m, (describe_column vals), (quantile (dropna vals) (1 # 2)).
  split.
  { rewrite impute_column_spec. simpl. rewrite Hm. reflexivity. }
  split.
  { unfold descriptive_statistics. apply in_map_iff.
    exists (col, vals). split; [reflexivity|].
    eapply number_columns_float. exact Hin. }
  split; [reflexivity|].
  split.
  { unfold describe_column, fquantile. cbn [d_median].
    destruct (dropna vals); [congruence|reflexivity]. }
  symmetry. exact Hq.
Qed.

(** X7.  With distinct column labels every strong pair is listed once:
    no pair of labels twice, never a pair and its reverse, never a column
    with itself; both labels are numeric columns of the table, the
    correlation of the pair exceeds 0.7 in absolute value and is reported
    rounded to three decimals.  With fewer than two numeric columns
    matrix and list are empty. *)
Theorem strong_correlations_listed_once (df : DataFrame) :
  NoDup (columns df) ->
  NoDup (map pair_labels (snd (correlation_analysis df))) /\
  (forall a b, In (a, b) (map pair_labels (snd (correlation_analysis df))) ->
               a <> b /\ In a (columns df) /\ In b (columns df) /\
               ~ In (b, a) (map pair_labels (snd (correlation_analysis df)))) /\
  Forall (fun c => exists x y,
            In (var1 c, x) (number_columns (df_cols df)) /\
            In (var2 c, y) (number_columns (df_cols df)) /\
            fgt (fabs (pearson x y)) (7 # 10) = true /\
            correlation c = fround (pearson x y) 3)
         (snd (correlation_analysis df)) /\
  (length (number_columns (df_cols df)) < 2 -> correlation_analysis df = ([], [])).
Proof.
  intros Hn. rewrite correlation_analysis_strong.
  assert (Hl : NoDup (map fst (number_columns (df_cols df)))).
  { rewrite number_columns_labels. apply kept_keys_distinct. exact Hn. }
  assert (Hsub : forall a, In a (map fst (number_columns (df_cols df))) ->
                           In a (columns df)).
  { intros a Ha. rewrite number_columns_labels in Ha.
    apply in_map_iff in Ha. destruct Ha as [y [Hy Hf]].
    apply filter_In in Hf. apply in_map_iff. exists y. tauto. }
  destruct (strong_pairs_once _ Hl) as [H1 H2].
  split; [exact H1|]. split.
  { intros a b H. destruct (H2 a b H) as (Ha & Hb & Hc & Hd). auto. }
  split; [apply strong_pairs_strong|].
  intros Hlt. unfold correlation_analysis.
  apply Nat.ltb_lt in Hlt. rewrite Hlt. reflexivity.
Qed.

(** X10.  A returned categorical summary is consistent: the value counts
    are in descending order, every count is at least one and at most the
    count of the most common value, which is the first of the list and
    at most the row count; the number of distinct values is the length
    of the list, and the share of the most common value lies between 0
    and 100.  An absent column gives the empty result. *)
Theorem categorical_summary_is_consistent (df : DataFrame) (name : string) :
  wf df ->
  (~ In name (columns df) -> categorical_analysis df name = None) /\
  (forall info, categorical_analysis df name = Some info ->
     unique_count info = length (value_counts info) /\
     StronglySorted by_count_desc (value_counts info) /\
     Forall (fun e => 1 <= snd e <= most_common_count info) (value_counts info) /\
     most_common info = option_map fst (hd_error (value_counts info)) /\
     most_common_count info <= df_len df /\
     (0 <= most_common_pct info)%Q /\ (most_common_pct info <= 100)%Q).
Proof.
  intros Hw. split.
  - intros H. apply lookup_col_none in H.
    unfold categorical_analysis, get_col. rewrite H. reflexivity.
  - intros info. apply categorical_analysis_inv. exact Hw.
Qed.

End WithStats.

End AnalyzerMore.

(** * Properties of the loader and the visualizer *)

Module FrontendMore.

Import CleanerFacts AnalyzerFacts CleanerMore AnalyzerMore DataVisualizer DataLoader.

(** ** The grid of histograms *)

Lemma place_traces_nth (idx : nat) (columns : list string) (k : nat) (col : string) :
  nth_error columns k = Some col ->
  nth_error (place_traces idx columns) k
  = Some (col, ((idx + k) / 3 + 1, (idx + k) mod 3 + 1)).
Proof.
  revert idx k. induction columns as [|c columns IH]; intros idx [|k]; simpl;
    try discriminate.
  - intros [= ->]. rewrite Nat.add_0_r. reflexivity.
  - intros H. rewrite (IH (S idx) k H).
    replace (S idx + k) with (idx + S k) by lia. reflexivity.
Qed.

Lemma place_traces_labels (idx : nat) (columns : list string) :
  map fst (place_traces idx columns) = columns.
Proof.
  revert idx. induction columns as [|c columns IH]; intros idx; simpl; auto.
  rewrite IH. reflexivity.
Qed.

Lemma place_traces_cells (idx : nat) (columns : list string) :
  map snd (place_traces idx columns)
  = map (fun i => (i / 3 + 1, i mod 3 + 1)) (seq idx (length columns)).
Proof.
  revert idx. induction columns as [|c columns IH]; intros idx; simpl; auto.
  rewrite IH. reflexivity.
Qed.

Lemma grid_cell_injective (i j : nat) :
  (i / 3 + 1, i mod 3 + 1) = (j / 3 + 1, j mod 3 + 1) -> i = j.
Proof.
  intros H.
  pose proof (f_equal fst H) as H1. pose proof (f_equal snd H) as H2.
  cbn [fst snd] in H1, H2.
  pose proof (Nat.div_mod_eq i 3). pose proof (Nat.div_mod_eq j 3). lia.
Qed.

Lemma NoDup_map_injective {A B : Type} (f : A -> B) (l : list A) :
  (forall x y, f x = f y -> x = y) -> NoDup l -> NoDup (map f l).
Proof.
  intros Hf. induction 1 as [|x l Hx Hn IH]; simpl; constructor; auto.
  intros H. apply in_map_iff in H. destruct H as [y [Hy Hin]].
  apply Hf in Hy. subst. contradiction.
Qed.

Lemma grid_cell_fits (n i : nat) :
  i < n ->
  1 <= i / 3 + 1 <= (n + 2) / 3 /\ 1 <= i mod 3 + 1 <= Nat.min 3 n.
Proof.
  intros H.
  pose proof (Nat.mod_upper_bound i 3).
  pose proof (Nat.div_mod_eq i 3).
  pose proof (Nat.div_mod_eq (n + 2) 3).
  pose proof (Nat.mod_upper_bound (n + 2) 3).
  split; [|lia]. split; [lia|].
  assert (i / 3 < (n + 2) / 3); [|lia].
  apply Nat.Div0.div_lt_upper_bound. lia.
Qed.

(** ** File sizes *)

Lemma Qltb_inject_Z (a b : Z) : Qltb (inject_Z a) (inject_Z b) = (a <? b)%Z.
Proof.
  apply eq_true_iff_eq. rewrite Qltb_iff, Z.ltb_lt, Zlt_Qlt. tauto.
Qed.

Lemma Qltb_scaled (n d : Z) (q : Q) :
  (0 < d)%Z -> (q == inject_Z n / inject_Z d)%Q ->
  Qltb q 1024 = (n <? 1024 * d)%Z.
Proof.
  intros Hd Hq. apply eq_true_iff_eq. rewrite Qltb_iff, Z.ltb_lt.
  assert (Hd' : (0 < inject_Z d)%Q).
  { change 0%Q with (inject_Z 0). rewrite <- Zlt_Qlt. exact Hd. }
  rewrite Hq. split.
  - intros H.
    assert (H2 : (inject_Z n < 1024 * inject_Z d)%Q).
    { apply (Qmult_lt_r _ _ (inject_Z d)) in H; [|exact Hd'].
      field_simplify in H; [|lra]. lra. }
    change 1024%Q with (inject_Z 1024) in H2.
    rewrite <- inject_Z_mult, <- Zlt_Qlt in H2. exact H2.
  - intros H. apply Qlt_shift_div_r; [exact Hd'|].
    change 1024%Q with (inject_Z 1024).
    rewrite <- inject_Z_mult, <- Zlt_Qlt. exact H.
Qed.

Lemma Qround_digits_between (a b : Z) (q : Q) :
  (inject_Z a <= q)%Q -> (q <= inject_Z b)%Q ->
  (inject_Z a <= Qround_digits q 2)%Q /\ (Qround_digits q 2 <= inject_Z b)%Q.
Proof.
  intros Ha Hb. unfold Qround_digits.
  change (10 ^ Z.of_nat 2)%Z with 100%Z.
  destruct (Qround_half_even_between (a * 100) (b * 100) (q * inject_Z 100)) as [H1 H2].
  - rewrite inject_Z_mult. change (inject_Z 100) with 100%Q. lra.
  - rewrite inject_Z_mult. change (inject_Z 100) with 100%Q. lra.
  - rewrite Zle_Qle, inject_Z_mult in H1, H2.
    change (inject_Z 100) with 100%Q in *.
    remember (inject_Z (Qround_half_even (q * 100))) as r eqn:Er. clear Er.
    split.
    + apply Qle_shift_div_l; lra.
    + apply Qle_shift_div_r; lra.
Qed.

Lemma format_size_table (size : Z) :
  format_size size =
  if (size <? 1024)%Z then (Qround_digits (inject_Z size) 2, B)
  else if (size <? 1024 * 1024)%Z
       then (Qround_digits (inject_Z size / 1024) 2, KB)
  else if (size <? 1024 * (1024 * 1024))%Z
       then (Qround_digits (inject_Z size / 1024 / 1024) 2, MB)
  else if (size <? 1024 * (1024 * 1024 * 1024))%Z
       then (Qround_digits (inject_Z size / 1024 / 1024 / 1024) 2, GB)
  else (Qround_digits (inject_Z size / 1024 / 1024 / 1024 / 1024) 2, TB).
Proof.
  unfold format_size. cbn [format_size_loop].
  change 1024%Q with (inject_Z 1024) at 1. rewrite Qltb_inject_Z.
  destruct (size <? 1024)%Z; [reflexivity|].
  rewrite (Qltb_scaled size 1024) by (try lia; reflexivity).
  destruct (size <? 1024 * 1024)%Z; [reflexivity|].
  rewrite (Qltb_scaled size (1024 * 1024))
    by (try lia; rewrite inject_Z_mult; change (inject_Z 1024) with 1024%Q; field).
  destruct (size <? 1024 * (1024 * 1024))%Z; [reflexivity|].
  rewrite (Qltb_scaled size (1024 * 1024 * 1024))
    by (try lia; rewrite !inject_Z_mult; change (inject_Z 1024) with 1024%Q; field).
  destruct (size <? 1024 * (1024 * 1024 * 1024))%Z; reflexivity.
Qed.

Lemma accepted_size_display (size : Z) :
  (0 <= size)%Z -> validate_file_size size = true ->
  (snd (format_size size) = B \/ snd (format_size size) = KB
   \/ snd (format_size size) = MB) /\
  (0 <= fst (format_size size))%Q /\
  (fst (format_size size) <= 1024)%Q /\
  (snd (format_size size) = MB -> (fst (format_size size) <= 50)%Q).
Proof.
  intros H0 Hv. unfold validate_file_size, max_size in Hv.
  destruct (Z.gtb_spec size (50 * 1024 * 1024)) as [Hgt|Hle]; [discriminate|].
  assert (Q0 : (0 <= inject_Z size)%Q).
  { change 0%Q with (inject_Z 0). rewrite <- Zle_Qle. exact H0. }
  assert (Qm : (inject_Z size <= 52428800)%Q).
  { change 52428800%Q with (inject_Z 52428800). rewrite <- Zle_Qle. lia. }
  rewrite format_size_table.
  destruct (Z.ltb_spec size 1024) as [H1|H1].
  - cbn [fst snd].
    destruct (Qround_digits_between 0 1024 (inject_Z size)) as [Ha Hb].
    + exact Q0.
    + change (inject_Z 1024) with 1024%Q.
      assert (Hq : (inject_Z size < 1024)%Q).
      { change 1024%Q with (inject_Z 1024). rewrite <- Zlt_Qlt. exact H1. }
      lra.
    + change (inject_Z 0) with 0%Q in Ha. change (inject_Z 1024) with 1024%Q in Hb.
      repeat split; auto. discriminate.
  - destruct (Z.ltb_spec size (1024 * 1024)) as [H2|H2].
    + cbn [fst snd].
      assert (Hq : (inject_Z size < 1048576)%Q).
      { change 1048576%Q with (inject_Z (1024 * 1024)). rewrite <- Zlt_Qlt. exact H2. }
      destruct (Qround_digits_between 0 1024 (inject_Z size / 1024)) as [Ha Hb].
      * change (inject_Z 0) with 0%Q. apply Qle_shift_div_l; lra.
      * change (inject_Z 1024) with 1024%Q. apply Qle_shift_div_r; lra.
      * change (inject_Z 0) with 0%Q in Ha. change (inject_Z 1024) with 1024%Q in Hb.
        repeat split; auto. discriminate.
    + destruct (Z.ltb_spec size (1024 * (1024 * 1024))) as [H3|H3]; [|lia].
      cbn [fst snd].
      destruct (Qround_digits_between 0 50 (inject_Z size / 1024 / 1024)) as [Ha Hb].
      * change (inject_Z 0) with 0%Q.
        apply Qle_shift_div_l; [lra|]. rewrite Qmult_0_l.
        apply Qle_shift_div_l; lra.
      * change (inject_Z 50) with 50%Q.
        apply Qle_shift_div_r; [lra|]. apply Qle_shift_div_r; lra.
      * change (inject_Z 0) with 0%Q in Ha. change (inject_Z 50) with 50%Q in Hb.
        repeat split; auto. lra.
Qed.

Lemma get_col_some (df : DataFrame) (col : string) :
  In col (columns df) -> exists c, get_col df col = Some c.
Proof.
  intros H. destruct (get_col df col) as [c|] eqn:E; eauto.
  apply lookup_col_none in E. contradiction.
Qed.

(** ** The loop over the labels of a grid *)

Lemma add_traces_returns (df : DataFrame) (idx : nat) (labels : list string)
  (fig : list (string * (nat * nat))) :
  incl labels (columns df) ->
  add_traces df idx labels fig = Returned (fig ++ place_traces idx labels).
Proof.
  revert idx fig. induction labels as [|col labels IH]; intros idx fig Hi;
    cbn [add_traces place_traces].
  - rewrite app_nil_r. reflexivity.
  - destruct (get_col_some df col) as [c ->]; [apply Hi; left; reflexivity|].
    rewrite IH by (intros x Hx; apply Hi; right; exact Hx).
    rewrite <- app_assoc. reflexivity.
Qed.

Lemma add_traces_fails (df : DataFrame) (idx : nat)
  (present : list string) (col : string) (rest : list string)
  (fig : list (string * (nat * nat))) :
  incl present (columns df) -> ~ In col (columns df) ->
  add_traces df idx (present ++ col :: rest) fig = Failed (KeyError col).
Proof.
  intros Hi Hn. revert idx fig.
  induction present as [|p present IH]; intros idx fig; cbn [add_traces app].
  - apply lookup_col_none in Hn. unfold get_col. rewrite Hn. reflexivity.
  - destruct (get_col_some df p) as [c ->]; [apply Hi; left; reflexivity|].
    apply IH. intros x Hx. apply Hi. right. exact Hx.
Qed.

Lemma add_traces_inv (df : DataFrame) (idx : nat) (labels : list string)
  (fig ts : list (string * (nat * nat))) :
  add_traces df idx labels fig = Returned ts ->
  incl labels (columns df) /\ ts = fig ++ place_traces idx labels.
Proof.
  revert idx fig. induction labels as [|col labels IH]; intros idx fig;
    cbn [add_traces place_traces].
  - intros [= <-]. split; [intros x []|]. rewrite app_nil_r. reflexivity.
  - destruct (get_col df col) as [c|] eqn:Ec; [|discriminate].
    intros H. destruct (IH _ _ H) as [Hi ->]. split.
    + intros x [Hx|Hx]; [subst x|apply Hi; exact Hx].
      destruct (in_dec string_dec col (columns df)) as [Hin|Hout]; [exact Hin|].
      apply lookup_col_none in Hout. unfold get_col in Ec. congruence.
    + rewrite <- app_assoc. reflexivity.
Qed.

Lemma grid_refused (n : nat) :
  ((n + 2) / 3 <? 1) || (Nat.min 3 n <? 1) = true <-> n = 0.
Proof.
  split.
  - intros H. apply orb_true_iff in H. destruct H as [H|H]; apply Nat.ltb_lt in H.
    + pose proof (Nat.div_mod_eq (n + 2) 3).
      pose proof (Nat.mod_upper_bound (n + 2) 3). lia.
    + lia.
  - intros ->. reflexivity.
Qed.

(** X11.  [plot_multiple_histograms] fails on an empty list of labels,
    for which the grid has no row, and on the first label that is not a
    column of the table; on a list of labels of the table that is not
    empty it returns.  In the grid it returns the traces are the labels
    in order, the trace of position [k] sits in row [k / 3 + 1] and
    column [k mod 3 + 1], every trace lies inside the grid, no two
    traces share a cell, and the grid has the fewest rows of three cells
    that hold all labels. *)
Theorem histogram_grid_layout (df : DataFrame) (labels : list string) :
  (labels = [] -> plot_multiple_histograms df labels = Failed (ValueError "rows")) /\
  (forall present col rest,
     labels = present ++ col :: rest ->
     incl present (columns df) -> ~ In col (columns df) ->
     plot_multiple_histograms df labels = Failed (KeyError col)) /\
  (labels <> [] -> incl labels (columns df) ->
   exists grid, plot_multiple_histograms df labels = Returned grid) /\
  (forall grid,
     plot_multiple_histograms df labels = Returned grid ->
     labels <> [] /\ incl labels (columns df) /\
     map fst (traces grid) = labels /\
     (forall k col, nth_error labels k = Some col ->
        nth_error (traces grid) k = Some (col, (k / 3 + 1, k mod 3 + 1))) /\
     Forall (fun t => 1 <= fst (snd t) <= grid_rows grid /\
                      1 <= snd (snd t) <= grid_cols grid)
            (traces grid) /\
     NoDup (map snd (traces grid)) /\
     length labels <= grid_rows grid * 3 /\
     grid_rows grid * 3 < length labels + 3).
Proof.
  unfold plot_multiple_histograms.
  destruct (((length labels + 2) / 3 <? 1) || (Nat.min 3 (length labels) <? 1))
    eqn:Eg.
  - apply grid_refused in Eg. apply length_zero_iff_nil in Eg. subst labels.
    split; [reflexivity|]. split.
    { intros present col rest H. destruct present; discriminate H. }
    split; [intros H; contradiction H; reflexivity|]. discriminate.
  - assert (Hne : labels <> []).
    { intros ->. discriminate Eg. }
    split; [intros H; contradiction|]. split.
    { intros present col rest -> Hi Hn. rewrite add_traces_fails by assumption.
      reflexivity. }
    split.
    { intros _ Hi. rewrite add_traces_returns by exact Hi. eauto. }
    intros grid.
    destruct (add_traces df 0 labels []) as [fig|e] eqn:Ea; [|discriminate].
    intros [= <-]. apply add_traces_inv in Ea. destruct Ea as [Hi ->].
    cbn [traces grid_rows grid_cols app].
    split; [exact Hne|]. split; [exact Hi|].
    split; [apply place_traces_labels|].
    split; [intros k col H; apply (place_traces_nth 0 labels k col H)|].
    split.
    { apply Forall_map with (f := snd)
        (P := fun c => 1 <= fst c <= (length labels + 2) / 3 /\
                       1 <= snd c <= Nat.min 3 (length labels)).
      rewrite place_traces_cells. apply Forall_map. apply Forall_forall.
      intros i Hi'. apply in_seq in Hi'. cbn [fst snd].
      apply grid_cell_fits. lia. }
    split.
    { rewrite place_traces_cells. apply NoDup_map_injective.
      - intros x y. apply grid_cell_injective.
      - apply seq_NoDup. }
    change (length labels <= (length labels + 2) / 3 * 3 < length labels + 3).
    clear. generalize (length labels). intros n.
    pose proof (Nat.div_mod_eq (n + 2) 3).
    pose proof (Nat.mod_upper_bound (n + 2) 3). lia.
Qed.

(** X12.  [format_size] shows a size in the first unit among B, KB, MB
    and GB below 1024 of which it lies, divided by 1024 once per unit
    passed and rounded to two decimals, and in TB from 1024 to the
    fourth on.  [validate_file_size] accepts exactly the sizes up to
    50 * 1024 * 1024 bytes, and an accepted size is shown in B, KB or MB
    with a number from 0 to 1024, at most 50 when in MB. *)
Theorem file_size_display (size : Z) :
  format_size size =
  (if (size <? 1024)%Z then (Qround_digits (inject_Z size) 2, B)
   else if (size <? 1024 * 1024)%Z
        then (Qround_digits (inject_Z size / 1024) 2, KB)
   else if (size <? 1024 * (1024 * 1024))%Z
        then (Qround_digits (inject_Z size / 1024 / 1024) 2, MB)
   else if (size <? 1024 * (1024 * 1024 * 1024))%Z
        then (Qround_digits (inject_Z size / 1024 / 1024 / 1024) 2, GB)
   else (Qround_digits (inject_Z size / 1024 / 1024 / 1024 / 1024) 2, TB)) /\
  (validate_file_size size = true <-> (size <= 52428800)%Z) /\
  ((0 <= size)%Z -> validate_file_size size = true ->
   (snd (format_size size) = B \/ snd (format_size size) = KB
    \/ snd (format_size size) = MB) /\
   (0 <= fst (format_size size))%Q /\
   (fst (format_size size) <= 1024)%Q /\
   (snd (format_size size) = MB -> (fst (format_size size) <= 50)%Q)).
Proof.
  split; [apply format_size_table|].
  split; [|apply accepted_size_display].
  unfold validate_file_size, max_size.
  destruct (Z.gtb_spec size (50 * 1024 * 1024)); split; try discriminate; lia.
Qed.

(** ** The automatic visualizations *)

Lemma dict_set_in (key : string) (value : chart) (d : list (string * chart))
  (k : string) (v : chart) :
  In (k, v) (dict_set key value d) -> (k = key /\ v = value) \/ In (k, v) d.
Proof.
  induction d as [|[k0 v0] d IH]; simpl.
  - intros [[= <- <-]|[]]. auto.
  - destruct (String.eqb_spec k0 key) as [->|Hne]; simpl.
    + intros [[= <- <-]|H]; auto.
    + intros [H|H]; auto. destruct (IH H); auto.
Qed.

Lemma dict_set_length (key : string) (value : chart) (d : list (string * chart)) :
  length (dict_set key value d) <= S (length d).
Proof.
  induction d as [|[k0 v0] d IH]; simpl; [lia|].
  destruct (String.eqb k0 key); simpl; lia.
Qed.

Lemma histogram_loop_inv (df : DataFrame) (cols : list string)
  (viz viz' : list (string * chart)) :
  histogram_loop df cols viz = Returned viz' ->
  length viz' <= length viz + length cols /\
  (forall k v, In (k, v) viz' ->
     In (k, v) viz \/
     exists col, In col cols /\ In col (columns df) /\
                 k = ("hist_" ++ col)%string /\ v = Histogram col 30).
Proof.
  revert viz. induction cols as [|col cols IH]; intros viz;
    cbn [histogram_loop length In].
  - intros [= <-]. split; [lia|auto].
  - unfold plot_histogram. destruct (get_col df col) as [c|] eqn:Hc; [|discriminate].
    intros H. apply IH in H. destruct H as [Hl Hin].
    pose proof (dict_set_length ("hist_" ++ col) (Histogram col 30) viz).
    split; [lia|].
    intros k v Hkv. destruct (Hin k v Hkv) as [H1|[c0 [H1 H2]]].
    + apply dict_set_in in H1. destruct H1 as [[-> ->]|H1]; auto.
      right. exists col. repeat split; auto.
      apply get_col_in in Hc. apply (in_map fst) in Hc. exact Hc.
    + right. exists c0. tauto.
Qed.

Lemma bar_loop_inv (df : DataFrame) (cols : list string)
  (viz viz' : list (string * chart)) :
  bar_loop df cols viz = Returned viz' ->
  length viz' <= length viz + length cols /\
  (forall k v, In (k, v) viz' ->
     In (k, v) viz \/
     exists col c, In col cols /\ get_col df col = Some c /\
                   column_nunique c <= 20 /\
                   k = ("bar_" ++ col)%string /\
                   v = BarChart col (firstn 10 (DataAnalyzer.series_value_counts c))).
Proof.
  revert viz. induction cols as [|col cols IH]; intros viz;
    cbn [bar_loop length In].
  - intros [= <-]. split; [lia|auto].
  - unfold plot_bar_chart. destruct (get_col df col) as [c|] eqn:Hc; [|discriminate].
    destruct (Nat.leb_spec (column_nunique c) 20) as [Hu|Hu].
    + intros H. apply IH in H. destruct H as [Hl Hin].
      pose proof (dict_set_length ("bar_" ++ col)
                    (BarChart col (firstn 10 (DataAnalyzer.series_value_counts c))) viz).
      split; [lia|].
      intros k v Hkv. destruct (Hin k v Hkv) as [H1|[c0 [c1 H1]]].
      * apply dict_set_in in H1. destruct H1 as [[-> ->]|H1]; auto.
        right. exists col, c. repeat split; auto.
      * right. exists c0, c1. tauto.
    + intros H. apply IH in H. destruct H as [Hl Hin].
      split; [lia|].
      intros k v Hkv. destruct (Hin k v Hkv) as [H1|[c0 [c1 H1]]]; auto.
      right. exists c0, c1. tauto.
Qed.

Lemma firstn_in {A : Type} (n : nat) (l : list A) (x : A) :
  In x (firstn n l) -> In x l.
Proof.
  revert n. induction l as [|y l IH]; intros [|n]; simpl; try contradiction.
  intros [H|H]; eauto.
Qed.

Lemma histogram_loop_returns (df : DataFrame) (cols : list string)
  (viz : list (string * chart)) :
  incl cols (columns df) -> exists viz', histogram_loop df cols viz = Returned viz'.
Proof.
  revert viz. induction cols as [|col cols IH]; intros viz Hi;
    cbn [histogram_loop]; eauto.
  unfold plot_histogram.
  destruct (get_col_some df col) as [c ->]; [apply Hi; left; reflexivity|].
  apply IH. intros x Hx. apply Hi. right. exact Hx.
Qed.

Lemma bar_loop_returns (df : DataFrame) (cols : list string)
  (viz : list (string * chart)) :
  incl cols (columns df) -> exists viz', bar_loop df cols viz = Returned viz'.
Proof.
  revert viz. induction cols as [|col cols IH]; intros viz Hi;
    cbn [bar_loop]; eauto.
  unfold plot_bar_chart.
  destruct (get_col_some df col) as [c ->]; [apply Hi; left; reflexivity|].
  assert (Hr : incl cols (columns df)).
  { intros x Hx. apply Hi. right. exact Hx. }
  destruct (column_nunique c <=? 20); apply IH; exact Hr.
Qed.

Lemma create_auto_visualizations_returns (df : DataFrame) (t : DataCleaner.ColumnTypes) :
  incl (DataCleaner.numeric t) (columns df) ->
  incl (DataCleaner.categorical t) (columns df) ->
  incl (DataCleaner.datetime t) (columns df) ->
  exists viz, create_auto_visualizations df t = Returned viz.
Proof.
  intros Hn Hc Hd. unfold create_auto_visualizations.
  assert (H1 : exists v1,
            match DataCleaner.numeric t with
            | [] => Returned []
            | _ :: _ =>
              match histogram_loop df (firstn 6 (DataCleaner.numeric t)) [] with
              | Returned v =>
                if 2 <=? length (DataCleaner.numeric t)
                then match plot_correlation_heatmap df with
                     | Some heatmap => Returned (dict_set "correlation_heatmap" heatmap v)
                     | None => Returned v
                     end
                else Returned v
              | Failed e => Failed e
              end
            end = Returned v1).
  { destruct (DataCleaner.numeric t) as [|n0 ns] eqn:En; eauto.
    destruct (histogram_loop_returns df (firstn 6 (n0 :: ns)) []) as [v0 ->].
    { intros x Hx. apply Hn. eapply firstn_in. exact Hx. }
    destruct (2 <=? length (n0 :: ns)); eauto.
    destruct (plot_correlation_heatmap df); eauto. }
  destruct H1 as [v1 ->].
  destruct (bar_loop_returns df (firstn 4 (DataCleaner.categorical t)) v1) as [v2 ->].
  { intros x Hx. apply Hc. eapply firstn_in. exact Hx. }
  destruct (DataCleaner.datetime t) as [|d ds] eqn:Ed; eauto.
  destruct (DataCleaner.numeric t) as [|n0 ns] eqn:En; eauto.
  unfold plot_line_chart.
  destruct (get_col_some df d) as [c1 ->]; [apply Hd; left; reflexivity|].
  destruct (get_col_some df n0) as [c2 ->]; [apply Hn; left; reflexivity|].
  eauto.
Qed.

(** ** Column information *)

Lemma present_plus_missing (c : column) :
  length (filter (fun x => negb (DataAnalyzer.cell_missing x)) (cells c))
  + isnull_sum c = col_len c.
Proof.
  assert (H : forall (A : Type) (f : option A -> cell) (l : list (option A)),
             (forall o, DataAnalyzer.cell_missing (f o) = is_none o) ->
             length (filter (fun x => negb (DataAnalyzer.cell_missing x)) (map f l))
             + count_none l = length l).
  { intros A f l Hf. unfold count_none.
    induction l as [|o l IH]; simpl; auto.
    rewrite Hf. destruct o; simpl; lia. }
  assert (H' : forall (A : Type) (f : A -> cell) (l : list A),
             (forall a, DataAnalyzer.cell_missing (f a) = false) ->
             length (filter (fun x => negb (DataAnalyzer.cell_missing x)) (map f l)) + 0
             = length l).
  { intros A f l Hf. induction l as [|a l IH]; simpl; auto.
    rewrite Hf. simpl. lia. }
  destruct c; simpl; first [apply H'; reflexivity | apply H; intros [x|]; reflexivity].
Qed.

Lemma unique_cells_acc_length (seen l : list cell) :
  length (DataAnalyzer.unique_cells_acc seen l) <= length seen + length l.
Proof.
  revert seen. induction l as [|x l IH]; intros seen; simpl.
  - rewrite length_rev. lia.
  - destruct (existsb (cell_eqb x) seen).
    + specialize (IH seen). lia.
    + specialize (IH (x :: seen)). simpl in IH. lia.
Qed.

Lemma null_percentage (k n : nat) :
  0 < n ->
  fround (fmul (fdiv (Fin (inject_Z (Z.of_nat k))) (Fin (inject_Z (Z.of_nat n))))
               (Fin 100)) 2
  = Fin (np_round (f64_mul (f64_div (inject_Z (Z.of_nat k))
                                    (inject_Z (Z.of_nat n))) 100) 2).
Proof.
  intros Hn. unfold fdiv.
  assert (Hz : Qeq_bool (inject_Z (Z.of_nat n)) 0 = false).
  { apply not_true_iff_false. rewrite Qeq_bool_iff.
    change 0%Q with (inject_Z 0). rewrite inject_Z_injective. lia. }
  rewrite Hz. reflexivity.
Qed.

Lemma missing_report_in (n : nat) (cols : list (string * column)) (col : string)
  (k : nat) (pct : Q) :
  In (col, (k, pct)) (DataCleaner.missing_report n cols) ->
  exists c, In (col, c) cols /\ k = isnull_sum c /\ 0 < k /\
            pct = np_round (f64_mul (f64_div (inject_Z (Z.of_nat k))
                                             (inject_Z (Z.of_nat n))) 100) 2.
Proof.
  induction cols as [|[l c] cols IH]; simpl; [contradiction|].
  destruct (Nat.ltb_spec 0 (isnull_sum c)) as [Hp|Hp].
  - intros [[= <- <- <-]|H].
    + exists c. auto.
    + destruct (IH H) as [c0 Hc0]. exists c0. tauto.
  - intros H. destruct (IH H) as [c0 Hc0]. exists c0. tauto.
Qed.

(** X18.  The automatic visualizations are at most twelve, and each is
    one of these: the histogram of one of the first six numeric labels;
    the correlation heatmap, only with at least two numeric labels and at
    least two numeric columns in the table; the bar chart of one of the
    first four categorical labels, only for a column with at most twenty
    distinct values and with its ten most frequent values at most; the
    time series of the first datetime label against the first numeric
    label. *)
Theorem auto_visualizations_are_capped (df : DataFrame) (t : DataCleaner.ColumnTypes)
  (viz : list (string * chart)) :
  create_auto_visualizations df t = Returned viz ->
  length viz <= 12 /\
  (forall k v, In (k, v) viz -> expected_chart df t k v).
Proof.
  unfold create_auto_visualizations.
  set (numeric_cols := DataCleaner.numeric t).
  set (stage1 := match numeric_cols with
                 | [] => Returned []
                 | _ :: _ =>
                   match histogram_loop df (firstn 6 numeric_cols) [] with
                   | Returned v =>
                     if 2 <=? length numeric_cols
                     then match plot_correlation_heatmap df with
                          | Some heatmap => Returned (dict_set "correlation_heatmap" heatmap v)
                          | None => Returned v
                          end
                     else Returned v
                   | Failed e => Failed e
                   end
                 end).
  assert (H1 : forall v1, stage1 = Returned v1 ->
            length v1 <= 7 /\
            forall k v, In (k, v) v1 -> expected_chart df t k v).
  { intros v1. unfold stage1.
    destruct numeric_cols as [|n0 ns] eqn:En.
    - intros [= <-]. split; [simpl; lia|]. intros k v [].
    - destruct (histogram_loop df (firstn 6 (n0 :: ns)) []) as [v0|] eqn:Eh;
        [|discriminate].
      apply histogram_loop_inv in Eh. destruct Eh as [Hl Hin].
      pose proof (firstn_le_length 6 (n0 :: ns)) as Hf.
      assert (Hh : forall k v, In (k, v) v0 -> expected_chart df t k v).
      { intros k v Hkv. destruct (Hin k v Hkv) as [[]|[col Hc]].
        left. exists col. fold numeric_cols. rewrite En. tauto. }
      destruct (Nat.leb_spec 2 (length (n0 :: ns))) as [H2|H2].
      + unfold plot_correlation_heatmap.
        destruct (Nat.ltb_spec
                    (length (map fst (filter (fun nc => DataAnalyzer.is_number_dtype (snd nc))
                                             (df_cols df)))) 2) as [Hlt|Hge].
        * intros [= <-]. split; [simpl in *; lia|exact Hh].
        * intros [= <-].
          pose proof (dict_set_length "correlation_heatmap"
                        (Heatmap (map fst (filter (fun nc => DataAnalyzer.is_number_dtype (snd nc))
                                                  (df_cols df)))) v0).
          split; [simpl in *; lia|].
          intros k v Hkv. apply dict_set_in in Hkv.
          destruct Hkv as [[-> ->]|Hkv]; auto.
          right. left. split; [reflexivity|]. fold numeric_cols. rewrite En.
          split; [exact H2|]. eexists. split; [reflexivity|]. split; [exact Hge|reflexivity].
      + intros [= <-]. split; [simpl in *; lia|exact Hh]. }
  destruct stage1 as [v1|]; [|discriminate].
  destruct (H1 v1 eq_refl) as [Hl1 Hin1]. clear H1.
  destruct (bar_loop df (firstn 4 (DataCleaner.categorical t)) v1) as [v2|] eqn:Eb;
    [|discriminate].
  apply bar_loop_inv in Eb. destruct Eb as [Hl2 Hin2].
  pose proof (firstn_le_length 4 (DataCleaner.categorical t)) as Hf4.
  assert (H2 : forall k v, In (k, v) v2 -> expected_chart df t k v).
  { intros k v Hkv. destruct (Hin2 k v Hkv) as [H|[col [c Hc]]]; auto.
    right. right. left. exists col, c. tauto. }
  destruct (DataCleaner.datetime t) as [|d ds] eqn:Ed.
  - intros [= <-]. split; [lia|exact H2].
  - destruct numeric_cols as [|n0 ns] eqn:En.
    + intros [= <-]. split; [lia|exact H2].
    + destruct (plot_line_chart df d n0) as [fig|] eqn:Ep; [|discriminate].
      assert (Hfig : fig = LineChart d n0).
      { unfold plot_line_chart in Ep.
        destruct (get_col df d), (get_col df n0); congruence. }
      intros [= <-].
      pose proof (dict_set_length "time_series" fig v2).
      split; [lia|].
      intros k v Hkv. apply dict_set_in in Hkv.
      destruct Hkv as [[-> ->]|Hkv]; auto.
      right. right. right. split; [reflexivity|].
      exists d, n0. rewrite Ed.
      change (DataCleaner.numeric t) with numeric_cols. rewrite En.
      split; [reflexivity|]. split; [reflexivity|exact Hfig].
Qed.

(** X19.  Column information of a well-formed table: one row per column
    in column order; present and missing entries add up to the row
    count; the distinct values are at most the present ones; the missing
    percentage is NaN on a table without rows and otherwise between 0
    and 100; and every entry of the cleaner's quality report shows the
    count and percentage of the column-information row of its column. *)
Theorem column_info_is_consistent (df : DataFrame) :
  wf df ->
  map info_column (get_column_info df) = columns df /\
  Forall (fun r => info_non_null r + info_null r = df_len df /\
                   info_unique r <= info_non_null r /\
                   (df_len df = 0 -> info_null_pct r = FNaN) /\
                   (0 < df_len df ->
                    exists q, info_null_pct r = Fin q /\ (0 <= q)%Q /\ (q <= 100)%Q))
         (get_column_info df) /\
  (forall col k pct,
     In (col, (k, pct)) (DataCleaner.missing_values (DataCleaner.analyze_data_quality df)) ->
     exists r, In r (get_column_info df) /\ info_column r = col /\
               info_null r = k /\ info_null_pct r = Fin pct).
Proof.
  intros Hw. unfold get_column_info. split; [|split].
  - rewrite map_map. reflexivity.
  - apply Forall_map. unfold wf in Hw. eapply Forall_impl; [|exact Hw].
    intros [col c] Hc. cbn [fst snd] in *.
    cbn [info_non_null info_null info_unique info_null_pct].
    pose proof (present_plus_missing c) as Hp.
    split; [lia|]. split.
    { pose proof (unique_cells_acc_length []
        (filter (fun x => negb (DataAnalyzer.cell_missing x)) (cells c))).
      simpl in *. lia. }
    split.
    + intros Hz. assert (Hn : isnull_sum c = 0) by lia.
      rewrite Hn, Hz. reflexivity.
    + intros Hpos. rewrite (null_percentage _ _ Hpos). eexists.
      split; [reflexivity|].
      apply np_percentage; lia.
  - intros col k pct Hin. unfold DataCleaner.analyze_data_quality in Hin.
    cbn [DataCleaner.missing_values] in Hin.
    apply missing_report_in in Hin. destruct Hin as (c & Hc & Hk & Hpos & Hpct).
    eexists. split; [apply in_map; exact Hc|].
    cbn [info_column info_null info_null_pct fst snd].
    split; [reflexivity|]. split; [auto|].
    assert (Hn : 0 < df_len df).
    { unfold wf in Hw. rewrite Forall_forall in Hw. specialize (Hw _ Hc).
      simpl in Hw. rewrite <- Hw.
      assert (isnull_sum c <= col_len c).
      { pose proof (present_plus_missing c). lia. }
      lia. }
    rewrite (null_percentage _ _ Hn), Hpct, Hk. reflexivity.
Qed.

End FrontendMore.

(** * The further properties on explicit tables *)

Module MoreRuns.

Import DataCleaner DataAnalyzer OutlierMask DataLoader DataVisualizer.
Import CleanerMore AnalyzerMore FrontendMore.

Local Open Scope string_scope.

Ltac distinct_labels :=
  repeat (constructor; [simpl; intuition discriminate|]); constructor.

Lemma cleaning_report_adds_up_witness :
  exists df' rep,
    auto_clean (pandas := iso_pandas) Tables.one_gap = Ok (df', rep) /\
    (Z.of_nat (total_rows (quality rep)) - duplicates_removed rep)%Z
    = Z.of_nat (fst (final_shape rep)).
Proof.
  eexists. eexists. split.
  - reflexivity.
  - destruct (cleaning_report_adds_up (pandas := iso_pandas) Tables.one_gap _ _ eq_refl)
      as [H _].
    exact H.
Defined.

Lemma duplicates_removed_at_least_reported_witness :
  exists df' rep,
    auto_clean (pandas := iso_pandas) Tables.one_gap = Ok (df', rep) /\
    (Z.of_nat (duplicates (quality rep)) <= duplicates_removed rep)%Z.
Proof.
  eexists. eexists. split.
  - reflexivity.
  - destruct (duplicates_removed_at_least_reported (pandas := iso_pandas)
                Tables.one_gap _ _ eq_refl) as [H _].
    exact H.
Defined.

Lemma handle_missing_values_idempotent_witness :
  no_missing Tables.shops = true /\
  handle_missing_values Tables.shops = Tables.shops.
Proof.
  split; [reflexivity|].
  destruct (handle_missing_values_idempotent Tables.shops) as [_ H].
  apply H. reflexivity.
Defined.

Lemma remove_duplicates_leaves_none_witness :
  wf Tables.towns /\
  count_true (duplicated (remove_duplicates Tables.towns)) = 0.
Proof.
  assert (Hw : wf Tables.towns) by (apply wfb_wf; reflexivity).
  split; [exact Hw|].
  destruct (remove_duplicates_leaves_none Tables.towns Hw) as [H _]. exact H.
Defined.

Lemma quality_report_missing_values_witness :
  wf Tables.blank_measure /\
  map fst (missing_values (analyze_data_quality Tables.blank_measure)) = ["m"].
Proof.
  assert (Hw : wf Tables.blank_measure) by (apply wfb_wf; reflexivity).
  split; [exact Hw|].
  destruct (quality_report_missing_values Tables.blank_measure Hw) as [H _].
  exact H.
Defined.

Lemma auto_clean_raises_iff_witness :
  wf Tables.no_rows /\
  auto_clean (pandas := iso_pandas) Tables.no_rows = Raise Py.ZeroDivisionError.
Proof.
  assert (Hw : wf Tables.no_rows) by (apply wfb_wf; reflexivity).
  split; [exact Hw|].
  destruct (auto_clean_raises_iff (pandas := iso_pandas) Tables.no_rows Hw) as [[_ H] _].
  apply H. split; reflexivity.
Defined.

Lemma narrowing_keeps_entries_witness :
  optimize_column (pandas := iso_pandas) (IntCol W64 [5; 127]%Z)
  = Ok (IntCol W16 [5; 127]%Z) /\
  cells (IntCol W16 [5; 127]%Z) = cells (IntCol W64 [5; 127]%Z).
Proof.
  split; [reflexivity|].
  destruct (narrowing_keeps_entries (pandas := iso_pandas)
              (IntCol W64 [5; 127]%Z) (IntCol W16 [5; 127]%Z) eq_refl) as [H _].
  exact H.
Defined.

Lemma classification_is_exclusive_witness :
  NoDup (columns Tables.branches) /\
  exists t, detect_column_types (pandas := iso_pandas) Tables.branches = Ok t /\
            NoDup (classified t).
Proof.
  assert (Hn : NoDup (columns Tables.branches)) by distinct_labels.
  split; [exact Hn|]. eexists. split.
  - reflexivity.
  - destruct (classification_is_exclusive (pandas := iso_pandas)
                Tables.branches _ Hn eq_refl) as [H _].
    exact H.
Defined.

Lemma classifier_decision_table_witness :
  NoDup (columns Tables.branches) /\
  exists t, detect_column_types (pandas := iso_pandas) Tables.branches = Ok t /\
            In "city" (categorical t).
Proof.
  assert (Hn : NoDup (columns Tables.branches)) by distinct_labels.
  split; [exact Hn|]. eexists. split.
  - reflexivity.
  - destruct (classifier_decision_table (pandas := iso_pandas) Tables.branches _
                "city" (ObjectCol [Some "a"; Some "a"; Some "a"; Some "b"; Some "b"])
                Hn eq_refl) as (_ & _ & [_ H] & _).
    + right. left. reflexivity.
    + apply H. eexists. split; [reflexivity|]. split; [reflexivity|].
      left. vm_compute. lia.
Defined.

Lemma detect_outliers_mask_witness :
  wf Tables.towns /\
  detect_outliers (stats := moment_stats) Tables.towns "city"
  = OutlierMask.Returned [false; false; false; false; false].
Proof.
  assert (Hw : wf Tables.towns) by (apply wfb_wf; reflexivity).
  split; [exact Hw|].
  destruct (detect_outliers_mask (stats := moment_stats) Tables.towns "city" Hw)
    as (_ & H & _).
  apply (H _ eq_refl). reflexivity.
Defined.

Lemma outlier_mask_matches_summary_witness :
  exists d mask,
    distribution_analysis (stats := moment_stats) Tables.ages "age" = Ok (Some d) /\
    detect_outliers (stats := moment_stats) Tables.ages "age" = OutlierMask.Returned mask /\
    count_true mask = outliers_count d.
Proof.
  eexists.
  destruct (outlier_mask_matches_summary (stats := moment_stats)
              Tables.ages "age" _ eq_refl) as [mask [Hm Hc]].
  exists mask. split; [reflexivity|]. split; [exact Hm|exact Hc].
Defined.

Lemma distribution_summary_bounds_witness :
  exists d,
    distribution_analysis (stats := moment_stats) Tables.ages "age" = Ok (Some d) /\
    (Q1 d <= Q3 d)%Q.
Proof.
  eexists. split.
  - reflexivity.
  - destruct (distribution_summary_bounds (stats := moment_stats)
                Tables.ages "age" _ eq_refl) as (data & _ & _ & H & _).
    exact H.
Defined.

Lemma strong_correlations_listed_once_witness :
  NoDup (columns Tables.line) /\
  NoDup (map pair_labels (snd (correlation_analysis (stats := moment_stats) Tables.line))).
Proof.
  assert (Hn : NoDup (columns Tables.line)) by distinct_labels.
  split; [exact Hn|].
  destruct (strong_correlations_listed_once (stats := moment_stats) Tables.line Hn)
    as [H _].
  exact H.
Defined.

Lemma imputed_value_is_reported_median_witness :
  exists m r q,
    impute_column (FloatCol F64 [Some 1%Q; None]) = FloatCol F64 (fillna m [Some 1%Q; None]) /\
    In ("x", r) (descriptive_statistics (stats := moment_stats) Tables.one_gap) /\
    d_count r = 1 /\ d_median r = Fin q /\ (q == m)%Q.
Proof.
  apply (imputed_value_is_reported_median (stats := moment_stats)
           Tables.one_gap "x" F64 [Some 1%Q; None]).
  - left. reflexivity.
  - discriminate.
Defined.

Lemma categorical_summary_is_consistent_witness :
  wf Tables.towns /\
  exists info,
    categorical_analysis Tables.towns "city" = Some info /\
    StronglySorted by_count_desc (value_counts info).
Proof.
  assert (Hw : wf Tables.towns) by (apply wfb_wf; reflexivity).
  split; [exact Hw|]. eexists. split.
  - reflexivity.
  - destruct (categorical_summary_is_consistent Tables.towns "city" Hw) as [_ H].
    destruct (H _ eq_refl) as (_ & Hs & _). exact Hs.
Defined.

Lemma histogram_grid_layout_witness :
  exists grid,
    plot_multiple_histograms Tables.ledger ["units"; "revenue"; "refund"; "stock"]
    = DataVisualizer.Returned grid /\
    grid_rows grid = 2 /\ grid_cols grid = 3 /\
    nth_error (traces grid) 3 = Some ("stock", (2, 1)) /\
    NoDup (map snd (traces grid)) /\
    plot_multiple_histograms Tables.ledger [] = DataVisualizer.Failed (ValueError "rows") /\
    plot_multiple_histograms Tables.ledger ["units"; "profit"; "stock"]
    = DataVisualizer.Failed (DataVisualizer.KeyError "profit").
Proof.
  eexists. split; [reflexivity|].
  destruct (histogram_grid_layout Tables.ledger
              ["units"; "revenue"; "refund"; "stock"]) as (_ & _ & _ & H).
  destruct (H _ eq_refl) as (_ & _ & _ & Hk & _ & Hn & _).
  split; [reflexivity|]. split; [reflexivity|].
  split; [apply (Hk 3 "stock"); reflexivity|].
  split; [exact Hn|].
  split; [reflexivity|reflexivity].
Defined.

Lemma file_size_display_witness :
  (0 <= 3145728)%Z /\ validate_file_size 3145728 = true /\
  (fst (format_size 3145728) <= 1024)%Q.
Proof.
  split; [lia|]. split; [reflexivity|].
  destruct (file_size_display 3145728) as (_ & _ & H).
  destruct H as (_ & _ & Hb & _); [lia|reflexivity|exact Hb].
Defined.

Lemma auto_visualizations_are_capped_witness :
  exists viz,
    create_auto_visualizations Tables.branches
      {| numeric := ["id"]; categorical := ["city"]; datetime := []; text := [] |}
    = DataVisualizer.Returned viz /\
    length viz <= 12.
Proof.
  eexists. split.
  - reflexivity.
  - destruct (auto_visualizations_are_capped Tables.branches
                {| numeric := ["id"]; categorical := ["city"]; datetime := []; text := [] |}
                _ eq_refl) as [H _].
    exact H.
Defined.

Lemma column_info_is_consistent_witness :
  wf Tables.blank_measure /\
  map info_column (get_column_info Tables.blank_measure) = columns Tables.blank_measure.
Proof.
  assert (Hw : wf Tables.blank_measure) by (apply wfb_wf; reflexivity).
  split; [exact Hw|].
  destruct (column_info_is_consistent Tables.blank_measure Hw) as [H _]. exact H.
Defined.

End MoreRuns.
